(** * AwoX mesh connection and command engine

    A shallow embedding of [custom_components/awox/awox_mesh.py]: the node
    registry, the single-link connection manager, the command worker with
    its retry loop, the RSSI ordering and the periodic health check.

    Conventions of the embedding.
    - The object [AwoxMesh] is a record; every method is a function that
      threads the record explicitly.  Methods that can raise return a
      [Res] next to the new state: effects made before an exception stay.
    - The Python dict [self._devices] keeps insertion order, and that order
      is the connection-candidate order, so it is an association list.
      The mapping returned by the Bluetooth scan is only looked up, so it
      is a [gmap].
    - Timestamps ([dt_util.now()]) are integers in milliseconds.
    - The collaborators that are not part of this module (the Bluetooth
      link, the device scanner, the threads that run while a coroutine is
      suspended) are parameters gathered in the record [World].  Every
      call into them is recorded in the field [trace] of the state, which
      is ghost state used to state the properties.
    - Only exceptions that derive from [Exception] are modelled. *)

From stdpp Require Import base list strings gmap.
From Stdlib Require Import ZArith Lia Ascii Permutation Sorted.

Open Scope Z_scope.

(** ** Exceptions and results *)

(** All of these derive from Python's [Exception]; an [except Exception]
    clause catches each of them. *)
Inductive Exn :=
| UpdateFailed (msg : string)
| TimeoutError
| LinkError
| AttributeError
| KeyError.

Inductive Res (A : Type) :=
| Ok (a : A)
| Raised (e : Exn).
Arguments Ok {A} a.
Arguments Raised {A} e.

(** ** Data model *)

(** A status payload: the keys of the dict the code looks at.
    [{'state': None}] is [state_none]. *)
Record Status := {
  status_mesh_id : option Z;
  status_state : option Z
}.

Definition state_none : Status :=
  {| status_mesh_id := None; status_state := None |}.

(** One value of [self._devices]; the key ['rssi'] is absent until the
    first scan. *)
Record DeviceInfo := {
  mac : option string;
  name : string;
  callback : nat;
  last_update : option Z;
  rssi : option Z
}.

(** An [AwoxMeshLight] object, as far as this module reads or writes it. *)
Record Link := {
  link_mac : string;
  link_mesh_id : Z;
  link_is_connected : bool;
  status_callback : bool
}.

Inductive Params :=
| Positional (args : list Z)
| Keywords (kwargs : list (string * Z)).

(** An item of [self._queue]; [cmd_callback] identifies the closure
    [command_executed] of the enqueuing call. *)
Record Command := {
  command : string;
  params : Params;
  cmd_callback : nat;
  allow_to_fail : bool
}.

(** [self._state]. *)
Record MeshState := {
  last_rssi_check : option Z;
  last_connection : option Z;
  connected_device : option string
}.

(** Calls that leave the module, in the order they happen. *)
Inductive Event :=
| EvSubscriber (cb : nat) (status : Status)
| EvListeners
| EvLinkConnect (device : Link)
| EvCandidateDisconnect (device : Link)
| EvLinkDisconnect (device : Link) (owned : option Link)
| EvDispatch (device : Link) (cmd : Command)
| EvCallCommand (cmd : Command)
| EvRetry (tries : nat)
| EvCommandExecuted (cb : nat)
| EvTaskDone.

Record AwoxMesh := {
  connected_bluetooth_device : option Link;
  state : MeshState;
  devices : list (Z * DeviceInfo);
  queue : list Command;
  shutdown : bool;
  command_tread_alive : bool;
  last_update_success : bool;
  issued : nat;
  now : Z;
  trace : list Event
}.

(** ** The state and exception monad *)

Definition M (A : Type) : Type := AwoxMesh -> Res A * AwoxMesh.

Definition ret {A} (a : A) : M A := fun st => (Ok a, st).

Definition bind {A B} (c : M A) (k : A -> M B) : M B :=
  fun st =>
    match c st with
    | (Ok a, st') => k a st'
    | (Raised e, st') => (Raised e, st')
    end.

Definition raise {A} (e : Exn) : M A := fun st => (Raised e, st).

(** [try: body except Exception as e: handler e]. *)
Definition try_except {A} (body : M A) (handler : Exn -> M A) : M A :=
  fun st =>
    match body st with
    | (Ok a, st') => (Ok a, st')
    | (Raised e, st') => handler e st'
    end.

Definition modify (f : AwoxMesh -> AwoxMesh) : M unit :=
  fun st => (Ok tt, f st).

Definition gets {A} (f : AwoxMesh -> A) : M A :=
  fun st => (Ok (f st), st).

Notation "'let*' x ':=' c 'in' k" := (bind c (fun x => k))
  (at level 10, x name, c at level 100, k at level 200).

(** ** Field updates *)

Definition set_connected_bluetooth_device (v : option Link) (st : AwoxMesh) : AwoxMesh :=
  {| connected_bluetooth_device := v; state := state st; devices := devices st;
     queue := queue st; shutdown := shutdown st;
     command_tread_alive := command_tread_alive st;
     last_update_success := last_update_success st; issued := issued st;
     now := now st; trace := trace st |}.

Definition set_state (v : MeshState) (st : AwoxMesh) : AwoxMesh :=
  {| connected_bluetooth_device := connected_bluetooth_device st; state := v;
     devices := devices st; queue := queue st; shutdown := shutdown st;
     command_tread_alive := command_tread_alive st;
     last_update_success := last_update_success st; issued := issued st;
     now := now st; trace := trace st |}.

Definition set_devices (v : list (Z * DeviceInfo)) (st : AwoxMesh) : AwoxMesh :=
  {| connected_bluetooth_device := connected_bluetooth_device st; state := state st;
     devices := v; queue := queue st; shutdown := shutdown st;
     command_tread_alive := command_tread_alive st;
     last_update_success := last_update_success st; issued := issued st;
     now := now st; trace := trace st |}.

Definition set_queue (v : list Command) (st : AwoxMesh) : AwoxMesh :=
  {| connected_bluetooth_device := connected_bluetooth_device st; state := state st;
     devices := devices st; queue := v; shutdown := shutdown st;
     command_tread_alive := command_tread_alive st;
     last_update_success := last_update_success st; issued := issued st;
     now := now st; trace := trace st |}.

Definition set_shutdown (v : bool) (st : AwoxMesh) : AwoxMesh :=
  {| connected_bluetooth_device := connected_bluetooth_device st; state := state st;
     devices := devices st; queue := queue st; shutdown := v;
     command_tread_alive := command_tread_alive st;
     last_update_success := last_update_success st; issued := issued st;
     now := now st; trace := trace st |}.

Definition set_issued (v : nat) (st : AwoxMesh) : AwoxMesh :=
  {| connected_bluetooth_device := connected_bluetooth_device st; state := state st;
     devices := devices st; queue := queue st; shutdown := shutdown st;
     command_tread_alive := command_tread_alive st;
     last_update_success := last_update_success st; issued := v;
     now := now st; trace := trace st |}.

Definition set_now (v : Z) (st : AwoxMesh) : AwoxMesh :=
  {| connected_bluetooth_device := connected_bluetooth_device st; state := state st;
     devices := devices st; queue := queue st; shutdown := shutdown st;
     command_tread_alive := command_tread_alive st;
     last_update_success := last_update_success st; issued := issued st;
     now := v; trace := trace st |}.

(** Appends one event to the ghost trace. *)
Definition log (e : Event) (st : AwoxMesh) : AwoxMesh :=
  {| connected_bluetooth_device := connected_bluetooth_device st; state := state st;
     devices := devices st; queue := queue st; shutdown := shutdown st;
     command_tread_alive := command_tread_alive st;
     last_update_success := last_update_success st; issued := issued st;
     now := now st; trace := trace st ++ [e] |}.

Definition set_last_rssi_check (v : option Z) (s : MeshState) : MeshState :=
  {| last_rssi_check := v; last_connection := last_connection s;
     connected_device := connected_device s |}.

Definition set_last_connection (v : option Z) (s : MeshState) : MeshState :=
  {| last_rssi_check := last_rssi_check s; last_connection := v;
     connected_device := connected_device s |}.

Definition set_connected_device (v : option string) (s : MeshState) : MeshState :=
  {| last_rssi_check := last_rssi_check s; last_connection := last_connection s;
     connected_device := v |}.

Definition set_last_update (v : option Z) (d : DeviceInfo) : DeviceInfo :=
  {| mac := mac d; name := name d; callback := callback d;
     last_update := v; rssi := rssi d |}.

Definition set_rssi (v : option Z) (d : DeviceInfo) : DeviceInfo :=
  {| mac := mac d; name := name d; callback := callback d;
     last_update := last_update d; rssi := v |}.

Definition set_status_callback (v : bool) (l : Link) : Link :=
  {| link_mac := link_mac l; link_mesh_id := link_mesh_id l;
     link_is_connected := link_is_connected l; status_callback := v |}.

Definition set_link_is_connected (v : bool) (l : Link) : Link :=
  {| link_mac := link_mac l; link_mesh_id := link_mesh_id l;
     link_is_connected := v; status_callback := status_callback l |}.

(** ** Insertion-ordered dictionaries with integer keys *)

Section Dict.
Context {V : Type}.

Fixpoint dict_get (k : Z) (d : list (Z * V)) : option V :=
  match d with
  | [] => None
  | (k', v) :: d' => if decide (k' = k) then Some v else dict_get k d'
  end.

(** [d[k] = v]: an existing key keeps its position, a new one goes last. *)
Fixpoint dict_set (k : Z) (v : V) (d : list (Z * V)) : list (Z * V) :=
  match d with
  | [] => [(k, v)]
  | (k', v') :: d' =>
      if decide (k' = k) then (k, v) :: d' else (k', v') :: dict_set k v d'
  end.

(** [d[k][field] = x] on the value stored under [k]. *)
Fixpoint dict_update (k : Z) (f : V -> V) (d : list (Z * V)) : list (Z * V) :=
  match d with
  | [] => []
  | (k', v) :: d' =>
      if decide (k' = k) then (k', f v) :: d' else (k', v) :: dict_update k f d'
  end.

Definition dict_keys (d : list (Z * V)) : list Z := d.*1.
Definition dict_values (d : list (Z * V)) : list V := d.*2.
End Dict.

(** ** Node registry *)

Definition register_device (mesh_id : Z) (mac_ : option string) (name_ : string)
    (callback_func : nat) (st : AwoxMesh) : AwoxMesh :=
  set_devices
    (dict_set mesh_id
       {| mac := mac_; name := name_; callback := callback_func;
          last_update := None; rssi := None |}
       (devices st))
    st.

Definition is_connected (st : AwoxMesh) : bool :=
  match connected_bluetooth_device st with
  | Some device => link_is_connected device
  | None => false
  end.

Definition disable_device (mesh_id : Z) (st : AwoxMesh) : AwoxMesh :=
  match dict_get mesh_id (devices st) with
  | Some device_info =>
      match last_update device_info with
      | Some _ =>
          let st1 := log (EvSubscriber (callback device_info) state_none) st in
          set_devices (dict_update mesh_id (set_last_update None) (devices st1)) st1
      | None => st
      end
  | None => st
  end.

(** The loop runs over the keys; the values are read from and written to
    the store, which is what the aliased [device_info] amounts to. *)
Definition update_status_of_all_devices_to_disabled (st : AwoxMesh) : AwoxMesh :=
  fold_left (fun s mesh_id => disable_device mesh_id s) (dict_keys (devices st)) st.

Definition _async_update_mesh_state (st : AwoxMesh) : AwoxMesh :=
  let st1 :=
    if negb (is_connected st)
    then set_state (set_connected_device None (state st)) st
    else st in
  log EvListeners st1.

Definition mesh_status_callback (status : Status) (st : AwoxMesh) : AwoxMesh :=
  match status_mesh_id status with
  | None => st
  | Some mesh_id =>
      match dict_get mesh_id (devices st) with
      | None => st
      | Some device_info =>
          let st1 := log (EvSubscriber (callback device_info) status) st in
          set_devices
            (dict_update mesh_id (set_last_update (Some (now st1))) (devices st1)) st1
      end
  end.

(** ** The collaborators *)

Inductive ConnectOutcome :=
| ConnectReturns (ok : bool)
| ConnectRaises (e : Exn).

Inductive DispatchOutcome :=
| DispatchReturns (result : option Z)
| DispatchRaises (e : Exn).

(** Points at which a coroutine of the health check is suspended. *)
Inductive Suspension :=
| AwaitCommand (cmd : Command)
| Sleep (ms : Z).

(** The answers of the collaborators.  The link and the scanner answer
    according to the history of calls so far.  [concurrent] is what the
    other threads, the link's status callback and the clock do to the
    object while a coroutine is suspended; [timeout_expires] tells whether
    an enclosing [async_timeout.timeout] ends the wait. *)
Record World := {
  link_connect : list Event -> Link -> ConnectOutcome;
  link_disconnect : list Event -> Link -> option Exn;
  link_dispatch : list Event -> Link -> Command -> DispatchOutcome;
  find_devices : list Event -> Res (gmap string (option Z));
  concurrent : Suspension -> AwoxMesh -> AwoxMesh;
  timeout_expires : Z -> AwoxMesh -> bool
}.

(** [str.upper()] on the ASCII range, which is where the characters of a
    MAC address are. *)
Definition upper_ascii (c : ascii) : ascii :=
  let n := nat_of_ascii c in
  if ((97 <=? n)%nat && (n <=? 122)%nat)%bool then ascii_of_nat (n - 32) else c.

Fixpoint upper (s : string) : string :=
  match s with
  | EmptyString => EmptyString
  | String c s' => String (upper_ascii c) (upper s')
  end.

(** [sorted(items, key=..., reverse=True)]: a stable sort in descending
    order of the key; items with equal keys keep their relative order. *)
Section Sorted.
Context {A : Type} (key : A -> Z).

Fixpoint insert_desc (x : A) (l : list A) : list A :=
  match l with
  | [] => [x]
  | y :: l' => if key y <=? key x then x :: y :: l' else y :: insert_desc x l'
  end.

Fixpoint sorted_reverse (l : list A) : list A :=
  match l with
  | [] => []
  | x :: l' => insert_desc x (sorted_reverse l')
  end.
End Sorted.

Definition NOT_FOUND : Z := -999999.
Definition NO_RSSI : Z := -99999.

Section Engine.
Variable w : World.

(** *** Calls on a link *)

(** [AwoxMeshLight(mac, mesh_name, mesh_password, mesh_id)]. *)
Definition new_link (mac_ : string) (mesh_id : Z) : Link :=
  {| link_mac := mac_; link_mesh_id := mesh_id;
     link_is_connected := false; status_callback := false |}.

Definition connect (device : Link) : M bool :=
  fun st =>
    let st1 := log (EvLinkConnect device) st in
    match link_connect w (trace st) device with
    | ConnectReturns ok => (Ok ok, st1)
    | ConnectRaises e => (Raised e, st1)
    end.

(** [device.disconnect()] on a candidate that did not connect. *)
Definition candidate_disconnect (device : Link) : M unit :=
  fun st =>
    let st1 := log (EvCandidateDisconnect device) st in
    match link_disconnect w (trace st) device with
    | None => (Ok tt, st1)
    | Some e => (Raised e, st1)
    end.

(** [device.disconnect()] on the link the mesh owned; the event keeps
    the value of [self._connected_bluetooth_device] at the call. *)
Definition owned_disconnect (device : Link) : M unit :=
  fun st =>
    let st1 := log (EvLinkDisconnect device (connected_bluetooth_device st)) st in
    match link_disconnect w (trace st) device with
    | None => (Ok tt, st1)
    | Some e => (Raised e, st1)
    end.

(** [getattr(self._connected_bluetooth_device, name)(...)]. *)
Definition dispatch (cmd : Command) : M (option Z) :=
  fun st =>
    match connected_bluetooth_device st with
    | None => (Raised AttributeError, st)
    | Some device =>
        let st1 := log (EvDispatch device cmd) st in
        match link_dispatch w (trace st) device cmd with
        | DispatchReturns result => (Ok result, st1)
        | DispatchRaises e => (Raised e, st1)
        end
    end.

(** *** Connection manager *)

Definition _disconnect_current_device : M unit :=
  fun st =>
    match connected_bluetooth_device st with
    | None => (Ok tt, st)
    | Some device =>
        (let* _ := try_except
           (let* _ := modify (set_connected_bluetooth_device None) in
            owned_disconnect device)
           (fun _ => ret tt) in
         modify _async_update_mesh_state) st
    end.

Definition async_shutdown : M unit :=
  let* _ := modify (set_shutdown true) in
  _disconnect_current_device.

(** The assignments made when [device.connect()] returned true; a link
    that accepted the connection reports [is_connected]. *)
Definition adopt (device : Link) (device_info : DeviceInfo) (st : AwoxMesh) : AwoxMesh :=
  let st1 := set_connected_bluetooth_device
               (Some (set_link_is_connected true device)) st in
  let st2 := set_state (set_connected_device (Some (name device_info)) (state st1)) st1 in
  let st3 := set_state (set_last_connection (Some (now st2)) (state st2)) st2 in
  _async_update_mesh_state st3.

(** The [for] loop of [_async_connect_device]; the result [true] of the
    guarded block stands for [break]. *)
Fixpoint connect_candidates (items : list (Z * DeviceInfo)) : M unit :=
  match items with
  | [] => ret tt
  | (mesh_id, device_info) :: rest =>
      match mac device_info with
      | None => connect_candidates rest
      | Some mac_ =>
          let device := new_link mac_ mesh_id in
          let* connected :=
            try_except
              (let* ok := connect device in
               if ok
               then let* _ := modify (adopt device device_info) in ret true
               else ret false)
              (fun _ => ret false) in
          if connected then ret tt
          else let* _ := candidate_disconnect device in connect_candidates rest
      end
  end.

Definition wire_status_callback (st : AwoxMesh) : AwoxMesh :=
  match connected_bluetooth_device st with
  | Some device =>
      set_connected_bluetooth_device (Some (set_status_callback true device)) st
  | None => st
  end.

Definition _async_connect_device : M unit :=
  fun st =>
    if is_connected st then (Ok tt, st)
    else (let* _ := connect_candidates (devices st) in
          modify wire_status_callback) st.

(** *** Command worker *)

Definition is_none {A} (o : option A) : bool :=
  match o with None => true | Some _ => false end.

Definition _call_command (cmd : Command) : M bool :=
  let* _ := modify (log (EvCallCommand cmd)) in
  let* _ := _async_connect_device in
  let* connected := gets is_connected in
  if negb connected then ret false
  else
    let* outcome :=
      try_except
        (let* result :=
           match params cmd with
           | Positional _ => dispatch cmd
           | Keywords _ => dispatch cmd
           end in
         ret (result, false))
        (fun _ => ret (None, true)) in
    let result := fst outcome in
    let failed := snd outcome in
    let failed :=
      if (is_none result && negb (allow_to_fail cmd) && negb failed)%bool
      then true else failed in
    let* _ := (if failed then _disconnect_current_device else ret tt) in
    if (failed && negb (allow_to_fail cmd))%bool then ret false else ret true.

(** [while not self._call_command(command) and tries < 3: tries += 1].
    The guard fails after at most four calls; [fuel] is the structural
    argument and [retry_loop_fuel] shows that it is never exhausted. *)
Fixpoint retry_loop (fuel : nat) (tries : nat) (cmd : Command) : M unit :=
  match fuel with
  | O => ret tt
  | S fuel' =>
      let* ok := _call_command cmd in
      if (negb ok && (tries <? 3)%nat)%bool
      then let* _ := modify (log (EvRetry (S tries))) in retry_loop fuel' (S tries) cmd
      else ret tt
  end.

(** One turn of the worker loop after [self._queue.get()].  Every item
    of the queue is built by [_async_add_command_to_queue] and has the
    key ['callback'], so the test for it is always true. *)
Definition process_command (cmd : Command) : M unit :=
  let* _ := try_except (retry_loop 4 0 cmd) (fun _ => _disconnect_current_device) in
  let* _ := modify (log (EvCommandExecuted (cmd_callback cmd))) in
  modify (log EvTaskDone).

(** The thread's function has returned: [is_alive()] is false from now
    on. *)
Definition thread_ended (st : AwoxMesh) : AwoxMesh :=
  {| connected_bluetooth_device := connected_bluetooth_device st;
     state := state st; devices := devices st; queue := queue st;
     shutdown := shutdown st; command_tread_alive := false;
     last_update_success := last_update_success st;
     issued := issued st; now := now st; trace := trace st |}.

(** The worker loop from [self._queue.get()] on, over the items that
    [get] hands out: this is where the thread stands whenever it is
    idle.  The loop tests [_shutdown] only at its head, that is after a
    turn and before the next [get]; when the test ends the loop the
    thread's function returns.  On an empty queue the thread blocks in
    [get], which ends the run of the model.  An exception that leaves
    the loop body ends the thread. *)
Fixpoint worker_at_get (pending : list Command) (st : AwoxMesh) : AwoxMesh :=
  match pending with
  | [] => st
  | cmd :: rest =>
      match process_command cmd (set_queue rest st) with
      | (Ok _, st1) =>
          if shutdown st1 then thread_ended st1 else worker_at_get rest st1
      | (Raised _, st1) => thread_ended st1
      end
  end.

(** The worker loop from its head, as the thread enters it. *)
Definition process_commands (pending : list Command) (st : AwoxMesh) : AwoxMesh :=
  if shutdown st then thread_ended st else worker_at_get pending st.

Definition _process_command_queue (st : AwoxMesh) : AwoxMesh :=
  process_commands (queue st) st.

(** *** Issuing commands *)

(** The closure [command_executed] of the call is numbered by the count
    of commands issued so far.  The polling loop [while not done] is
    taken as one suspension, [AwaitCommand]: what the other threads do
    meanwhile is the world's, and so is that the wait ends.  The loop is
    spelled out in [wait_until_done] below. *)
Definition _async_add_command_to_queue (command_ : string) (params_ : Params)
    (allow_to_fail_ : bool) : M unit :=
  fun st =>
    if negb (command_tread_alive st)
    then (Raised (UpdateFailed "Command tread died!"), st)
    else
      let cmd := {| command := command_; params := params_;
                    cmd_callback := issued st; allow_to_fail := allow_to_fail_ |} in
      let st1 := set_queue (queue st ++ [cmd]) (set_issued (S (issued st)) st) in
      (Ok tt, concurrent w (AwaitCommand cmd) st1).

(** [async with async_timeout.timeout(seconds)] around a block that
    waits for a queued command: when the bound ends the wait, the block
    is left with [TimeoutError] in the state the wait produced. *)
Definition with_timeout (seconds : Z) (body : M unit) : M unit :=
  fun st =>
    match body st with
    | (Ok _, st') =>
        if timeout_expires w seconds st then (Raised TimeoutError, st')
        else (Ok tt, st')
    | (Raised e, st') => (Raised e, st')
    end.

Definition sleep (ms : Z) : M unit := modify (concurrent w (Sleep ms)).

Definition async_on (mesh_id : Z) : M unit :=
  _async_add_command_to_queue "on" (Keywords [("dest"%string, mesh_id)]) false.

Definition async_off (mesh_id : Z) : M unit :=
  _async_add_command_to_queue "off" (Keywords [("dest"%string, mesh_id)]) false.

(** *** RSSI scan *)

Definition scan_rank (found : gmap string (option Z)) (mac_ : string) : Z :=
  match found !! upper mac_ with
  | Some (Some value) => value
  | Some None => NO_RSSI
  | None => NOT_FOUND
  end.

Definition assign_rssi (found : gmap string (option Z)) (mesh_id : Z) : M unit :=
  fun st =>
    match dict_get mesh_id (devices st) with
    | None => (Raised KeyError, st)
    | Some device_info =>
        match mac device_info with
        | None => (Raised AttributeError, st)
        | Some mac_ =>
            (Ok tt,
             set_devices
               (dict_update mesh_id (set_rssi (Some (scan_rank found mac_)))
                  (devices st)) st)
        end
    end.

Fixpoint for_each {A} (body : A -> M unit) (l : list A) : M unit :=
  match l with
  | [] => ret tt
  | x :: l' => let* _ := body x in for_each body l'
  end.

Definition has_rssi (item : Z * DeviceInfo) : bool := negb (is_none (rssi item.2)).

Definition rssi_key (item : Z * DeviceInfo) : Z := default 0 (rssi item.2).

(** [dict(items)]. *)
Definition dict_of_items (items : list (Z * DeviceInfo)) : list (Z * DeviceInfo) :=
  fold_left (fun d item => dict_set item.1 item.2 d) items [].

(** [dict(sorted(self._devices.items(), key=lambda t: t[1]['rssi'],
    reverse=True))]; a value without the key raises [KeyError]. *)
Definition sort_devices : M unit :=
  fun st =>
    if forallb has_rssi (devices st)
    then (Ok tt, set_devices (dict_of_items (sorted_reverse rssi_key (devices st))) st)
    else (Raised KeyError, st).

Definition _async_get_devices_rssi : M unit :=
  fun st =>
    match find_devices w (trace st) with
    | Raised e => (Raised e, st)
    | Ok found =>
        (let* _ := for_each (assign_rssi found) (dict_keys (devices st)) in
         let* _ := modify (fun s =>
                     set_state (set_last_rssi_check (Some (now s)) (state s)) s) in
         let* _ := modify _async_update_mesh_state in
         sort_devices) st
    end.

(** *** Health check *)

Definition is_before (t : option Z) (limit : Z) : bool :=
  match t with
  | Some t' => t' <? limit
  | None => false
  end.

(** The forced disconnect of a connection older than two hours, under
    its bound of 10 seconds: when the bound ends the wait for the link,
    the reference is already cleared and the mesh state is not updated. *)
Definition force_disconnect : M unit :=
  fun st =>
    match connected_bluetooth_device st with
    | None => (Ok tt, st)
    | Some device =>
        if timeout_expires w 10 st
        then (Raised TimeoutError,
              log (EvLinkDisconnect device None)
                (set_connected_bluetooth_device None st))
        else _disconnect_current_device st
    end.

Definition request_status (dest : Z) (allow_to_fail_ : bool) : M unit :=
  with_timeout 20
    (_async_add_command_to_queue "requestStatus"
       (Keywords [("dest"%string, dest); ("withResponse"%string, 1)]) allow_to_fail_).

(** First half of the loop body: the targeted status request. *)
Definition request_if_silent (mesh_id : Z) : M unit :=
  fun st =>
    match dict_get mesh_id (devices st) with
    | None => (Raised KeyError, st)
    | Some device_info =>
        if (is_none (last_update device_info)
            || is_before (last_update device_info) (now st - 60000))%bool
        then (let* _ := request_status mesh_id true in sleep 500) st
        else (Ok tt, st)
    end.

(** Second half of the loop body: the staleness verdict. *)
Definition disable_if_stale (mesh_id : Z) : M unit :=
  fun st =>
    match dict_get mesh_id (devices st) with
    | None => (Raised KeyError, st)
    | Some device_info =>
        if is_before (last_update device_info) (now st - 90000)
        then
          let st1 := log (EvSubscriber (callback device_info) state_none) st in
          (Ok tt,
           set_devices (dict_update mesh_id (set_last_update None) (devices st1)) st1)
        else (Ok tt, st)
    end.

Definition check_device (mesh_id : Z) : M unit :=
  let* _ := request_if_silent mesh_id in
  disable_if_stale mesh_id.

(** Steps of [_async_update_data] up to and including the broadcast
    status request. *)
Definition update_prefix : M unit :=
  let* alive := gets command_tread_alive in
  if negb alive then raise (UpdateFailed "Command tread died!")
  else
    let* stale_connection := gets (fun st =>
      is_before (last_connection (state st)) (now st - 7200000)) in
    let* _ := (if stale_connection then force_disconnect else ret tt) in
    let* never_scanned := gets (fun st => is_none (last_rssi_check (state st))) in
    let* _ := (if never_scanned
               then try_except _async_get_devices_rssi (fun _ => ret tt)
               else ret tt) in
    request_status 65535 false.

(** The rest of [_async_update_data]. *)
Definition update_suffix : M MeshState :=
  let* connected := gets is_connected in
  if negb connected
  then
    let* success := gets last_update_success in
    let* _ := (if negb success
               then modify update_status_of_all_devices_to_disabled
               else ret tt) in
    raise (UpdateFailed "No device connected")
  else
    let* _ := sleep 500 in
    let* ids := gets (fun st => dict_keys (devices st)) in
    let* _ := for_each check_device ids in
    gets state.

Definition _async_update_data : M MeshState :=
  let* _ := update_prefix in
  update_suffix.
End Engine.

(** * Vocabulary of the properties *)

(** ** Worlds and events of the further properties *)

(** A world around the link of [w] in which the command thread runs
    whenever a caller is suspended: the thread, idle in [queue.get()]
    until then, serves what is queued; a thread that has ended serves
    nothing.  A sleep lets the clock advance by its duration; no bound
    expires. *)
Definition worker_runs (w : World) (st : AwoxMesh) : AwoxMesh :=
  if command_tread_alive st then worker_at_get w (queue st) st else st.

Definition threaded (w : World) : World :=
  {| link_connect := link_connect w;
     link_disconnect := link_disconnect w;
     link_dispatch := link_dispatch w;
     find_devices := find_devices w;
     concurrent := fun s st =>
       match s with
       | AwaitCommand _ => worker_runs w st
       | Sleep ms => set_now (now (worker_runs w st) + ms) (worker_runs w st)
       end;
     timeout_expires := fun _ _ => false |}.

Definition is_connect (e : Event) : bool :=
  match e with EvLinkConnect _ => true | _ => false end.

Definition is_candidate_disconnect (e : Event) : bool :=
  match e with EvCandidateDisconnect _ => true | _ => false end.

Definition is_subscriber (e : Event) : bool :=
  match e with EvSubscriber _ _ => true | _ => false end.

(** ** Reading the ghost trace *)

Definition is_call_command (e : Event) : bool :=
  match e with EvCallCommand _ => true | _ => false end.

Definition is_dispatch (e : Event) : bool :=
  match e with EvDispatch _ _ => true | _ => false end.

Definition is_owned_disconnect (e : Event) : bool :=
  match e with EvLinkDisconnect _ _ => true | _ => false end.

Definition is_retry (e : Event) : bool :=
  match e with EvRetry _ => true | _ => false end.

Fixpoint count_events (p : Event -> bool) (evs : list Event) : nat :=
  match evs with
  | [] => 0%nat
  | e :: evs' => ((if p e then 1 else 0) + count_events p evs')%nat
  end.

(** The completion callbacks that fired, in order. *)
Fixpoint executed (evs : list Event) : list nat :=
  match evs with
  | [] => []
  | EvCommandExecuted cb :: evs' => cb :: executed evs'
  | _ :: evs' => executed evs'
  end.

(** The events a step added to the trace. *)
Definition added (st st' : AwoxMesh) : list Event :=
  drop (length (trace st)) (trace st').

(** Appends a run of events to the ghost trace. *)
Definition logs (evs : list Event) (st : AwoxMesh) : AwoxMesh :=
  fold_left (fun s e => log e s) evs st.

(** Events of the connection phase. *)
Definition connect_event (e : Event) : bool :=
  match e with
  | EvLinkConnect _ | EvCandidateDisconnect _ | EvListeners => true
  | _ => false
  end.

(** Events a call of [_call_command] may add. *)
Definition call_event (e : Event) : bool :=
  match e with
  | EvLinkConnect _ | EvCandidateDisconnect _ | EvListeners
  | EvCallCommand _ | EvDispatch _ _ | EvLinkDisconnect _ _ => true
  | _ => false
  end.

(** Events the attempts on one command may add. *)
Definition attempt_event (e : Event) : bool :=
  match e with
  | EvCommandExecuted _ | EvTaskDone | EvSubscriber _ _ => false
  | _ => true
  end.

(** [step P st st']: the registry, the queue and the flags are the same in
    [st'] as in [st], and the trace grew by events that satisfy [P]. *)
Definition step (P : Event -> bool) (st st' : AwoxMesh) : Prop :=
  devices st' = devices st
  /\ queue st' = queue st
  /\ shutdown st' = shutdown st
  /\ command_tread_alive st' = command_tread_alive st
  /\ last_update_success st' = last_update_success st
  /\ issued st' = issued st
  /\ now st' = now st
  /\ exists evs, trace st' = trace st ++ evs /\ forallb P evs = true.

(** ** Outcomes of the connection manager and of the worker *)

(** The links [_async_connect_device] builds, in candidate order. *)
Fixpoint candidates (items : list (Z * DeviceInfo)) : list Link :=
  match items with
  | [] => []
  | (mesh_id, device_info) :: rest =>
      match mac device_info with
      | Some mac_ => new_link mac_ mesh_id :: candidates rest
      | None => candidates rest
      end
  end.

(** The calls of a failed attempt on one candidate. *)
Definition attempt_events (device : Link) : list Event :=
  [EvLinkConnect device; EvCandidateDisconnect device].

(** The state after a dispatch on [device] failed in [st1]: the dispatch,
    then the disconnect [_call_command] forces. *)
Definition forced_disconnect (device : Link) (cmd : Command) (st1 : AwoxMesh) : AwoxMesh :=
  _async_update_mesh_state
    (log (EvLinkDisconnect device None)
       (set_connected_bluetooth_device None (log (EvDispatch device cmd) st1))).

(** The ways a call of [_call_command] ends, told from the state [st1]
    in which its connection phase ended. *)
Inductive call_outcome (w : World) (cmd : Command) (st : AwoxMesh) :
    Res bool -> AwoxMesh -> Prop :=
| call_connect_raised e st1 :
    _async_connect_device w (log (EvCallCommand cmd) st) = (Raised e, st1) ->
    call_outcome w cmd st (Raised e) st1
| call_not_connected st1 :
    _async_connect_device w (log (EvCallCommand cmd) st) = (Ok tt, st1) ->
    is_connected st1 = false ->
    call_outcome w cmd st (Ok false) st1
| call_answered st1 device result :
    _async_connect_device w (log (EvCallCommand cmd) st) = (Ok tt, st1) ->
    connected_bluetooth_device st1 = Some device ->
    link_is_connected device = true ->
    link_dispatch w (trace st1) device cmd = DispatchReturns result ->
    (is_none result && negb (allow_to_fail cmd))%bool = false ->
    call_outcome w cmd st (Ok true) (log (EvDispatch device cmd) st1)
| call_failed st1 device :
    _async_connect_device w (log (EvCallCommand cmd) st) = (Ok tt, st1) ->
    connected_bluetooth_device st1 = Some device ->
    link_is_connected device = true ->
    match link_dispatch w (trace st1) device cmd with
    | DispatchRaises _ => True
    | DispatchReturns result => result = None /\ allow_to_fail cmd = false
    end ->
    call_outcome w cmd st (Ok (allow_to_fail cmd))
      (_async_update_mesh_state
         (log (EvLinkDisconnect device None)
            (set_connected_bluetooth_device None (log (EvDispatch device cmd) st1)))).

(** The state in which the worker leaves the attempts on a command: after
    the retry loop, or after the disconnect of the [except] clause. *)
Definition after_attempts (w : World) (cmd : Command) (st : AwoxMesh) : AwoxMesh :=
  match retry_loop w 4 0 cmd st with
  | (Ok _, st1) => st1
  | (Raised _, st1) => (_disconnect_current_device w st1).2
  end.

(** ** Effects on the registry *)

(** The node has reported since it was registered or last marked. *)
Definition had_update (device_info : DeviceInfo) : bool :=
  negb (is_none (last_update device_info)).

(** What marking every known node unreachable does to one entry of the
    registry. *)
Definition disabled_entry (item : Z * DeviceInfo) : Z * DeviceInfo :=
  if had_update item.2 then (item.1, set_last_update None item.2) else item.

(** The subscriber calls that marking every known node unreachable
    makes over the registry. *)
Definition unknown_calls (items : list (Z * DeviceInfo)) : list Event :=
  flat_map
    (fun item =>
       if had_update item.2 then [EvSubscriber (callback item.2) state_none] else [])
    items.

(** The entry of a node once the scan assigned its rank. *)
Definition ranked_entry (found : gmap string (option Z)) (item : Z * DeviceInfo)
    : Z * DeviceInfo :=
  match mac item.2 with
  | Some mac_ => (item.1, set_rssi (Some (scan_rank found mac_)) item.2)
  | None => item
  end.

(** Descending order of the sort key. *)
Definition by_rank_desc (a b : Z * DeviceInfo) : Prop := rssi_key b <= rssi_key a.

(** ** Concrete meshes and collaborators used in the examples *)

Definition empty_mesh : AwoxMesh :=
  {| connected_bluetooth_device := None;
     state := {| last_rssi_check := None; last_connection := None;
                 connected_device := None |};
     devices := []; queue := []; shutdown := false;
     command_tread_alive := true; last_update_success := true;
     issued := 0%nat; now := 1000000; trace := [] |}.

Definition two_lights : AwoxMesh :=
  register_device 2 (Some "a4:c1:38:00:00:02"%string) "hall"%string 12%nat
    (register_device 1 (Some "a4:c1:38:00:00:01"%string) "desk"%string 11%nat empty_mesh).

Definition desk_link : Link :=
  {| link_mac := "a4:c1:38:00:00:01"; link_mesh_id := 1;
     link_is_connected := true; status_callback := true |}.

(** [two_lights] with the link to the desk light open. *)
Definition linked_mesh : AwoxMesh :=
  set_connected_bluetooth_device (Some desk_link)
    (set_state {| last_rssi_check := None; last_connection := Some 999000;
                  connected_device := Some "desk"%string |} two_lights).

(** [two_lights] after the command thread ended. *)
Definition dead_mesh : AwoxMesh :=
  {| connected_bluetooth_device := None; state := state two_lights;
     devices := devices two_lights; queue := []; shutdown := false;
     command_tread_alive := false; last_update_success := true;
     issued := 0%nat; now := 1000000; trace := [] |}.

(** [two_lights] after a failed cycle: the desk light reported 100 s ago,
    the hall light never. *)
Definition stale_lights : AwoxMesh :=
  {| connected_bluetooth_device := None;
     state := {| last_rssi_check := Some 0; last_connection := None;
                 connected_device := None |};
     devices := dict_update 1 (set_last_update (Some 900000)) (devices two_lights);
     queue := []; shutdown := false; command_tread_alive := true;
     last_update_success := false; issued := 0%nat; now := 1000000; trace := [] |}.

(** [two_lights] connected, the desk light heard 91 s ago and the hall
    light 30 s ago. *)
Definition aging_lights : AwoxMesh :=
  set_devices
    (dict_update 2 (set_last_update (Some 970000))
       (dict_update 1 (set_last_update (Some 909000)) (devices two_lights)))
    linked_mesh.

Definition abc_mesh : AwoxMesh :=
  register_device 3 (Some "aa:00:00:00:00:0c"%string) "C"%string 3%nat
    (register_device 2 (Some "aa:00:00:00:00:0b"%string) "B"%string 2%nat
       (register_device 1 (Some "aa:00:00:00:00:0a"%string) "A"%string 1%nat
          empty_mesh)).

Definition abcd_mesh : AwoxMesh :=
  register_device 3 (Some "aa:00:00:00:00:0c"%string) "C"%string 3%nat
    (register_device 4 (Some "aa:00:00:00:00:0d"%string) "D"%string 4%nat
       (register_device 2 (Some "aa:00:00:00:00:0b"%string) "B"%string 2%nat
          (register_device 1 (Some "aa:00:00:00:00:0a"%string) "A"%string 1%nat
             empty_mesh))).

Definition cmd_on : Command :=
  {| command := "on"; params := Keywords [("dest"%string, 1)];
     cmd_callback := 0%nat; allow_to_fail := false |}.

Definition cmd_status : Command :=
  {| command := "requestStatus";
     params := Keywords [("dest"%string, 1); ("withResponse"%string, 1)];
     cmd_callback := 1%nat; allow_to_fail := true |}.

Definition cmd_off : Command :=
  {| command := "off"; params := Keywords [("dest"%string, 2)];
     cmd_callback := 2%nat; allow_to_fail := false |}.

(** [two_lights] with three commands waiting. *)
Definition busy_mesh : AwoxMesh := set_queue [cmd_on; cmd_status; cmd_off] two_lights.

(** A world in which nothing else runs and no bound expires, around a
    link that behaves as given. *)
Definition still_world
    (connects : list Event -> Link -> ConnectOutcome)
    (dispatches : list Event -> Link -> Command -> DispatchOutcome) : World :=
  {| link_connect := connects;
     link_disconnect := fun _ _ => None;
     link_dispatch := dispatches;
     find_devices := fun _ => Ok ∅;
     concurrent := fun _ st => st;
     timeout_expires := fun _ _ => false |}.

Definition always_connects : list Event -> Link -> ConnectOutcome :=
  fun _ _ => ConnectReturns true.

Definition never_connects : list Event -> Link -> ConnectOutcome :=
  fun _ _ => ConnectReturns false.

Definition always_answers : list Event -> Link -> Command -> DispatchOutcome :=
  fun _ _ _ => DispatchReturns (Some 1).

Definition always_raises : list Event -> Link -> Command -> DispatchOutcome :=
  fun _ _ _ => DispatchRaises TimeoutError.

(** Two timeouts, then an answer. *)
Definition answers_third : list Event -> Link -> Command -> DispatchOutcome :=
  fun tr _ _ =>
    if (count_events is_dispatch tr <? 2)%nat then DispatchRaises TimeoutError
    else DispatchReturns (Some 1).

(** The worlds of the examples: a link that connects and answers; one that
    answers the third dispatch only; one that connects and never answers;
    one that cannot be reached. *)
Definition calm_world : World := still_world always_connects always_answers.
Definition flaky_world : World := still_world always_connects answers_third.
Definition deaf_world : World := still_world always_connects always_raises.
Definition unreachable_world : World := still_world never_connects always_answers.

(** A world in which no light connects and letting go of a candidate
    raises. *)
Definition snagging_world : World :=
  {| link_connect := never_connects;
     link_disconnect := fun _ _ => Some LinkError;
     link_dispatch := always_answers;
     find_devices := fun _ => Ok ∅;
     concurrent := fun _ st => st;
     timeout_expires := fun _ _ => false |}.

(** A world in which the desk light answers every targeted status request
    within 200 ms, and time passes while the health check sleeps. *)
Definition answering_world : World :=
  {| link_connect := always_connects;
     link_disconnect := fun _ _ => None;
     link_dispatch := always_answers;
     find_devices := fun _ => Ok ∅;
     concurrent := fun s st =>
       match s with
       | AwaitCommand cmd =>
           if allow_to_fail cmd
           then mesh_status_callback
                  {| status_mesh_id := Some 1; status_state := Some 1 |}
                  (set_now (now st + 200) st)
           else set_now (now st + 200) st
       | Sleep ms => set_now (now st + ms) st
       end;
     timeout_expires := fun _ _ => false |}.

(** The scan of the example: light A is seen at -50 dBm, light C at
    -70 dBm, light B is not seen; light D is seen without a reading. *)
Definition abc_scan : gmap string (option Z) :=
  <["AA:00:00:00:00:0A"%string := Some (-50)]>
    (<["AA:00:00:00:00:0C"%string := Some (-70)]>
       (<["AA:00:00:00:00:0D"%string := None]> ∅)).

Definition abc_world : World :=
  {| link_connect := never_connects;
     link_disconnect := fun _ _ => None;
     link_dispatch := always_answers;
     find_devices := fun _ => Ok abc_scan;
     concurrent := fun _ st => st;
     timeout_expires := fun _ _ => false |}.

(** [busy_mesh] with its three commands counted as issued. *)
Definition waiting_mesh : AwoxMesh := set_issued 3 busy_mesh.

(** A link that accepts every connection and answers every command. *)
Definition healthy (w : World) : Prop :=
  (forall tr l, link_connect w tr l = ConnectReturns true)
  /\ (forall tr l cmd, exists value,
        link_dispatch w tr l cmd = DispatchReturns (Some value)).

(** An entry of the registry with its signal reading left out. *)
Definition without_rssi (item : Z * DeviceInfo) : Z * DeviceInfo :=
  (item.1, set_rssi None item.2).

(** [two_lights] with a third node registered without an address. *)
Definition lights_and_ghost : AwoxMesh :=
  register_device 3 None "ghost" 13 two_lights.

(** The two lights some hours later, after a first scan, with the link
    to the desk light open since the time [since]. *)
Definition scanned_mesh (since : Z) : AwoxMesh :=
  {| connected_bluetooth_device := Some desk_link;
     state := {| last_rssi_check := Some 0; last_connection := Some since;
                 connected_device := Some "desk"%string |};
     devices := devices two_lights; queue := []; shutdown := false;
     command_tread_alive := true; last_update_success := true;
     issued := 0%nat; now := 10000000; trace := [] |}.

(** The command that [_async_update_data] queues to ask for status,
    with the number of its completion callback. *)
Definition status_request (dest : Z) (allow_to_fail_ : bool) (n : nat) : Command :=
  {| command := "requestStatus";
     params := Keywords [("dest"%string, dest); ("withResponse"%string, 1)];
     cmd_callback := n; allow_to_fail := allow_to_fail_ |}.

(** Every node has reported within the last minute. *)
Definition all_fresh (st : AwoxMesh) : bool :=
  forallb (fun item => negb (is_none (last_update item.2)
                             || is_before (last_update item.2) (now st - 60000)))
    (devices st).

(** [scanned_mesh] with both lights heard a few seconds ago. *)
Definition lively_mesh : AwoxMesh :=
  set_devices
    (dict_update 2 (set_last_update (Some 9995000))
       (dict_update 1 (set_last_update (Some 9990000)) (devices two_lights)))
    (scanned_mesh 9000000).

(** Every link accepts and answers; the scanner finds the lights as in
    [abc_scan]. *)
Definition abc_calm_world : World :=
  {| link_connect := always_connects;
     link_disconnect := fun _ _ => None;
     link_dispatch := always_answers;
     find_devices := fun _ => Ok abc_scan;
     concurrent := fun _ st => st;
     timeout_expires := fun _ _ => false |}.

(** Lights B, C and A, registered in this order and never scanned. *)
Definition bca_mesh : AwoxMesh :=
  register_device 1 (Some "aa:00:00:00:00:0a"%string) "A"%string 1%nat
    (register_device 3 (Some "aa:00:00:00:00:0c"%string) "C"%string 3%nat
       (register_device 2 (Some "aa:00:00:00:00:0b"%string) "B"%string 2%nat
          empty_mesh)).

(** [two_lights] still holding the link to the desk light after that
    link dropped: the reference is there, [is_connected] is false. *)
Definition dropped_link : Link :=
  {| link_mac := "a4:c1:38:00:00:01"; link_mesh_id := 1;
     link_is_connected := false; status_callback := false |}.

Definition dropped_mesh : AwoxMesh :=
  set_connected_bluetooth_device (Some dropped_link) two_lights.

(** A scan that sees light C at -40 dBm and light A at -50 dBm. *)
Definition cab_world : World :=
  {| link_connect := never_connects;
     link_disconnect := fun _ _ => None;
     link_dispatch := always_answers;
     find_devices := fun _ =>
       Ok (<["AA:00:00:00:00:0C"%string := Some (-40)]>
             (<["AA:00:00:00:00:0A"%string := Some (-50)]> ∅));
     concurrent := fun _ st => st;
     timeout_expires := fun _ _ => false |}.

#[global] Instance Params_eq_dec : EqDecision Params.
Proof. solve_decision. Defined.

#[global] Instance Command_eq_dec : EqDecision Command.
Proof. solve_decision. Defined.

(** Events the attempts on the command [cmd] may add: calls and
    dispatches of [cmd] only, and what the calls do on the links. *)
Definition turn_event (cmd : Command) (e : Event) : bool :=
  match e with
  | EvCallCommand c | EvDispatch _ c => bool_decide (c = cmd)
  | EvCommandExecuted _ | EvTaskDone | EvSubscriber _ _ => false
  | _ => true
  end.

(** The trace of one turn of the worker for [cmd]: at least one and at
    most four calls of [_call_command], all of them for [cmd], with what
    they do on the links, then the completion callback of [cmd] and
    [task_done]. *)
Definition turn_of (cmd : Command) (evs : list Event) : Prop :=
  exists attempts,
    evs = attempts ++ [EvCommandExecuted (cmd_callback cmd); EvTaskDone]
    /\ forallb (turn_event cmd) attempts = true
    /\ (1 <= count_events is_call_command attempts <= 4)%nat.

(** ** The wait of a caller, spelled out *)

(** The flag [done] of [_async_add_command_to_queue]: the closure
    [command_executed] of the call, numbered [n], has been called since
    the command was queued, when the trace had [base] events. *)
Definition done_flag (n base : nat) (st : AwoxMesh) : bool :=
  existsb (Nat.eqb n) (executed (drop base (trace st))).

(** [while not done: await asyncio.sleep(.01)]: each round of the loop
    is a sleep of 10 ms, during which the other threads run.  The
    result is [None] when [rounds] rounds have not seen the flag set. *)
Fixpoint wait_until_done (w : World) (rounds : nat) (n base : nat) (st : AwoxMesh)
    : option AwoxMesh :=
  if done_flag n base st then Some st
  else
    match rounds with
    | O => None
    | S rounds' => wait_until_done w rounds' n base (concurrent w (Sleep 10) st)
    end.

(** [_async_add_command_to_queue] with its wait spelled out as this
    loop, where the definition above has the one suspension
    [AwaitCommand]. *)
Definition enqueue_and_wait (w : World) (rounds : nat) (command_ : string)
    (params_ : Params) (allow_to_fail_ : bool) (st : AwoxMesh)
    : option (Res unit * AwoxMesh) :=
  if negb (command_tread_alive st)
  then Some (Raised (UpdateFailed "Command tread died!"), st)
  else
    let cmd := {| command := command_; params := params_;
                  cmd_callback := issued st; allow_to_fail := allow_to_fail_ |} in
    let st1 := set_queue (queue st ++ [cmd]) (set_issued (S (issued st)) st) in
    match wait_until_done w rounds (issued st) (length (trace st)) st1 with
    | Some st2 => Some (Ok tt, st2)
    | None => None
    end.

(** No other thread calls a completion callback. *)
Definition no_callbacks (w : World) : Prop :=
  forall s st, exists evs,
    trace (concurrent w s st) = trace st ++ evs /\ executed evs = [].

(** * Properties *)

(** ** Dictionaries *)

Section DictFacts.
Context {V : Type}.
Implicit Types (d : list (Z * V)) (k : Z) (v : V).

Lemma dict_get_set_eq k v d : dict_get k (dict_set k v d) = Some v.
Proof.
  induction d as [|[k' v'] d IH]; simpl.
  - case_decide; congruence.
  - destruct (decide (k' = k)) as [->|Hne]; simpl.
    + case_decide; congruence.
    + case_decide; [congruence | exact IH].
Qed.

Lemma dict_get_set_ne k k' v d :
  k <> k' -> dict_get k' (dict_set k v d) = dict_get k' d.
Proof.
  intros Hne. induction d as [|[k0 v0] d IH]; simpl.
  - case_decide; congruence.
  - destruct (decide (k0 = k)) as [->|Hk]; simpl.
    + repeat case_decide; congruence.
    + case_decide; [reflexivity | exact IH].
Qed.

Lemma dict_keys_set_present k v d :
  is_Some (dict_get k d) -> dict_keys (dict_set k v d) = dict_keys d.
Proof.
  induction d as [|[k' v'] d IH]; simpl.
  - intros [x Hx]. discriminate.
  - destruct (decide (k' = k)) as [->|Hk]; simpl; intros Hs.
    + reflexivity.
    + f_equal. exact (IH Hs).
Qed.

Lemma dict_set_fresh k v d :
  k ∉ dict_keys d -> dict_set k v d = d ++ [(k, v)].
Proof.
  induction d as [|[k' v'] d IH]; simpl; intros Hk.
  - reflexivity.
  - apply not_elem_of_cons in Hk as [Hne Hk].
    case_decide; [congruence|]. f_equal. exact (IH Hk).
Qed.

Lemma dict_get_update_eq k f d :
  dict_get k (dict_update k f d) = f <$> dict_get k d.
Proof.
  induction d as [|[k' v'] d IH]; simpl.
  - reflexivity.
  - destruct (decide (k' = k)) as [->|Hk]; simpl.
    + case_decide; congruence.
    + case_decide; [congruence | exact IH].
Qed.

Lemma dict_get_update_ne k k' f d :
  k <> k' -> dict_get k' (dict_update k f d) = dict_get k' d.
Proof.
  intros Hne. induction d as [|[k0 v0] d IH]; simpl.
  - reflexivity.
  - destruct (decide (k0 = k)) as [->|Hk]; simpl.
    + repeat case_decide; congruence.
    + case_decide; [reflexivity | exact IH].
Qed.

Lemma dict_keys_update k f d : dict_keys (dict_update k f d) = dict_keys d.
Proof.
  induction d as [|[k' v'] d IH]; simpl.
  - reflexivity.
  - case_decide; simpl; [reflexivity | f_equal; exact IH].
Qed.

Lemma dict_update_fresh k f d : k ∉ dict_keys d -> dict_update k f d = d.
Proof.
  induction d as [|[k' v'] d IH]; simpl; intros Hk.
  - reflexivity.
  - apply not_elem_of_cons in Hk as [Hne Hk].
    case_decide; [congruence|]. f_equal. exact (IH Hk).
Qed.

Lemma dict_get_fresh k d : k ∉ dict_keys d -> dict_get k d = None.
Proof.
  induction d as [|[k' v'] d IH]; simpl; intros Hk.
  - reflexivity.
  - apply not_elem_of_cons in Hk as [Hne Hk].
    case_decide; [congruence | exact (IH Hk)].
Qed.

Lemma dict_get_elem_of k v d : dict_get k d = Some v -> (k, v) ∈ d.
Proof.
  induction d as [|[k' v'] d IH]; simpl; intros Hg.
  - discriminate.
  - case_decide.
    + injection Hg as ->. subst. apply elem_of_cons. now left.
    + apply elem_of_cons. right. exact (IH Hg).
Qed.

Lemma elem_of_dict_get k v d :
  NoDup (dict_keys d) -> (k, v) ∈ d -> dict_get k d = Some v.
Proof.
  induction d as [|[k' v'] d IH]; simpl; intros Hnd Hin.
  - apply elem_of_nil in Hin. contradiction.
  - apply NoDup_cons in Hnd as [Hk' Hnd].
    apply elem_of_cons in Hin as [Heq|Hin].
    + injection Heq as -> ->. case_decide; congruence.
    + case_decide as Hk.
      * subst k'. exfalso. apply Hk'.
        apply (list_elem_of_fmap_2 fst) in Hin. exact Hin.
      * exact (IH Hnd Hin).
Qed.
End DictFacts.

(** ** Registration *)

(** C10: registering a node id that is already present overwrites its entry
    (address, name and callback replaced, [last_update] back to [None])
    without raising; every other entry, the order of the registry and the
    rest of the object stay as they were. *)
Theorem register_device_overwrites (mesh_id : Z) (mac_ : option string)
    (name_ : string) (callback_func : nat) (st : AwoxMesh) (old : DeviceInfo) :
  dict_get mesh_id (devices st) = Some old ->
  let st' := register_device mesh_id mac_ name_ callback_func st in
  dict_get mesh_id (devices st')
    = Some {| mac := mac_; name := name_; callback := callback_func;
              last_update := None; rssi := None |}
  /\ (forall other, other <> mesh_id ->
        dict_get other (devices st') = dict_get other (devices st))
  /\ dict_keys (devices st') = dict_keys (devices st)
  /\ st' = set_devices (devices st') st.
Proof.
  intros Hold st'. subst st'. unfold register_device. simpl.
  split; [apply dict_get_set_eq|].
  split; [intros other Hne; apply dict_get_set_ne; congruence|].
  split; [apply dict_keys_set_present; eauto | reflexivity].
Qed.

Lemma register_device_overwrites_witness :
  dict_get 1 (devices two_lights)
    = Some {| mac := Some "a4:c1:38:00:00:01"%string; name := "desk"%string;
              callback := 11%nat; last_update := None; rssi := None |}
  /\ dict_get 1 (devices (register_device 1 (Some "a4:c1:38:00:00:09"%string)
                            "attic"%string 19%nat two_lights))
     = Some {| mac := Some "a4:c1:38:00:00:09"%string; name := "attic"%string;
               callback := 19%nat; last_update := None; rssi := None |}.
Proof.
  split; [reflexivity|].
  apply (register_device_overwrites 1 (Some "a4:c1:38:00:00:09"%string)
           "attic"%string 19%nat two_lights
           {| mac := Some "a4:c1:38:00:00:01"%string; name := "desk"%string;
              callback := 11%nat; last_update := None; rssi := None |}).
  reflexivity.
Defined.

(** ** Traces *)

Lemma added_eq (st st' : AwoxMesh) (evs : list Event) :
  trace st' = trace st ++ evs -> added st st' = evs.
Proof. intros H. unfold added. rewrite H. apply drop_app_length. Qed.

Lemma added_refl (st : AwoxMesh) : added st st = [].
Proof. apply added_eq. now rewrite app_nil_r. Qed.

(** ** Disconnect and shutdown *)

Section DisconnectFacts.
Variable w : World.

(** Whatever the link answers, the outcome of a disconnect is the same. *)
Lemma disconnect_current_device_eq (st : AwoxMesh) :
  _disconnect_current_device w st
  = (Ok tt,
     match connected_bluetooth_device st with
     | None => st
     | Some device =>
         _async_update_mesh_state
           (log (EvLinkDisconnect device None)
              (set_connected_bluetooth_device None st))
     end).
Proof.
  unfold _disconnect_current_device.
  destruct (connected_bluetooth_device st) as [device|] eqn:Hdev; [|reflexivity].
  unfold bind, try_except, modify, owned_disconnect, ret. simpl.
  destruct (link_disconnect w (trace st) device); reflexivity.
Qed.

Lemma disconnect_current_device_none (st : AwoxMesh) :
  connected_bluetooth_device st = None ->
  _disconnect_current_device w st = (Ok tt, st).
Proof. intros H. rewrite disconnect_current_device_eq, H. reflexivity. Qed.

Lemma async_shutdown_eq (st : AwoxMesh) :
  async_shutdown w st
  = (Ok tt,
     match connected_bluetooth_device st with
     | None => set_shutdown true st
     | Some device =>
         _async_update_mesh_state
           (log (EvLinkDisconnect device None)
              (set_connected_bluetooth_device None (set_shutdown true st)))
     end).
Proof.
  unfold async_shutdown, bind, modify.
  rewrite disconnect_current_device_eq. simpl.
  destruct (connected_bluetooth_device st); reflexivity.
Qed.
End DisconnectFacts.

(** C8: a disconnect never raises; when a link is owned, the reference is
    already cleared when the link's [disconnect] is called, and afterwards
    no link is owned and the snapshot names no connected device.  A second
    shutdown returns normally and changes nothing: no further call reaches
    a link. *)
Theorem disconnect_clears_first_and_shutdown_idempotent
    (w : World) (st : AwoxMesh) (device : Link) :
  connected_bluetooth_device st = Some device ->
  (forall st0, (_disconnect_current_device w st0).1 = Ok tt)
  /\ (let st1 := (_disconnect_current_device w st).2 in
      added st st1 = [EvLinkDisconnect device None; EvListeners]
      /\ connected_bluetooth_device st1 = None
      /\ is_connected st1 = false
      /\ connected_device (state st1) = None)
  /\ (forall st0,
        let st1 := (async_shutdown w st0).2 in
        (async_shutdown w st0).1 = Ok tt
        /\ connected_bluetooth_device st1 = None
        /\ async_shutdown w st1 = (Ok tt, st1)).
Proof.
  intros Hdev. split; [|split].
  - intros st0. rewrite disconnect_current_device_eq. reflexivity.
  - rewrite disconnect_current_device_eq, Hdev. simpl.
    split; [|auto]. apply added_eq. simpl. now rewrite <- app_assoc.
  - intros st0. rewrite async_shutdown_eq. simpl.
    destruct (connected_bluetooth_device st0) as [d0|] eqn:H0.
    + split; [reflexivity|]. split; [reflexivity|].
      rewrite async_shutdown_eq. simpl. f_equal.
    + split; [reflexivity|]. split; [exact H0|].
      rewrite async_shutdown_eq. simpl. rewrite H0.
      f_equal.
Qed.

Lemma disconnect_clears_first_witness :
  connected_bluetooth_device linked_mesh = Some desk_link
  /\ added linked_mesh (_disconnect_current_device calm_world linked_mesh).2
     = [EvLinkDisconnect desk_link None; EvListeners].
Proof.
  split; [reflexivity|].
  destruct (disconnect_clears_first_and_shutdown_idempotent
              calm_world linked_mesh desk_link eq_refl) as (_ & (H & _) & _).
  exact H.
Defined.

(** ** What the worker's steps leave alone *)

Lemma step_refl P st : step P st st.
Proof.
  unfold step. repeat (split; [reflexivity|]).
  exists []. split; [now rewrite app_nil_r | reflexivity].
Qed.

Lemma step_trans P st1 st2 st3 : step P st1 st2 -> step P st2 st3 -> step P st1 st3.
Proof.
  intros (D1 & Q1 & S1 & A1 & L1 & I1 & N1 & evs1 & T1 & F1)
         (D2 & Q2 & S2 & A2 & L2 & I2 & N2 & evs2 & T2 & F2).
  unfold step. repeat (split; [congruence|]).
  exists (evs1 ++ evs2). split.
  - rewrite T2, T1. now rewrite app_assoc.
  - rewrite forallb_app, F1, F2. reflexivity.
Qed.

Lemma step_weaken (P Q : Event -> bool) st st' :
  (forall e, P e = true -> Q e = true) -> step P st st' -> step Q st st'.
Proof.
  intros HPQ (D & Qu & S & A & L & I & N & evs & T & F).
  unfold step. repeat (split; [assumption|]).
  exists evs. split; [assumption|].
  apply forallb_forall. intros e He.
  apply HPQ. rewrite forallb_forall in F. now apply F.
Qed.

Lemma step_log P e st : P e = true -> step P st (log e st).
Proof.
  intros He. unfold step. simpl. repeat (split; [reflexivity|]).
  exists [e]. split; [reflexivity|]. simpl. now rewrite He.
Qed.

Lemma step_set_link P v st : step P st (set_connected_bluetooth_device v st).
Proof.
  unfold step. simpl. repeat (split; [reflexivity|]).
  exists []. split; [now rewrite app_nil_r | reflexivity].
Qed.

Lemma step_set_state P v st : step P st (set_state v st).
Proof.
  unfold step. simpl. repeat (split; [reflexivity|]).
  exists []. split; [now rewrite app_nil_r | reflexivity].
Qed.

Lemma step_update_mesh_state P st :
  P EvListeners = true -> step P st (_async_update_mesh_state st).
Proof.
  intros HP. unfold _async_update_mesh_state.
  destruct (negb (is_connected st)).
  - eapply step_trans; [apply step_set_state | now apply step_log].
  - now apply step_log.
Qed.

Lemma step_added P st st' :
  step P st st' -> trace st' = trace st ++ added st st' /\ forallb P (added st st') = true.
Proof.
  intros (_ & _ & _ & _ & _ & _ & _ & evs & T & F).
  rewrite (added_eq _ _ _ T). auto.
Qed.

(** ** The connection phase *)

Section ConnectFacts.
Variable w : World.

Lemma adopt_step device device_info st :
  step connect_event st (adopt device device_info st).
Proof.
  unfold adopt.
  eapply step_trans; [apply step_set_link|].
  eapply step_trans; [apply step_set_state|].
  eapply step_trans; [apply step_set_state|].
  now apply step_update_mesh_state.
Qed.

Lemma connect_step device st :
  step connect_event st (connect w device st).2.
Proof.
  unfold connect. destruct (link_connect w (trace st) device); simpl;
    now apply step_log.
Qed.

Lemma candidate_disconnect_step device st :
  step connect_event st (candidate_disconnect w device st).2.
Proof.
  unfold candidate_disconnect. destruct (link_disconnect w (trace st) device); simpl;
    now apply step_log.
Qed.

Lemma connect_candidates_step items st :
  step connect_event st (connect_candidates w items st).2.
Proof.
  revert st. induction items as [|[mesh_id device_info] rest IH]; intros st; simpl.
  - apply step_refl.
  - destruct (mac device_info) as [mac_|]; [|apply IH].
    unfold bind, try_except.
    pose proof (connect_step (new_link mac_ mesh_id) st) as Hc.
    destruct (connect w (new_link mac_ mesh_id) st) as [[[|]|e] st1] eqn:E;
      simpl in Hc; simpl.
    + eapply step_trans; [exact Hc | apply adopt_step].
    + pose proof (candidate_disconnect_step (new_link mac_ mesh_id) st1) as Hd.
      destruct (candidate_disconnect w (new_link mac_ mesh_id) st1) as [[[]|e] st2];
        simpl in Hd.
      * eapply step_trans; [exact Hc|]. eapply step_trans; [exact Hd | apply IH].
      * simpl. eapply step_trans; [exact Hc | exact Hd].
    + pose proof (candidate_disconnect_step (new_link mac_ mesh_id) st1) as Hd.
      destruct (candidate_disconnect w (new_link mac_ mesh_id) st1) as [[[]|e'] st2];
        simpl in Hd.
      * eapply step_trans; [exact Hc|]. eapply step_trans; [exact Hd | apply IH].
      * simpl. eapply step_trans; [exact Hc | exact Hd].
Qed.

Lemma wire_status_callback_step st : step connect_event st (wire_status_callback st).
Proof.
  unfold wire_status_callback.
  destruct (connected_bluetooth_device st); [apply step_set_link | apply step_refl].
Qed.

Lemma async_connect_device_step st :
  step connect_event st (_async_connect_device w st).2.
Proof.
  unfold _async_connect_device.
  destruct (is_connected st); [apply step_refl|].
  unfold bind, modify.
  pose proof (connect_candidates_step (devices st) st) as Hc.
  destruct (connect_candidates w (devices st) st) as [[[]|e] st1]; simpl in *.
  - eapply step_trans; [exact Hc | apply wire_status_callback_step].
  - exact Hc.
Qed.

Lemma disconnect_current_device_step st :
  step call_event st (_disconnect_current_device w st).2.
Proof.
  rewrite disconnect_current_device_eq. simpl.
  destruct (connected_bluetooth_device st) as [device|]; [|apply step_refl].
  eapply step_trans; [apply step_set_link|].
  eapply step_trans;
    [apply (step_log _ (EvLinkDisconnect device None)); reflexivity|].
  now apply step_update_mesh_state.
Qed.
End ConnectFacts.

(** ** One call of [_call_command] *)

Section CallFacts.
Variable w : World.

Lemma call_command_outcome cmd st :
  call_outcome w cmd st (_call_command w cmd st).1 (_call_command w cmd st).2.
Proof.
  unfold _call_command, bind, modify, gets, try_except, ret. simpl.
  destruct (_async_connect_device w (log (EvCallCommand cmd) st))
    as [[[]|e] st1] eqn:E; simpl; [|now apply call_connect_raised].
  destruct (is_connected st1) eqn:Hc; simpl; [|now apply call_not_connected].
  unfold is_connected in Hc.
  destruct (connected_bluetooth_device st1) as [device|] eqn:Hdev; [|discriminate].
  assert (Hd : (match params cmd with
                | Positional _ => dispatch w cmd
                | Keywords _ => dispatch w cmd
                end) = dispatch w cmd) by (destruct (params cmd); reflexivity).
  rewrite Hd. unfold dispatch. rewrite Hdev.
  destruct (link_dispatch w (trace st1) device cmd) as [result|e] eqn:Hl; simpl.
  - destruct (is_none result && negb (allow_to_fail cmd))%bool eqn:Hf; simpl.
    + rewrite disconnect_current_device_eq. simpl. rewrite Hdev.
      apply andb_true_iff in Hf as [Hr Ha].
      apply negb_true_iff in Ha. rewrite Ha. simpl.
      replace (Ok false) with (Ok (A:=bool) (allow_to_fail cmd)) by now rewrite Ha.
      eapply call_failed; eauto. rewrite Hl.
      destruct result; [discriminate | auto].
    + eapply call_answered; eauto.
  - rewrite ?andb_false_r. simpl.
    rewrite disconnect_current_device_eq. simpl. rewrite Hdev.
    destruct (allow_to_fail cmd) eqn:Ha; simpl.
    + replace (Ok true) with (Ok (A:=bool) (allow_to_fail cmd)) by now rewrite Ha.
      eapply call_failed; eauto. now rewrite Hl.
    + replace (Ok false) with (Ok (A:=bool) (allow_to_fail cmd)) by now rewrite Ha.
      eapply call_failed; eauto. now rewrite Hl.
Qed.
End CallFacts.

(** ** Counting events *)

Lemma count_events_app p evs1 evs2 :
  count_events p (evs1 ++ evs2) = (count_events p evs1 + count_events p evs2)%nat.
Proof. induction evs1 as [|e evs1 IH]; simpl; [reflexivity | rewrite IH; lia]. Qed.

Lemma executed_app evs1 evs2 : executed (evs1 ++ evs2) = executed evs1 ++ executed evs2.
Proof.
  induction evs1 as [|e evs1 IH]; simpl; [reflexivity|].
  destruct e; simpl; rewrite ?IH; reflexivity.
Qed.

Lemma count_events_none (q p : Event -> bool) evs :
  (forall e, q e = true -> p e = false) ->
  forallb q evs = true -> count_events p evs = 0%nat.
Proof.
  intros Hqp. induction evs as [|e evs IH]; simpl; [reflexivity|].
  intros H. apply andb_true_iff in H as [He Hevs].
  rewrite (Hqp e He), (IH Hevs). reflexivity.
Qed.

Lemma executed_none evs : forallb attempt_event evs = true -> executed evs = [].
Proof.
  induction evs as [|e evs IH]; simpl; [reflexivity|].
  intros H. apply andb_true_iff in H as [He Hevs].
  destruct e; simpl in *; try discriminate; exact (IH Hevs).
Qed.

Lemma added_trans st1 st2 st3 evs1 evs2 :
  trace st2 = trace st1 ++ evs1 -> trace st3 = trace st2 ++ evs2 ->
  added st1 st3 = added st1 st2 ++ added st2 st3.
Proof.
  intros H1 H2.
  rewrite (added_eq _ _ _ H1), (added_eq _ _ _ H2).
  apply added_eq. rewrite H2, H1. now rewrite app_assoc.
Qed.

Lemma step_added_trans P Q st1 st2 st3 :
  step P st1 st2 -> step Q st2 st3 ->
  added st1 st3 = added st1 st2 ++ added st2 st3.
Proof.
  intros (_ & _ & _ & _ & _ & _ & _ & evs1 & T1 & _)
         (_ & _ & _ & _ & _ & _ & _ & evs2 & T2 & _).
  eapply added_trans; eauto.
Qed.

Lemma added_log e st : added st (log e st) = [e].
Proof. now apply added_eq. Qed.

Lemma logs_trace evs st : trace (logs evs st) = trace st ++ evs.
Proof.
  revert st. induction evs as [|e evs IH]; intros st; simpl.
  - now rewrite app_nil_r.
  - rewrite IH. simpl. now rewrite <- app_assoc.
Qed.

Lemma logs_app evs1 evs2 st : logs (evs1 ++ evs2) st = logs evs2 (logs evs1 st).
Proof. unfold logs. apply fold_left_app. Qed.

Lemma logs_link evs st :
  connected_bluetooth_device (logs evs st) = connected_bluetooth_device st.
Proof. revert st. induction evs as [|e evs IH]; intros st; simpl; [|rewrite IH]; reflexivity. Qed.

Lemma logs_devices evs st : devices (logs evs st) = devices st.
Proof. revert st. induction evs as [|e evs IH]; intros st; simpl; [|rewrite IH]; reflexivity. Qed.

Lemma logs_state evs st : state (logs evs st) = state st.
Proof. revert st. induction evs as [|e evs IH]; intros st; simpl; [|rewrite IH]; reflexivity. Qed.

(** ** A dead worker *)

(** C7: when the command thread is not alive, every enqueue and every
    health check raises [UpdateFailed] and leaves the object, its queue
    included, as it was: nothing is put on a queue without a consumer. *)
Theorem dead_worker_is_fatal (w : World) (st : AwoxMesh) :
  command_tread_alive st = false ->
  (forall command_ params_ allow_to_fail_,
     _async_add_command_to_queue w command_ params_ allow_to_fail_ st
     = (Raised (UpdateFailed "Command tread died!"), st))
  /\ (forall mesh_id,
        async_on w mesh_id st = (Raised (UpdateFailed "Command tread died!"), st)
        /\ async_off w mesh_id st = (Raised (UpdateFailed "Command tread died!"), st))
  /\ _async_update_data w st = (Raised (UpdateFailed "Command tread died!"), st).
Proof.
  intros Hdead.
  assert (Hadd : forall command_ params_ allow_to_fail_,
             _async_add_command_to_queue w command_ params_ allow_to_fail_ st
             = (Raised (UpdateFailed "Command tread died!"), st)).
  { intros. unfold _async_add_command_to_queue. now rewrite Hdead. }
  split; [exact Hadd|]. split.
  - intros mesh_id. unfold async_on, async_off. split; apply Hadd.
  - unfold _async_update_data, update_prefix, bind, gets, raise.
    now rewrite Hdead.
Qed.

Lemma dead_worker_is_fatal_witness :
  command_tread_alive dead_mesh = false
  /\ async_on calm_world 1 dead_mesh
     = (Raised (UpdateFailed "Command tread died!"), dead_mesh)
  /\ queue (async_on calm_world 1 dead_mesh).2 = [].
Proof.
  split; [reflexivity|].
  destruct (dead_worker_is_fatal calm_world dead_mesh eq_refl) as (_ & H & _).
  destruct (H 1) as [Hon _]. rewrite Hon. split; reflexivity.
Defined.

(** ** Attempts on one command *)

Section AttemptFacts.
Variable w : World.

Lemma call_command_step cmd st : step call_event st (_call_command w cmd st).2.
Proof.
  pose proof (call_command_outcome w cmd st) as H.
  pose proof (async_connect_device_step w (log (EvCallCommand cmd) st)) as Hc.
  assert (H0 : step call_event st (log (EvCallCommand cmd) st))
    by now apply step_log.
  assert (Hw : forall e, connect_event e = true -> call_event e = true)
    by (intros []; simpl; congruence).
  inversion H as [e st1 E|st1 E Hn|st1 device result E Hd Hl Hr Hf
                 |st1 device E Hd Hl Hr]; rewrite E in Hc; simpl in Hc.
  - eapply step_trans; [exact H0 | eapply step_weaken; eauto].
  - eapply step_trans; [exact H0 | eapply step_weaken; eauto].
  - eapply step_trans; [exact H0|].
    eapply step_trans; [eapply step_weaken; eauto|]. now apply step_log.
  - eapply step_trans; [exact H0|].
    eapply step_trans; [eapply step_weaken; eauto|].
    eapply step_trans;
      [apply (step_log _ (EvDispatch device cmd)); reflexivity|].
    eapply step_trans; [apply step_set_link|].
    eapply step_trans;
      [apply (step_log _ (EvLinkDisconnect device None)); reflexivity|].
    now apply step_update_mesh_state.
Qed.

(** What one call adds to the trace: its own mark, at most one dispatch,
    and a disconnect of the owned link exactly when the dispatch failed. *)
Lemma call_command_counts cmd st :
  let r := _call_command w cmd st in
  let evs := added st r.2 in
  count_events is_call_command evs = 1%nat
  /\ count_events is_retry evs = 0%nat
  /\ ((count_events is_dispatch evs = 0%nat
       /\ count_events is_owned_disconnect evs = 0%nat
       /\ r.1 <> Ok true)
      \/ (count_events is_dispatch evs = 1%nat
          /\ count_events is_owned_disconnect evs = 0%nat
          /\ r.1 = Ok true)
      \/ (count_events is_dispatch evs = 1%nat
          /\ count_events is_owned_disconnect evs = 1%nat
          /\ r.1 = Ok (allow_to_fail cmd))).
Proof.
  intros r evs. subst r evs.
  pose proof (call_command_outcome w cmd st) as H.
  pose proof (async_connect_device_step w (log (EvCallCommand cmd) st)) as Hc.
  apply step_added in Hc as [Ht Hf].
  set (evc := added (log (EvCallCommand cmd) st)
                (_async_connect_device w (log (EvCallCommand cmd) st)).2) in *.
  assert (Hcall : count_events is_call_command evc = 0%nat)
    by (eapply count_events_none; [|exact Hf]; intros []; simpl; congruence).
  assert (Hretry : count_events is_retry evc = 0%nat)
    by (eapply count_events_none; [|exact Hf]; intros []; simpl; congruence).
  assert (Hdisp : count_events is_dispatch evc = 0%nat)
    by (eapply count_events_none; [|exact Hf]; intros []; simpl; congruence).
  assert (Hown : count_events is_owned_disconnect evc = 0%nat)
    by (eapply count_events_none; [|exact Hf]; intros []; simpl; congruence).
  simpl in Ht.
  destruct (_call_command w cmd st) as [r st'] eqn:Ecall. simpl in *.
  inversion H as [e st1 E|st1 E Hn|st1 device result E Hd Hl Hr Hfl
                 |st1 device E Hd Hl Hr]; subst; rewrite E in Ht; simpl in Ht.
  - rewrite (added_eq st st' (EvCallCommand cmd :: evc))
      by (rewrite Ht, <- app_assoc; reflexivity).
    simpl. rewrite Hcall, Hretry, Hdisp, Hown.
    split; [reflexivity|]. split; [reflexivity|]. left. now repeat split.
  - rewrite (added_eq st st' (EvCallCommand cmd :: evc))
      by (rewrite Ht, <- app_assoc; reflexivity).
    simpl. rewrite Hcall, Hretry, Hdisp, Hown.
    split; [reflexivity|]. split; [reflexivity|]. left. now repeat split.
  - rewrite (added_eq st _ (EvCallCommand cmd :: evc ++ [EvDispatch device cmd]))
      by (simpl; rewrite Ht, <- !app_assoc; reflexivity).
    simpl. rewrite !count_events_app, Hcall, Hretry, Hdisp, Hown. simpl.
    split; [reflexivity|]. split; [reflexivity|]. right. left. now repeat split.
  - rewrite (added_eq st _
               (EvCallCommand cmd :: evc
                  ++ [EvDispatch device cmd; EvLinkDisconnect device None;
                      EvListeners])).
    + simpl. rewrite !count_events_app, Hcall, Hretry, Hdisp, Hown. simpl.
      split; [reflexivity|]. split; [reflexivity|]. right. right.
      now repeat split.
    + unfold _async_update_mesh_state. simpl. rewrite Ht, <- !app_assoc.
      reflexivity.
Qed.
End AttemptFacts.

(** ** The retry loop *)

Section RetryFacts.
Variable w : World.

Lemma retry_loop_unfold fuel tries cmd st :
  retry_loop w (S fuel) tries cmd st
  = match _call_command w cmd st with
    | (Ok ok, st1) =>
        if (negb ok && (tries <? 3)%nat)%bool
        then retry_loop w fuel (S tries) cmd (log (EvRetry (S tries)) st1)
        else (Ok tt, st1)
    | (Raised e, st1) => (Raised e, st1)
    end.
Proof.
  simpl. unfold bind, modify, ret.
  destruct (_call_command w cmd st) as [[ok|e] st1]; [|reflexivity].
  destruct (negb ok && (tries <? 3)%nat)%bool; reflexivity.
Qed.

(** The fuel of the loop is never what ends it. *)
Lemma retry_loop_fuel fuel tries cmd st :
  (tries <= 3)%nat -> (4 - tries <= fuel)%nat ->
  retry_loop w (S fuel) tries cmd st = retry_loop w fuel tries cmd st.
Proof.
  revert tries st. induction fuel as [|fuel IH]; intros tries st Ht Hf; [lia|].
  rewrite (retry_loop_unfold (S fuel)), (retry_loop_unfold fuel).
  destruct (_call_command w cmd st) as [[ok|e] st1]; [|reflexivity].
  destruct (negb ok); simpl; [|reflexivity].
  destruct (tries <? 3)%nat eqn:Hlt; [|reflexivity].
  apply Nat.ltb_lt in Hlt. apply IH; lia.
Qed.

Lemma retry_loop_enough fuel cmd st :
  (4 <= fuel)%nat -> retry_loop w fuel 0 cmd st = retry_loop w 4 0 cmd st.
Proof.
  intros H. induction H as [|fuel H IH]; [reflexivity|].
  rewrite retry_loop_fuel by lia. exact IH.
Qed.

Lemma call_event_attempt e : call_event e = true -> attempt_event e = true.
Proof. destruct e; simpl; congruence. Qed.

Lemma retry_loop_step fuel tries cmd st :
  step attempt_event st (retry_loop w fuel tries cmd st).2.
Proof.
  revert tries st. induction fuel as [|fuel IH]; intros tries st.
  - apply step_refl.
  - rewrite retry_loop_unfold.
    pose proof (call_command_step w cmd st) as Hc.
    apply (step_weaken _ _ _ _ call_event_attempt) in Hc.
    destruct (_call_command w cmd st) as [[ok|e] st1]; simpl in Hc; [|exact Hc].
    destruct (negb ok && (tries <? 3)%nat)%bool; [|exact Hc].
    eapply step_trans; [exact Hc|].
    eapply step_trans; [apply (step_log _ (EvRetry (S tries))); reflexivity|].
    apply IH.
Qed.

(** At most [4 - tries] calls are left when [tries] retries were made,
    and no call dispatches twice. *)
Lemma retry_loop_counts fuel tries cmd st :
  (tries <= 3)%nat ->
  let evs := added st (retry_loop w fuel tries cmd st).2 in
  (count_events is_call_command evs <= 4 - tries)%nat
  /\ (count_events is_call_command evs <= fuel)%nat
  /\ (count_events is_dispatch evs <= count_events is_call_command evs)%nat
  /\ (0 < fuel -> 1 <= count_events is_call_command evs)%nat.
Proof.
  revert tries st. induction fuel as [|fuel IH]; intros tries st Htries; simpl.
  - rewrite added_refl. simpl. repeat split; lia.
  - pose proof (retry_loop_unfold fuel tries cmd st) as Hu. simpl in Hu. rewrite Hu.
    clear Hu.
    pose proof (call_command_step w cmd st) as Hc.
    pose proof (call_command_counts w cmd st) as (Hcall & _ & Hd).
    destruct (_call_command w cmd st) as [[ok|e] st1]; simpl in *.
    + destruct (negb ok && (tries <? 3)%nat)%bool eqn:Hcond.
      * apply andb_true_iff in Hcond as [_ Hlt]. apply Nat.ltb_lt in Hlt.
        specialize (IH (S tries) (log (EvRetry (S tries)) st1) ltac:(lia)).
        simpl in IH. destruct IH as (I1 & I2 & I3 & _).
        pose proof (retry_loop_step fuel (S tries) cmd
                      (log (EvRetry (S tries)) st1)) as Hr.
        assert (Hl : step attempt_event st1 (log (EvRetry (S tries)) st1))
          by now apply step_log.
        rewrite (step_added_trans _ _ _ _ _ Hc (step_trans _ _ _ _ Hl Hr)).
        rewrite (step_added_trans _ _ _ _ _ Hl Hr), added_log.
        rewrite !count_events_app. simpl.
        repeat split; try lia;
          destruct Hd as [(D & _)|[(D & _)|(D & _)]]; lia.
      * simpl. repeat split; try lia;
          destruct Hd as [(D & _)|[(D & _)|(D & _)]]; lia.
    + simpl. repeat split; try lia;
        destruct Hd as [(D & _)|[(D & _)|(D & _)]]; lia.
Qed.

(** When no call succeeds the loop makes all four of them. *)
Lemma retry_loop_all_fail fuel tries cmd st :
  (forall st', (_call_command w cmd st').1 = Ok false) ->
  (tries <= 3)%nat -> (4 - tries <= fuel)%nat ->
  (retry_loop w fuel tries cmd st).1 = Ok tt
  /\ count_events is_call_command (added st (retry_loop w fuel tries cmd st).2)
     = (4 - tries)%nat
  /\ count_events is_retry (added st (retry_loop w fuel tries cmd st).2)
     = (3 - tries)%nat.
Proof.
  intros Hfail. revert tries st.
  induction fuel as [|fuel IH]; intros tries st Ht Hf; [lia|].
  rewrite retry_loop_unfold.
  pose proof (call_command_step w cmd st) as Hc.
  pose proof (call_command_counts w cmd st) as (Hcall & Hretry & _).
  pose proof (Hfail st) as Hres.
  destruct (_call_command w cmd st) as [[ok|e] st1]; simpl in *; [|discriminate].
  injection Hres as ->. simpl.
  destruct (tries <? 3)%nat eqn:Hlt.
  - apply Nat.ltb_lt in Hlt.
    destruct (IH (S tries) (log (EvRetry (S tries)) st1)) as (I1 & I2 & I3);
      [lia | lia |].
    pose proof (retry_loop_step fuel (S tries) cmd
                  (log (EvRetry (S tries)) st1)) as Hr.
    assert (Hl : step attempt_event st1 (log (EvRetry (S tries)) st1))
      by now apply step_log.
    rewrite (step_added_trans _ _ _ _ _ Hc (step_trans _ _ _ _ Hl Hr)).
    rewrite (step_added_trans _ _ _ _ _ Hl Hr), added_log.
    rewrite !count_events_app. simpl.
    split; [exact I1|]. split; lia.
  - apply Nat.ltb_ge in Hlt. simpl. split; [reflexivity|]. split; lia.
Qed.

Lemma after_attempts_step cmd st : step attempt_event st (after_attempts w cmd st).
Proof.
  unfold after_attempts.
  pose proof (retry_loop_step 4 0 cmd st) as Hr.
  destruct (retry_loop w 4 0 cmd st) as [[[]|e] st1]; simpl in Hr; [exact Hr|].
  eapply step_trans; [exact Hr|].
  eapply step_weaken; [exact call_event_attempt|].
  apply disconnect_current_device_step.
Qed.

Lemma process_command_eq cmd st :
  process_command w cmd st
  = (Ok tt,
     log EvTaskDone (log (EvCommandExecuted (cmd_callback cmd))
                       (after_attempts w cmd st))).
Proof.
  unfold process_command, after_attempts, bind, try_except, modify.
  destruct (retry_loop w 4 0 cmd st) as [[[]|e] st1]; [reflexivity|].
  rewrite disconnect_current_device_eq. reflexivity.
Qed.
End RetryFacts.

(** ** The worker loop *)

Section WorkerFacts.
Variable w : World.

Lemma process_command_trace cmd st :
  exists evs,
    trace (process_command w cmd st).2
    = trace st ++ evs ++ [EvCommandExecuted (cmd_callback cmd); EvTaskDone]
    /\ forallb attempt_event evs = true.
Proof.
  rewrite process_command_eq. simpl.
  pose proof (after_attempts_step w cmd st) as Hs.
  apply step_added in Hs as [Ht Hf].
  exists (added st (after_attempts w cmd st)). split; [|exact Hf].
  rewrite Ht, <- !app_assoc. reflexivity.
Qed.

Lemma process_command_flags cmd st :
  shutdown (process_command w cmd st).2 = shutdown st
  /\ command_tread_alive (process_command w cmd st).2 = command_tread_alive st
  /\ queue (process_command w cmd st).2 = queue st.
Proof.
  rewrite process_command_eq. simpl.
  destruct (after_attempts_step w cmd st) as (_ & Q & S & A & _). auto.
Qed.

(** A turn always comes back, with the flag as it was: the loop goes on
    to the next [get] unless [_shutdown] is set. *)
Lemma worker_at_get_cons cmd rest st :
  worker_at_get w (cmd :: rest) st
  = if shutdown st
    then thread_ended (process_command w cmd (set_queue rest st)).2
    else worker_at_get w rest (process_command w cmd (set_queue rest st)).2.
Proof.
  cbn [worker_at_get].
  destruct (process_command_flags cmd (set_queue rest st)) as (S1 & _ & _).
  pose proof (process_command_eq w cmd (set_queue rest st)) as Heq.
  destruct (process_command w cmd (set_queue rest st)) as [[[]|e] st1];
    [|discriminate].
  cbn [snd] in *. rewrite S1. reflexivity.
Qed.

Lemma process_commands_running pending st :
  shutdown st = false -> process_commands w pending st = worker_at_get w pending st.
Proof. intros Hs. unfold process_commands. now rewrite Hs. Qed.

Lemma worker_at_get_executed pending st :
  shutdown st = false ->
  exists evs,
    trace (worker_at_get w pending st) = trace st ++ evs
    /\ executed evs = map cmd_callback pending
    /\ command_tread_alive (worker_at_get w pending st) = command_tread_alive st.
Proof.
  revert st. induction pending as [|cmd rest IH]; intros st Hs.
  - exists []. rewrite app_nil_r. repeat split; reflexivity.
  - rewrite worker_at_get_cons, Hs.
    destruct (process_command_trace cmd (set_queue rest st)) as (evs1 & T1 & F1).
    destruct (process_command_flags cmd (set_queue rest st)) as (S1 & A1 & _).
    cbn [shutdown command_tread_alive set_queue] in S1, A1.
    destruct (IH (process_command w cmd (set_queue rest st)).2 ltac:(congruence))
      as (evs2 & T2 & E2 & A2).
    exists ((evs1 ++ [EvCommandExecuted (cmd_callback cmd); EvTaskDone]) ++ evs2).
    split; [rewrite T2, T1; simpl; rewrite <- !app_assoc; reflexivity|].
    split; [|rewrite A2, A1; reflexivity].
    rewrite !executed_app, (executed_none _ F1), E2. reflexivity.
Qed.

Lemma process_commands_executed pending st :
  shutdown st = false ->
  exists evs,
    trace (process_commands w pending st) = trace st ++ evs
    /\ executed evs = map cmd_callback pending
    /\ command_tread_alive (process_commands w pending st) = command_tread_alive st.
Proof.
  intros Hs. rewrite (process_commands_running _ _ Hs).
  now apply worker_at_get_executed.
Qed.

Lemma worker_at_get_queue pending st :
  shutdown st = false -> queue st = pending ->
  queue (worker_at_get w pending st) = [].
Proof.
  revert st. induction pending as [|cmd rest IH]; intros st Hs Hq.
  - exact Hq.
  - rewrite worker_at_get_cons, Hs.
    destruct (process_command_flags cmd (set_queue rest st)) as (S1 & _ & Q1).
    cbn [shutdown set_queue] in S1.
    apply IH; [congruence | exact Q1].
Qed.

Lemma process_commands_queue pending st :
  shutdown st = false -> queue st = pending ->
  queue (process_commands w pending st) = [].
Proof.
  intros Hs. rewrite (process_commands_running _ _ Hs).
  now apply worker_at_get_queue.
Qed.
End WorkerFacts.

(** C1: one turn of the worker loop never raises and fires the completion
    callback of its command exactly once, as the last call before
    [task_done], whether the command succeeded, ran out of retries or an
    exception left the attempt loop; over a queue, the callbacks fire once
    per command in the order of the queue, and the thread stays alive. *)
Theorem completion_callback_exactly_once (w : World) (st : AwoxMesh) :
  shutdown st = false ->
  (forall cmd st0,
     (process_command w cmd st0).1 = Ok tt
     /\ exists evs,
          trace (process_command w cmd st0).2
          = trace st0 ++ evs ++ [EvCommandExecuted (cmd_callback cmd); EvTaskDone]
          /\ executed evs = []
          /\ executed (added st0 (process_command w cmd st0).2) = [cmd_callback cmd])
  /\ executed (added st (_process_command_queue w st)) = map cmd_callback (queue st)
  /\ command_tread_alive (_process_command_queue w st) = command_tread_alive st
  /\ queue (_process_command_queue w st) = [].
Proof.
  intros Hs. split; [|split; [|split]].
  - intros cmd st0. split; [now rewrite process_command_eq|].
    destruct (process_command_trace w cmd st0) as (evs & T & F).
    exists evs. split; [exact T|]. split; [now apply executed_none|].
    rewrite (added_eq _ _ _ T), executed_app, (executed_none _ F). reflexivity.
  - unfold _process_command_queue.
    destruct (process_commands_executed w (queue st) st Hs) as (evs & T & E & _).
    now rewrite (added_eq _ _ _ T).
  - unfold _process_command_queue.
    destruct (process_commands_executed w (queue st) st Hs) as (evs & _ & _ & A).
    exact A.
  - unfold _process_command_queue. now apply process_commands_queue.
Qed.

Lemma completion_callback_exactly_once_witness :
  shutdown busy_mesh = false
  /\ executed (added busy_mesh (_process_command_queue flaky_world busy_mesh))
     = [0; 1; 2]%nat.
Proof.
  split; [reflexivity|].
  destruct (completion_callback_exactly_once flaky_world busy_mesh eq_refl)
    as (_ & H & _).
  exact H.
Defined.

(** The three ways a turn can go: the command succeeds at once; every
    attempt fails; an exception leaves the attempt loop.  The callback
    fires once in each. *)
Example turn_succeeds :
  added two_lights (process_command calm_world cmd_on two_lights).2
  = [EvCallCommand cmd_on;
     EvLinkConnect (new_link "a4:c1:38:00:00:01" 1);
     EvListeners;
     EvDispatch desk_link cmd_on;
     EvCommandExecuted 0; EvTaskDone].
Proof. vm_compute. reflexivity. Qed.

Example turn_gives_up :
  executed (added two_lights (process_command deaf_world cmd_on two_lights).2)
  = [0%nat]
  /\ count_events is_retry
       (added two_lights (process_command deaf_world cmd_on two_lights).2)
     = 3%nat.
Proof. split; vm_compute; reflexivity. Qed.

Example turn_survives_exception :
  retry_loop snagging_world 4 0 cmd_on two_lights
  = (Raised LinkError,
     logs [EvCallCommand cmd_on;
           EvLinkConnect (new_link "a4:c1:38:00:00:01" 1);
           EvCandidateDisconnect (new_link "a4:c1:38:00:00:01" 1)] two_lights)
  /\ process_command snagging_world cmd_on two_lights
     = (Ok tt,
        logs [EvCallCommand cmd_on;
              EvLinkConnect (new_link "a4:c1:38:00:00:01" 1);
              EvCandidateDisconnect (new_link "a4:c1:38:00:00:01" 1);
              EvCommandExecuted 0; EvTaskDone] two_lights).
Proof. split; vm_compute; reflexivity. Qed.

(** ** How often a command is attempted *)

Section AttemptCounts.
Variable w : World.

Lemma disconnect_added st :
  added st (_disconnect_current_device w st).2
  = match connected_bluetooth_device st with
    | None => []
    | Some device => [EvLinkDisconnect device None; EvListeners]
    end.
Proof.
  rewrite disconnect_current_device_eq. simpl.
  destruct (connected_bluetooth_device st) as [device|]; [|apply added_refl].
  apply added_eq. unfold _async_update_mesh_state. simpl.
  now rewrite <- app_assoc.
Qed.

Lemma process_command_added cmd st :
  added st (process_command w cmd st).2
  = added st (after_attempts w cmd st)
      ++ [EvCommandExecuted (cmd_callback cmd); EvTaskDone].
Proof.
  rewrite process_command_eq. simpl.
  destruct (step_added _ _ _ (after_attempts_step w cmd st)) as [Ht _].
  apply added_eq. simpl. rewrite Ht at 1. now rewrite <- !app_assoc.
Qed.

Lemma retry_loop_fail fuel tries cmd st st1 :
  _call_command w cmd st = (Ok false, st1) -> (tries < 3)%nat ->
  retry_loop w (S fuel) tries cmd st
  = retry_loop w fuel (S tries) cmd (log (EvRetry (S tries)) st1).
Proof.
  intros E Ht. rewrite retry_loop_unfold, E.
  apply Nat.ltb_lt in Ht. now rewrite Ht.
Qed.

Lemma retry_loop_last fuel tries cmd st ok st1 :
  _call_command w cmd st = (Ok ok, st1) -> ok = true \/ (3 <= tries)%nat ->
  retry_loop w (S fuel) tries cmd st = (Ok tt, st1).
Proof.
  intros E [->|Ht]; rewrite retry_loop_unfold, E; [reflexivity|].
  apply Nat.ltb_ge in Ht. rewrite Ht. now rewrite andb_false_r.
Qed.

(** The [except] clause adds neither a call nor a dispatch. *)
Lemma after_attempts_counts cmd st :
  count_events is_call_command (added st (after_attempts w cmd st))
  = count_events is_call_command (added st (retry_loop w 4 0 cmd st).2)
  /\ count_events is_dispatch (added st (after_attempts w cmd st))
     = count_events is_dispatch (added st (retry_loop w 4 0 cmd st).2).
Proof.
  unfold after_attempts.
  pose proof (retry_loop_step w 4 0 cmd st) as Hr.
  destruct (retry_loop w 4 0 cmd st) as [[[]|e] st1]; simpl in *; [auto|].
  pose proof (disconnect_current_device_step w st1) as Hd.
  rewrite (step_added_trans _ _ _ _ _ Hr Hd), disconnect_added.
  rewrite !count_events_app.
  destruct (connected_bluetooth_device st1); simpl; split; lia.
Qed.
End AttemptCounts.

Lemma added_chain P st1 st2 e st3 :
  step P st1 st2 -> step P (log e st2) st3 -> P e = true ->
  added st1 st3 = added st1 st2 ++ e :: added (log e st2) st3.
Proof.
  intros S12 S23 He.
  assert (L : step P st2 (log e st2)) by now apply step_log.
  rewrite (step_added_trans _ _ _ _ _ S12 (step_trans _ _ _ _ L S23)).
  rewrite (step_added_trans _ _ _ _ _ L S23), added_log. reflexivity.
Qed.

(** C2, as the code has it: the worker calls [_call_command] at least once
    and at most four times per command, the first call and up to three
    retries; a command whose first two dispatches fail and whose third
    succeeds is called exactly three times, with two disconnects of the
    owned link in between; a command whose calls all fail is called exactly
    four times, with three retries, before the worker gives up. *)
Theorem at_most_four_attempts (w : World) (cmd : Command) (st : AwoxMesh) :
  ((1 <= count_events is_call_command (added st (process_command w cmd st).2) <= 4)%nat
   /\ (count_events is_dispatch (added st (process_command w cmd st).2)
       <= count_events is_call_command (added st (process_command w cmd st).2))%nat)
  /\ (forall st1 st2 st3,
        _call_command w cmd st = (Ok false, st1) ->
        count_events is_dispatch (added st st1) = 1%nat ->
        _call_command w cmd (log (EvRetry 1) st1) = (Ok false, st2) ->
        count_events is_dispatch (added (log (EvRetry 1) st1) st2) = 1%nat ->
        _call_command w cmd (log (EvRetry 2) st2) = (Ok true, st3) ->
        after_attempts w cmd st = st3
        /\ count_events is_call_command (added st (process_command w cmd st).2) = 3%nat
        /\ count_events is_dispatch (added st (process_command w cmd st).2) = 3%nat
        /\ count_events is_owned_disconnect (added st (process_command w cmd st).2)
           = 2%nat)
  /\ (forall st1 st2 st3 st4,
        _call_command w cmd st = (Ok false, st1) ->
        _call_command w cmd (log (EvRetry 1) st1) = (Ok false, st2) ->
        _call_command w cmd (log (EvRetry 2) st2) = (Ok false, st3) ->
        _call_command w cmd (log (EvRetry 3) st3) = (Ok false, st4) ->
        after_attempts w cmd st = st4
        /\ count_events is_call_command (added st (process_command w cmd st).2) = 4%nat
        /\ count_events is_retry (added st (process_command w cmd st).2) = 3%nat).
Proof.
  rewrite process_command_added, !count_events_app. simpl.
  rewrite !Nat.add_0_r.
  split; [|split].
  - destruct (after_attempts_counts w cmd st) as [-> ->].
    destruct (retry_loop_counts w 4 0 cmd st ltac:(lia)) as (H1 & H2 & H3 & H4).
    lia.
  - intros st1 st2 st3 E1 D1 E2 D2 E3.
    assert (Hloop : retry_loop w 4 0 cmd st = (Ok tt, st3)).
    { rewrite (retry_loop_fail w 3 0 _ _ _ E1) by lia.
      rewrite (retry_loop_fail w 2 1 _ _ _ E2) by lia.
      apply (retry_loop_last w 1 2 _ _ _ _ E3). now left. }
    assert (Hafter : after_attempts w cmd st = st3)
      by (unfold after_attempts; now rewrite Hloop).
    rewrite Hafter. split; [reflexivity|].
    pose proof (call_command_step w cmd st) as S1.
    pose proof (call_command_counts w cmd st) as (C1 & _ & K1).
    rewrite E1 in S1, C1, K1. simpl in S1, C1, K1.
    pose proof (call_command_step w cmd (log (EvRetry 1) st1)) as S2.
    pose proof (call_command_counts w cmd (log (EvRetry 1) st1)) as (C2 & _ & K2).
    rewrite E2 in S2, C2, K2. simpl in S2, C2, K2.
    pose proof (call_command_step w cmd (log (EvRetry 2) st2)) as S3.
    pose proof (call_command_counts w cmd (log (EvRetry 2) st2)) as (C3 & _ & K3).
    rewrite E3 in S3, C3, K3. simpl in S3, C3, K3.
    apply (step_weaken _ _ _ _ (call_event_attempt)) in S1, S2, S3.
    assert (S23 : step attempt_event (log (EvRetry 1) st1) st3).
    { eapply step_trans; [exact S2|].
      eapply step_trans; [apply (step_log _ (EvRetry 2)); reflexivity | exact S3]. }
    rewrite (added_chain _ _ _ _ _ S1 S23 eq_refl).
    rewrite (added_chain _ _ _ _ _ S2 S3 eq_refl).
    rewrite !count_events_app. simpl. rewrite !count_events_app. simpl.
    rewrite C1, C2, C3, D1, D2.
    destruct K1 as [(D & _)|[(_ & _ & R)|(_ & O1 & R1)]];
      [congruence | discriminate |].
    destruct K2 as [(D & _)|[(_ & _ & R)|(_ & O2 & _)]];
      [congruence | discriminate |].
    destruct K3 as [(_ & _ & R)|[(D3 & O3 & _)|(_ & _ & R3)]];
      [congruence | | congruence].
    rewrite O1, O2, O3, D3. repeat split; reflexivity.
  - intros st1 st2 st3 st4 E1 E2 E3 E4.
    assert (Hloop : retry_loop w 4 0 cmd st = (Ok tt, st4)).
    { rewrite (retry_loop_fail w 3 0 _ _ _ E1) by lia.
      rewrite (retry_loop_fail w 2 1 _ _ _ E2) by lia.
      rewrite (retry_loop_fail w 1 2 _ _ _ E3) by lia.
      apply (retry_loop_last w 0 3 _ _ _ _ E4). right. lia. }
    assert (Hafter : after_attempts w cmd st = st4)
      by (unfold after_attempts; now rewrite Hloop).
    rewrite Hafter. split; [reflexivity|].
    pose proof (call_command_step w cmd st) as S1.
    pose proof (call_command_counts w cmd st) as (C1 & T1 & _).
    rewrite E1 in S1, C1, T1. simpl in S1, C1, T1.
    pose proof (call_command_step w cmd (log (EvRetry 1) st1)) as S2.
    pose proof (call_command_counts w cmd (log (EvRetry 1) st1)) as (C2 & T2 & _).
    rewrite E2 in S2, C2, T2. simpl in S2, C2, T2.
    pose proof (call_command_step w cmd (log (EvRetry 2) st2)) as S3.
    pose proof (call_command_counts w cmd (log (EvRetry 2) st2)) as (C3 & T3 & _).
    rewrite E3 in S3, C3, T3. simpl in S3, C3, T3.
    pose proof (call_command_step w cmd (log (EvRetry 3) st3)) as S4.
    pose proof (call_command_counts w cmd (log (EvRetry 3) st3)) as (C4 & T4 & _).
    rewrite E4 in S4, C4, T4. simpl in S4, C4, T4.
    apply (step_weaken _ _ _ _ (call_event_attempt)) in S1, S2, S3, S4.
    assert (S34 : step attempt_event (log (EvRetry 2) st2) st4).
    { eapply step_trans; [exact S3|].
      eapply step_trans; [apply (step_log _ (EvRetry 3)); reflexivity | exact S4]. }
    assert (S24 : step attempt_event (log (EvRetry 1) st1) st4).
    { eapply step_trans; [exact S2|].
      eapply step_trans; [apply (step_log _ (EvRetry 2)); reflexivity | exact S34]. }
    rewrite (added_chain _ _ _ _ _ S1 S24 eq_refl).
    rewrite (added_chain _ _ _ _ _ S2 S34 eq_refl).
    rewrite (added_chain _ _ _ _ _ S3 S4 eq_refl).
    repeat (rewrite !count_events_app; simpl).
    rewrite C1, C2, C3, C4, T1, T2, T3, T4. split; reflexivity.
Qed.

Lemma at_most_four_attempts_witness :
  count_events is_call_command
    (added two_lights (process_command flaky_world cmd_on two_lights).2) = 3%nat
  /\ count_events is_owned_disconnect
       (added two_lights (process_command flaky_world cmd_on two_lights).2) = 2%nat
  /\ count_events is_call_command
       (added two_lights (process_command unreachable_world cmd_on two_lights).2)
     = 4%nat.
Proof.
  destruct (at_most_four_attempts flaky_world cmd_on two_lights) as (_ & H & _).
  destruct (H (_call_command flaky_world cmd_on two_lights).2
              (_call_command flaky_world cmd_on
                 (log (EvRetry 1) (_call_command flaky_world cmd_on two_lights).2)).2
              (_call_command flaky_world cmd_on
                 (log (EvRetry 2)
                    (_call_command flaky_world cmd_on
                       (log (EvRetry 1)
                          (_call_command flaky_world cmd_on two_lights).2)).2)).2)
    as (_ & H3 & _ & H2);
    [vm_compute; reflexivity | vm_compute; reflexivity | vm_compute; reflexivity
    | vm_compute; reflexivity | vm_compute; reflexivity |].
  split; [exact H3|]. split; [exact H2|].
  destruct (at_most_four_attempts unreachable_world cmd_on two_lights)
    as (_ & _ & H4).
  destruct (H4 (_call_command unreachable_world cmd_on two_lights).2
              (_call_command unreachable_world cmd_on
                 (log (EvRetry 1)
                    (_call_command unreachable_world cmd_on two_lights).2)).2
              (_call_command unreachable_world cmd_on
                 (log (EvRetry 2)
                    (_call_command unreachable_world cmd_on
                       (log (EvRetry 1)
                          (_call_command unreachable_world cmd_on two_lights).2)).2)).2
              (_call_command unreachable_world cmd_on
                 (log (EvRetry 3)
                    (_call_command unreachable_world cmd_on
                       (log (EvRetry 2)
                          (_call_command unreachable_world cmd_on
                             (log (EvRetry 1)
                                (_call_command unreachable_world cmd_on
                                   two_lights).2)).2)).2)).2)
    as (_ & H4' & _);
    [vm_compute; reflexivity | vm_compute; reflexivity | vm_compute; reflexivity
    | vm_compute; reflexivity |].
  exact H4'.
Defined.

(** Counterexample to C2 as stated: a link that connects and never answers
    is dispatched to four times for one command. *)
Lemma three_attempts_exceeded :
  count_events is_call_command
    (added two_lights (process_command deaf_world cmd_on two_lights).2) = 4%nat
  /\ count_events is_dispatch
       (added two_lights (process_command deaf_world cmd_on two_lights).2) = 4%nat
  /\ ~ (count_events is_dispatch
          (added two_lights (process_command deaf_world cmd_on two_lights).2)
        <= 3)%nat.
Proof.
  assert (H : count_events is_dispatch
                (added two_lights (process_command deaf_world cmd_on two_lights).2)
              = 4%nat) by (vm_compute; reflexivity).
  split; [vm_compute; reflexivity|]. split; [exact H|]. rewrite H. lia.
Qed.

(** ** Commands that are allowed to fail *)

Section AllowToFail.
Variable w : World.

(** [_call_command] read off the answers of the link. *)
Lemma call_command_eq cmd st :
  _call_command w cmd st
  = match _async_connect_device w (log (EvCallCommand cmd) st) with
    | (Raised e, st1) => (Raised e, st1)
    | (Ok _, st1) =>
        match connected_bluetooth_device st1 with
        | None => (Ok false, st1)
        | Some device =>
            if link_is_connected device
            then
              match link_dispatch w (trace st1) device cmd with
              | DispatchReturns result =>
                  if (is_none result && negb (allow_to_fail cmd))%bool
                  then (Ok false, forced_disconnect device cmd st1)
                  else (Ok true, log (EvDispatch device cmd) st1)
              | DispatchRaises _ =>
                  (Ok (allow_to_fail cmd), forced_disconnect device cmd st1)
              end
            else (Ok false, st1)
        end
    end.
Proof.
  pose proof (call_command_outcome w cmd st) as H.
  destruct (_call_command w cmd st) as [r st'] eqn:Ecall. simpl in H.
  inversion H as [e st1 E|st1 E Hn|st1 device result E Hd Hl Hr Hf
                 |st1 device E Hd Hl Hr]; subst; rewrite E.
  - reflexivity.
  - unfold is_connected in Hn.
    destruct (connected_bluetooth_device st') as [device|]; [|reflexivity].
    now rewrite Hn.
  - now rewrite Hd, Hl, Hr, Hf.
  - rewrite Hd, Hl. unfold forced_disconnect.
    destruct (link_dispatch w (trace st1) device cmd) as [result|e]; [|reflexivity].
    destruct Hr as [-> ->]. reflexivity.
Qed.
End AllowToFail.

(** C9, as the code has it: for a command whose [allow_to_fail] flag is
    set, a call in which the command is dispatched reports success, and the
    worker then makes no further call for it; a [None] result forces no
    disconnect, an exception during the dispatch forces one before success
    is reported.  A call that ends its connection phase without a connected
    link reports failure without dispatching. *)
Theorem allow_to_fail_dispatch_reports_success
    (w : World) (cmd : Command) (st st1 : AwoxMesh) :
  allow_to_fail cmd = true ->
  _async_connect_device w (log (EvCallCommand cmd) st) = (Ok tt, st1) ->
  (is_connected st1 = false -> _call_command w cmd st = (Ok false, st1))
  /\ (forall device,
        connected_bluetooth_device st1 = Some device ->
        link_is_connected device = true ->
        (forall result,
           link_dispatch w (trace st1) device cmd = DispatchReturns result ->
           _call_command w cmd st = (Ok true, log (EvDispatch device cmd) st1))
        /\ (forall e,
              link_dispatch w (trace st1) device cmd = DispatchRaises e ->
              _call_command w cmd st = (Ok true, forced_disconnect device cmd st1))
        /\ (_call_command w cmd st).1 = Ok true
        /\ count_events is_call_command (added st (process_command w cmd st).2)
           = 1%nat).
Proof.
  intros Ha Ec. rewrite call_command_eq, Ec. split.
  - unfold is_connected. intros Hn.
    destruct (connected_bluetooth_device st1) as [device|]; [|reflexivity].
    now rewrite Hn.
  - intros device Hd Hl. rewrite Hd, Hl, Ha.
    split; [intros result ->; simpl; now rewrite andb_false_r|].
    split; [intros e ->; reflexivity|].
    assert (Hok : exists st2, _call_command w cmd st = (Ok true, st2)).
    { rewrite call_command_eq, Ec, Hd, Hl, Ha.
      destruct (link_dispatch w (trace st1) device cmd); simpl;
        rewrite ?andb_false_r; eauto. }
    split; [destruct (link_dispatch w (trace st1) device cmd); simpl;
            rewrite ?andb_false_r; reflexivity|].
    destruct Hok as [st2 Hok].
    rewrite process_command_added, count_events_app. simpl.
    unfold after_attempts.
    rewrite (retry_loop_last w 3 0 _ _ _ _ Hok) by now left.
    pose proof (call_command_counts w cmd st) as (C & _).
    rewrite Hok in C. simpl in C. rewrite C. reflexivity.
Qed.

Lemma allow_to_fail_dispatch_reports_success_witness :
  allow_to_fail cmd_status = true
  /\ (_call_command deaf_world cmd_status two_lights).1 = Ok true
  /\ count_events is_call_command
       (added two_lights (process_command deaf_world cmd_status two_lights).2)
     = 1%nat
  /\ count_events is_owned_disconnect
       (added two_lights (process_command deaf_world cmd_status two_lights).2)
     = 1%nat.
Proof.
  split; [reflexivity|].
  destruct (allow_to_fail_dispatch_reports_success deaf_world cmd_status two_lights
              (_async_connect_device deaf_world
                 (log (EvCallCommand cmd_status) two_lights)).2
              eq_refl ltac:(vm_compute; reflexivity)) as (_ & H).
  destruct (H {| link_mac := "a4:c1:38:00:00:01"; link_mesh_id := 1;
                 link_is_connected := true; status_callback := true |}
              ltac:(vm_compute; reflexivity) eq_refl) as (_ & _ & H1 & H2).
  split; [exact H1|]. split; [exact H2|]. vm_compute. reflexivity.
Defined.

(** Counterexample to C9 as stated: with no light in reach, a call for a
    command that is allowed to fail reports failure, and the worker
    retries it three times. *)
Lemma allow_to_fail_retried :
  allow_to_fail cmd_status = true
  /\ (_call_command unreachable_world cmd_status two_lights).1 = Ok false
  /\ count_events is_retry
       (added two_lights (process_command unreachable_world cmd_status two_lights).2)
     = 3%nat
  /\ count_events is_call_command
       (added two_lights (process_command unreachable_world cmd_status two_lights).2)
     = 4%nat.
Proof. repeat split; vm_compute; reflexivity. Qed.

(** ** A mesh out of reach *)

Section ConnectFailure.
Variable w : World.
Hypothesis no_connect : forall tr l, link_connect w tr l <> ConnectReturns true.

Lemma connect_candidates_cons_fail mesh_id device_info mac_ items st :
  mac device_info = Some mac_ ->
  connect_candidates w ((mesh_id, device_info) :: items) st
  = match link_disconnect w (trace (log (EvLinkConnect (new_link mac_ mesh_id)) st))
            (new_link mac_ mesh_id) with
    | Some e =>
        (Raised e,
         log (EvCandidateDisconnect (new_link mac_ mesh_id))
           (log (EvLinkConnect (new_link mac_ mesh_id)) st))
    | None =>
        connect_candidates w items
          (log (EvCandidateDisconnect (new_link mac_ mesh_id))
             (log (EvLinkConnect (new_link mac_ mesh_id)) st))
    end.
Proof.
  intros Hmac. simpl. rewrite Hmac.
  unfold bind, try_except, connect, candidate_disconnect, ret.
  pose proof (no_connect (trace st) (new_link mac_ mesh_id)) as Hn.
  destruct (link_connect w (trace st) (new_link mac_ mesh_id)) as [[|]|e];
    [congruence| |]; simpl;
    match goal with
    | |- context [link_disconnect ?a ?b ?c] => destruct (link_disconnect a b c)
    end; reflexivity.
Qed.

(** Each candidate that is tried is connected to and then disconnected;
    the loop stops early only when a disconnect raises. *)
Lemma connect_candidates_all_fail items st :
  exists tried rest,
    candidates items = tried ++ rest
    /\ (connect_candidates w items st).2 = logs (flat_map attempt_events tried) st
    /\ ((connect_candidates w items st).1 = Ok tt -> rest = [])
    /\ ((forall tr l, link_disconnect w tr l = None) ->
        (connect_candidates w items st).1 = Ok tt).
Proof.
  revert st. induction items as [|[mesh_id device_info] items IH]; intros st.
  - exists [], []. repeat split; reflexivity.
  - destruct (mac device_info) as [mac_|] eqn:Hmac.
    + rewrite (connect_candidates_cons_fail _ _ _ _ _ Hmac).
      simpl candidates. rewrite Hmac.
      set (device := new_link mac_ mesh_id).
      destruct (link_disconnect w (trace (log (EvLinkConnect device) st)) device)
        as [e|] eqn:Hd.
      * exists [device], (candidates items). simpl.
        split; [reflexivity|]. split; [reflexivity|].
        split; [discriminate|]. intros Hall. rewrite Hall in Hd. discriminate.
      * destruct (IH (log (EvCandidateDisconnect device)
                        (log (EvLinkConnect device) st)))
          as (tried & rest & Hcand & Hst & Hok & Hall).
        exists (device :: tried), rest. simpl.
        split; [now rewrite Hcand|]. split; [exact Hst|]. split; assumption.
    + simpl. rewrite Hmac. apply IH.
Qed.
End ConnectFailure.

(** C5: from a state that is not connected, when no candidate's
    [connect] returns true (it returns false, raises or times out), the
    connect routine adopts nobody and ends not connected; every candidate
    it tried was disconnected right after its failed attempt.  The
    candidates are tried in registry order, all of them when the routine
    returns, which it does when the disconnects return.  The link
    reference is the one held before: from a state that owns no link the
    routine ends owning none and nothing but the trace changed; a
    reference to a dropped link is kept, and has the status callback set
    on it when the routine returns. *)
Theorem connect_failure_leaves_disconnected (w : World) (st : AwoxMesh) :
  is_connected st = false ->
  (forall tr l, link_connect w tr l <> ConnectReturns true) ->
  exists tried rest,
    candidates (devices st) = tried ++ rest
    /\ (_async_connect_device w st).2
       = match (_async_connect_device w st).1 with
         | Ok _ => wire_status_callback (logs (flat_map attempt_events tried) st)
         | Raised _ => logs (flat_map attempt_events tried) st
         end
    /\ is_connected (_async_connect_device w st).2 = false
    /\ (connected_bluetooth_device st = None ->
        (_async_connect_device w st).2 = logs (flat_map attempt_events tried) st
        /\ connected_bluetooth_device (_async_connect_device w st).2 = None)
    /\ (forall device,
          connected_bluetooth_device st = Some device ->
          connected_bluetooth_device (_async_connect_device w st).2
          = Some match (_async_connect_device w st).1 with
                 | Ok _ => set_status_callback true device
                 | Raised _ => device
                 end)
    /\ ((_async_connect_device w st).1 = Ok tt -> rest = [])
    /\ ((forall tr l, link_disconnect w tr l = None) ->
        (_async_connect_device w st).1 = Ok tt).
Proof.
  intros Hn Hfail.
  destruct (connect_candidates_all_fail w Hfail (devices st) st)
    as (tried & rest & Hcand & Hst & Hok & Hall).
  exists tried, rest.
  pose proof (logs_link (flat_map attempt_events tried) st) as Hlink.
  unfold _async_connect_device. rewrite Hn. unfold bind, modify.
  destruct (connect_candidates w (devices st) st) as [[[]|e] st1];
    cbn [fst snd] in *; subst st1.
  - split; [exact Hcand|]. split; [reflexivity|].
    unfold wire_status_callback, is_connected in *. rewrite Hlink.
    destruct (connected_bluetooth_device st) as [device|] eqn:Hd.
    + cbn [connected_bluetooth_device set_connected_bluetooth_device
           link_is_connected set_status_callback].
      split; [exact Hn|]. split; [discriminate|].
      split; [intros d [= <-]; reflexivity|]. split; [exact Hok | reflexivity].
    + rewrite Hlink. split; [reflexivity|]. split; [auto|].
      split; [discriminate|]. split; [exact Hok | reflexivity].
  - split; [exact Hcand|]. split; [reflexivity|].
    split; [unfold is_connected in *; now rewrite Hlink|].
    split; [intros Hnone; split; [reflexivity | now rewrite Hlink]|].
    split; [intros d Hd; now rewrite Hlink|].
    split; [discriminate | exact Hall].
Qed.

Lemma connect_failure_leaves_disconnected_witness :
  is_connected two_lights = false
  /\ exists tried rest,
       candidates (devices two_lights) = tried ++ rest
       /\ (_async_connect_device unreachable_world two_lights).2
          = match (_async_connect_device unreachable_world two_lights).1 with
            | Ok _ =>
                wire_status_callback (logs (flat_map attempt_events tried) two_lights)
            | Raised _ => logs (flat_map attempt_events tried) two_lights
            end
       /\ is_connected (_async_connect_device unreachable_world two_lights).2 = false
       /\ (connected_bluetooth_device two_lights = None ->
           (_async_connect_device unreachable_world two_lights).2
           = logs (flat_map attempt_events tried) two_lights
           /\ connected_bluetooth_device
                (_async_connect_device unreachable_world two_lights).2 = None)
       /\ (forall device,
             connected_bluetooth_device two_lights = Some device ->
             connected_bluetooth_device
               (_async_connect_device unreachable_world two_lights).2
             = Some match (_async_connect_device unreachable_world two_lights).1 with
                    | Ok _ => set_status_callback true device
                    | Raised _ => device
                    end)
       /\ ((_async_connect_device unreachable_world two_lights).1 = Ok tt -> rest = [])
       /\ ((forall tr l, link_disconnect unreachable_world tr l = None) ->
           (_async_connect_device unreachable_world two_lights).1 = Ok tt).
Proof.
  split; [reflexivity|].
  apply (connect_failure_leaves_disconnected unreachable_world two_lights).
  - reflexivity.
  - intros tr l. simpl. unfold never_connects. discriminate.
Defined.

(** The claim as written fails for a mesh that still holds a dropped
    link: the mesh is not connected, both candidates refuse and are let
    go, and the routine ends with the reference to the dropped link
    retained, now with the status callback set on it. *)
Lemma dropped_link_is_retained :
  is_connected dropped_mesh = false
  /\ (forall tr l, link_connect unreachable_world tr l <> ConnectReturns true)
  /\ (_async_connect_device unreachable_world dropped_mesh).1 = Ok tt
  /\ connected_bluetooth_device (_async_connect_device unreachable_world dropped_mesh).2
     = Some (set_status_callback true dropped_link)
  /\ connected_bluetooth_device (_async_connect_device unreachable_world dropped_mesh).2
     <> None.
Proof.
  split; [reflexivity|]. split; [intros tr l; discriminate|].
  split; [vm_compute; reflexivity|]. split; [vm_compute; reflexivity|].
  vm_compute. discriminate.
Qed.

(** The run of the example: both lights are tried and let go, in order. *)
Example unreachable_run :
  _async_connect_device unreachable_world two_lights
  = (Ok tt,
     logs (flat_map attempt_events (candidates (devices two_lights))) two_lights).
Proof. vm_compute. reflexivity. Qed.

(** ** Marking the registry unreachable *)

Lemma set_devices_same st : set_devices (devices st) st = st.
Proof. destruct st; reflexivity. Qed.

Lemma logs_set_devices evs items st :
  logs evs (set_devices items st) = set_devices items (logs evs st).
Proof.
  revert st. induction evs as [|e evs IH]; intros st; simpl; [reflexivity|].
  rewrite <- IH. reflexivity.
Qed.

Section DictAppend.
Context {V : Type}.
Implicit Types (d : list (Z * V)) (k : Z).

Lemma dict_get_app_fresh k d1 d2 :
  k ∉ dict_keys d1 -> dict_get k (d1 ++ d2) = dict_get k d2.
Proof.
  induction d1 as [|[k' v'] d1 IH]; simpl; intros Hk; [reflexivity|].
  apply not_elem_of_cons in Hk as [Hne Hk].
  case_decide; [congruence | exact (IH Hk)].
Qed.

Lemma dict_update_app_fresh k f d1 d2 :
  k ∉ dict_keys d1 -> dict_update k f (d1 ++ d2) = d1 ++ dict_update k f d2.
Proof.
  induction d1 as [|[k' v'] d1 IH]; simpl; intros Hk; [reflexivity|].
  apply not_elem_of_cons in Hk as [Hne Hk].
  case_decide; [congruence | f_equal; exact (IH Hk)].
Qed.

Lemma NoDup_keys_middle d1 k (v : V) d2 :
  NoDup (dict_keys (d1 ++ (k, v) :: d2)) -> k ∉ dict_keys d1.
Proof.
  unfold dict_keys. rewrite fmap_app, fmap_cons. simpl.
  intros H Hin. apply NoDup_app in H as (_ & H & _).
  apply (H k Hin). apply elem_of_cons. now left.
Qed.
End DictAppend.

Lemma disable_all_from todo done st :
  devices st = done ++ todo ->
  NoDup (dict_keys (done ++ todo)) ->
  fold_left (fun s mesh_id => disable_device mesh_id s) (dict_keys todo) st
  = set_devices (done ++ map disabled_entry todo) (logs (unknown_calls todo) st).
Proof.
  revert done st. induction todo as [|[k d] todo IH]; intros done st Hdev Hnd.
  - simpl. rewrite <- Hdev. symmetry. apply set_devices_same.
  - pose proof (NoDup_keys_middle _ _ _ _ Hnd) as Hk.
    assert (Hget : dict_get k (devices st) = Some d).
    { rewrite Hdev, dict_get_app_fresh by exact Hk. simpl. case_decide; congruence. }
    simpl fold_left. unfold disable_device at 2. rewrite Hget.
    unfold disabled_entry, unknown_calls, had_update. simpl.
    destruct (last_update d) as [t|] eqn:Ht; simpl.
    + rewrite (IH (done ++ [(k, set_last_update None d)])).
      * rewrite logs_set_devices. simpl. rewrite <- app_assoc. reflexivity.
      * simpl. rewrite Hdev, dict_update_app_fresh by exact Hk. simpl.
        case_decide; [|congruence]. now rewrite <- app_assoc.
      * rewrite <- app_assoc. simpl. unfold dict_keys in *.
        rewrite !fmap_app, !fmap_cons in *. exact Hnd.
    + rewrite (IH (done ++ [(k, d)])).
      * rewrite <- app_assoc. reflexivity.
      * rewrite Hdev, <- app_assoc. reflexivity.
      * rewrite <- app_assoc. exact Hnd.
Qed.

Lemma update_status_of_all_devices_to_disabled_eq st :
  NoDup (dict_keys (devices st)) ->
  update_status_of_all_devices_to_disabled st
  = set_devices (map disabled_entry (devices st)) (logs (unknown_calls (devices st)) st).
Proof.
  intros Hnd. unfold update_status_of_all_devices_to_disabled.
  now rewrite (disable_all_from (devices st) [] st).
Qed.

Lemma dict_get_disabled mesh_id items :
  dict_get mesh_id (map disabled_entry items)
  = (fun d => if had_update d then set_last_update None d else d)
      <$> dict_get mesh_id items.
Proof.
  induction items as [|[k d] items IH]; simpl; [reflexivity|].
  unfold disabled_entry at 1. simpl.
  destruct (had_update d) eqn:Hh; simpl; case_decide; simpl; rewrite ?Hh;
    try reflexivity; exact IH.
Qed.

(** ** A cycle without a connection *)

Section NoConnection.
Variable w : World.

Lemma update_suffix_disconnected st :
  is_connected st = false ->
  update_suffix w st
  = (Raised (UpdateFailed "No device connected"),
     if last_update_success st then st
     else update_status_of_all_devices_to_disabled st).
Proof.
  intros Hn. unfold update_suffix, bind, gets, modify, raise, ret.
  rewrite Hn. simpl. destruct (last_update_success st); reflexivity.
Qed.

Lemma async_update_data_split st0 st :
  update_prefix w st0 = (Ok tt, st) ->
  _async_update_data w st0 = update_suffix w st.
Proof. intros H. unfold _async_update_data, bind. now rewrite H. Qed.
End NoConnection.

(** C3: a health check whose broadcast request leaves no link connected
    raises [UpdateFailed].  When the previous cycle succeeded the registry
    and the trace are left as they were.  When the previous cycle failed
    too, every node with a [last_update] first gets its callback called
    with [{'state': None}] and its [last_update] cleared, in registry
    order; the nodes without one get no call and keep their entry. *)
Theorem no_connection_escalates_on_second_failure (w : World) (st0 st : AwoxMesh) :
  update_prefix w st0 = (Ok tt, st) ->
  is_connected st = false ->
  NoDup (dict_keys (devices st)) ->
  (last_update_success st = true ->
   _async_update_data w st0 = (Raised (UpdateFailed "No device connected"), st))
  /\ (last_update_success st = false ->
      _async_update_data w st0
      = (Raised (UpdateFailed "No device connected"),
         set_devices (map disabled_entry (devices st))
           (logs (unknown_calls (devices st)) st)))
  /\ (forall mesh_id device_info,
        dict_get mesh_id (devices st) = Some device_info ->
        dict_get mesh_id (map disabled_entry (devices st))
        = Some (match last_update device_info with
                | Some _ => set_last_update None device_info
                | None => device_info
                end))
  /\ (forall cb status,
        EvSubscriber cb status ∈ unknown_calls (devices st) ->
        status = state_none
        /\ exists mesh_id device_info,
             (mesh_id, device_info) ∈ devices st
             /\ callback device_info = cb
             /\ last_update device_info <> None).
Proof.
  intros Hpre Hn Hnd.
  rewrite (async_update_data_split w _ _ Hpre), (update_suffix_disconnected w _ Hn).
  split; [intros ->; reflexivity|].
  split; [intros ->; now rewrite update_status_of_all_devices_to_disabled_eq|].
  split.
  - intros mesh_id device_info Hget. rewrite dict_get_disabled, Hget. simpl.
    unfold had_update. destruct (last_update device_info); reflexivity.
  - intros cb status Hin. unfold unknown_calls in Hin.
    apply list_elem_of_In, in_flat_map in Hin as ([mesh_id device_info] & Hitem & He).
    simpl in He. unfold had_update in He.
    destruct (last_update device_info) as [t|] eqn:Ht; simpl in He; [|contradiction].
    destruct He as [He|[]]. injection He as <- <-.
    split; [reflexivity|]. exists mesh_id, device_info.
    split; [now apply list_elem_of_In|]. split; [reflexivity|congruence].
Qed.

Lemma no_connection_escalates_witness :
  update_prefix calm_world stale_lights = (Ok tt, (update_prefix calm_world stale_lights).2)
  /\ is_connected (update_prefix calm_world stale_lights).2 = false
  /\ last_update_success (update_prefix calm_world stale_lights).2 = false
  /\ added stale_lights (_async_update_data calm_world stale_lights).2
     = [EvSubscriber 11 state_none]
  /\ (_async_update_data calm_world stale_lights).1
     = Raised (UpdateFailed "No device connected").
Proof.
  split; [vm_compute; reflexivity|]. split; [reflexivity|]. split; [reflexivity|].
  destruct (no_connection_escalates_on_second_failure calm_world stale_lights
              (update_prefix calm_world stale_lights).2)
    as (_ & H & _).
  - vm_compute. reflexivity.
  - reflexivity.
  - vm_compute. apply NoDup_cons. split; [|apply NoDup_cons; split;
      [apply not_elem_of_nil | apply NoDup_nil; exact I]].
    apply not_elem_of_cons. split; [discriminate | apply not_elem_of_nil].
  - rewrite (H eq_refl). split; vm_compute; reflexivity.
Defined.

(** ** The staleness pass *)

Section Staleness.
Variable w : World.

Lemma for_each_app {A} (body : A -> M unit) l1 l2 st :
  for_each body (l1 ++ l2) st
  = match for_each body l1 st with
    | (Ok _, st1) => for_each body l2 st1
    | (Raised e, st1) => (Raised e, st1)
    end.
Proof.
  revert st. induction l1 as [|x l1 IH]; intros st; simpl; [reflexivity|].
  unfold bind. destruct (body x st) as [[[]|e] st1]; [apply IH | reflexivity].
Qed.

(** Every node of the registry gets its turn, in order, unless the
    request for an earlier one raised. *)
Lemma staleness_pass_turn before mesh_id after st :
  for_each (check_device w) (before ++ mesh_id :: after) st
  = match for_each (check_device w) before st with
    | (Ok _, st1) =>
        match check_device w mesh_id st1 with
        | (Ok _, st2) => for_each (check_device w) after st2
        | (Raised e, st2) => (Raised e, st2)
        end
    | (Raised e, st1) => (Raised e, st1)
    end.
Proof.
  rewrite for_each_app.
  destruct (for_each (check_device w) before st) as [[[]|e] st1]; [|reflexivity].
  simpl. unfold bind. destruct (check_device w mesh_id st1) as [[[]|e] st2]; reflexivity.
Qed.

Lemma disable_if_stale_marks mesh_id st device_info t :
  dict_get mesh_id (devices st) = Some device_info ->
  last_update device_info = Some t ->
  t < now st - 90000 ->
  disable_if_stale mesh_id st
  = (Ok tt,
     set_devices (dict_update mesh_id (set_last_update None) (devices st))
       (log (EvSubscriber (callback device_info) state_none) st)).
Proof.
  intros Hget Ht Hold. unfold disable_if_stale. rewrite Hget, Ht. simpl.
  apply Z.ltb_lt in Hold. now rewrite Hold.
Qed.

Lemma disable_if_stale_keeps mesh_id st device_info :
  dict_get mesh_id (devices st) = Some device_info ->
  is_before (last_update device_info) (now st - 90000) = false ->
  disable_if_stale mesh_id st = (Ok tt, st).
Proof. intros Hget Hb. unfold disable_if_stale. now rewrite Hget, Hb. Qed.
End Staleness.

(** *** A pass during which no status report arrives *)

Section QuietPass.
Variable w : World.
Hypothesis quiet_devices : forall s st, devices (concurrent w s st) = devices st.
Hypothesis quiet_now : forall s st, now st <= now (concurrent w s st).
Hypothesis quiet_alive :
  forall s st, command_tread_alive (concurrent w s st) = command_tread_alive st.
Hypothesis quiet_trace :
  forall s st, exists evs, trace (concurrent w s st) = trace st ++ evs.
Hypothesis in_time : forall seconds st, timeout_expires w seconds st = false.

Lemma request_if_silent_quiet mesh_id st device_info :
  command_tread_alive st = true ->
  dict_get mesh_id (devices st) = Some device_info ->
  exists st1,
    request_if_silent w mesh_id st = (Ok tt, st1)
    /\ devices st1 = devices st
    /\ now st <= now st1
    /\ command_tread_alive st1 = true
    /\ exists evs, trace st1 = trace st ++ evs.
Proof.
  intros Halive Hget. unfold request_if_silent. rewrite Hget.
  destruct (is_none (last_update device_info)
            || is_before (last_update device_info) (now st - 60000))%bool.
  - unfold bind, request_status, with_timeout, _async_add_command_to_queue, sleep,
      modify.
    rewrite Halive, in_time. simpl.
    eexists. split; [reflexivity|].
    rewrite !quiet_devices, !quiet_alive. simpl.
    split; [reflexivity|]. split; [|split; [exact Halive|]].
    + etransitivity; [|apply quiet_now]. etransitivity; [|apply quiet_now].
      simpl. lia.
    + destruct (quiet_trace
                  (AwaitCommand
                     {| command := "requestStatus";
                        params := Keywords [("dest"%string, mesh_id);
                                            ("withResponse"%string, 1)];
                        cmd_callback := issued st; allow_to_fail := true |})
                  (set_queue
                     (queue st
                      ++ [{| command := "requestStatus";
                             params := Keywords [("dest"%string, mesh_id);
                                                 ("withResponse"%string, 1)];
                             cmd_callback := issued st; allow_to_fail := true |}])
                     (set_issued (S (issued st)) st))) as [evs1 H1].
      match goal with
      | |- context [concurrent w (Sleep 500) ?s] =>
          destruct (quiet_trace (Sleep 500) s) as [evs2 H2]
      end.
      exists (evs1 ++ evs2). rewrite H2, H1. simpl. now rewrite app_assoc.
  - exists st. repeat split; try reflexivity; try lia; try assumption.
    exists []. now rewrite app_nil_r.
Qed.

Lemma check_device_quiet mesh_id st device_info :
  command_tread_alive st = true ->
  dict_get mesh_id (devices st) = Some device_info ->
  exists st2,
    check_device w mesh_id st = (Ok tt, st2)
    /\ command_tread_alive st2 = true
    /\ now st <= now st2
    /\ (exists evs, trace st2 = trace st ++ evs)
    /\ (forall other, other <> mesh_id ->
          dict_get other (devices st2) = dict_get other (devices st))
    /\ (is_before (last_update device_info) (now st - 90000) = true ->
        dict_get mesh_id (devices st2) = Some (set_last_update None device_info)
        /\ EvSubscriber (callback device_info) state_none ∈ trace st2)
    /\ (last_update device_info = None ->
        dict_get mesh_id (devices st2) = Some device_info).
Proof.
  intros Halive Hget.
  destruct (request_if_silent_quiet mesh_id st device_info Halive Hget)
    as (st1 & Hreq & Hdev & Hnow & Hal & evs & Htr).
  unfold check_device, bind. rewrite Hreq.
  unfold disable_if_stale. rewrite Hdev, Hget.
  destruct (is_before (last_update device_info) (now st1 - 90000)) eqn:Hb.
  - eexists. split; [reflexivity|]. simpl.
    split; [exact Hal|]. split; [exact Hnow|].
    split; [exists (evs ++ [EvSubscriber (callback device_info) state_none]);
            rewrite Htr; now rewrite app_assoc|].
    split; [intros other Hne; rewrite Hdev; apply dict_get_update_ne; congruence|].
    split.
    + intros _. rewrite Hdev, dict_get_update_eq, Hget. split; [reflexivity|].
      apply elem_of_app. right. apply elem_of_cons. now left.
    + intros Hnone. rewrite Hnone in Hb. discriminate.
  - exists st1. split; [reflexivity|].
    split; [exact Hal|]. split; [exact Hnow|]. split; [eauto|].
    split; [intros other _; now rewrite Hdev|]. split.
    + intros Hold. exfalso. unfold is_before in *.
      destruct (last_update device_info) as [t|]; [|discriminate].
      apply Z.ltb_lt in Hold. apply Z.ltb_ge in Hb. lia.
    + intros _. now rewrite Hdev.
Qed.

(** With every request completing and no report arriving, the pass marks
    every node whose [last_update] was more than 90 s old when the pass
    began, and leaves the nodes that never reported as they are. *)
Lemma quiet_pass_marks_stale ids st :
  command_tread_alive st = true ->
  NoDup ids ->
  (forall mesh_id, mesh_id ∈ ids -> is_Some (dict_get mesh_id (devices st))) ->
  exists st',
    for_each (check_device w) ids st = (Ok tt, st')
    /\ now st <= now st'
    /\ (exists evs, trace st' = trace st ++ evs)
    /\ (forall other, other ∉ ids ->
          dict_get other (devices st') = dict_get other (devices st))
    /\ (forall mesh_id device_info,
          mesh_id ∈ ids ->
          dict_get mesh_id (devices st) = Some device_info ->
          (is_before (last_update device_info) (now st - 90000) = true ->
           dict_get mesh_id (devices st') = Some (set_last_update None device_info)
           /\ EvSubscriber (callback device_info) state_none ∈ trace st')
          /\ (last_update device_info = None ->
              dict_get mesh_id (devices st') = Some device_info)).
Proof.
  revert st. induction ids as [|mesh_id ids IH]; intros st Halive Hnd Hknown.
  - exists st. split; [reflexivity|]. split; [lia|].
    split; [exists []; now rewrite app_nil_r|]. split; [reflexivity|].
    intros mesh_id device_info Hin. apply elem_of_nil in Hin. contradiction.
  - apply NoDup_cons in Hnd as [Hfresh Hnd].
    destruct (Hknown mesh_id ltac:(apply elem_of_cons; now left)) as [d Hd].
    destruct (check_device_quiet mesh_id st d Halive Hd)
      as (st2 & Hc & Hal2 & Hnow2 & (evs2 & Htr2) & Hother2 & Hold2 & Hnone2).
    destruct (IH st2 Hal2 Hnd) as (st' & Hf & Hnow' & (evs' & Htr') & Hother' & Hids').
    { intros k Hk. rewrite Hother2.
      - apply Hknown. apply elem_of_cons. now right.
      - intros ->. contradiction. }
    exists st'. simpl. unfold bind. rewrite Hc.
    split; [exact Hf|]. split; [lia|].
    split; [exists (evs2 ++ evs'); rewrite Htr', Htr2; now rewrite app_assoc|].
    split.
    { intros other Hn. apply not_elem_of_cons in Hn as [Hne Hn].
      rewrite Hother' by exact Hn. now apply Hother2. }
    intros k dk Hk Hgk. apply elem_of_cons in Hk as [->|Hk].
    + assert (d = dk) by congruence. subst dk.
      rewrite (Hother' mesh_id Hfresh). split.
      * intros Hold. destruct (Hold2 Hold) as [Hg Hev]. split; [exact Hg|].
        rewrite Htr'. apply elem_of_app. now left.
      * exact Hnone2.
    + assert (Hne : k <> mesh_id) by (intros ->; contradiction).
      destruct (Hids' k dk Hk) as [Hold' Hnone'];
        [rewrite Hother2 by exact Hne; exact Hgk|].
      split; [|exact Hnone'].
      intros Hold. apply Hold'. unfold is_before in *.
      destruct (last_update dk) as [t|]; [|discriminate].
      apply Z.ltb_lt in Hold. apply Z.ltb_lt. lia.
Qed.
End QuietPass.

Lemma dict_get_known {V} k (d : list (Z * V)) :
  k ∈ dict_keys d -> is_Some (dict_get k d).
Proof.
  induction d as [|[k' v'] d IH]; simpl; intros Hin.
  - apply elem_of_nil in Hin. contradiction.
  - case_decide; [eauto|]. apply IH.
    unfold dict_keys in Hin. rewrite ?fmap_cons in Hin. simpl in Hin.
    apply elem_of_cons in Hin as [->|Hin]; [congruence | exact Hin].
Qed.

Lemma dict_get_key {V} k (v : V) (d : list (Z * V)) :
  dict_get k d = Some v -> k ∈ dict_keys d.
Proof.
  intros H. apply dict_get_elem_of in H.
  apply (list_elem_of_fmap_2 fst) in H. exact H.
Qed.

(** C4: in the staleness pass of a connected cycle, a node whose
    [last_update] is more than 90 s in the past when the pass gives its
    verdict on it is marked unreachable: its callback is called with
    [{'state': None}] and its [last_update] becomes [None]; a node whose
    [last_update] is within the last 60 s at its turn is left as it is:
    no request is queued for it, no callback is called, nothing changes.
    In a pass during which every request completes and no status report
    arrives, every node whose [last_update] was more than 90 s old when
    the pass began ends marked unreachable. *)
Theorem stale_node_marked_unreachable (w : World) (mesh_id : Z) (st : AwoxMesh) :
  (forall st1 device_info t,
     request_if_silent w mesh_id st = (Ok tt, st1) ->
     dict_get mesh_id (devices st1) = Some device_info ->
     last_update device_info = Some t ->
     t < now st1 - 90000 ->
     check_device w mesh_id st
     = (Ok tt,
        set_devices (dict_update mesh_id (set_last_update None) (devices st1))
          (log (EvSubscriber (callback device_info) state_none) st1))
     /\ added st1 (check_device w mesh_id st).2
        = [EvSubscriber (callback device_info) state_none]
     /\ dict_get mesh_id (devices (check_device w mesh_id st).2)
        = Some (set_last_update None device_info))
  /\ (forall device_info t,
        dict_get mesh_id (devices st) = Some device_info ->
        last_update device_info = Some t ->
        now st - 60000 <= t ->
        check_device w mesh_id st = (Ok tt, st))
  /\ ((forall s st', devices (concurrent w s st') = devices st') ->
      (forall s st', now st' <= now (concurrent w s st')) ->
      (forall s st',
         command_tread_alive (concurrent w s st') = command_tread_alive st') ->
      (forall s st', exists evs, trace (concurrent w s st') = trace st' ++ evs) ->
      (forall seconds st', timeout_expires w seconds st' = false) ->
      command_tread_alive st = true ->
      NoDup (dict_keys (devices st)) ->
      exists st',
        for_each (check_device w) (dict_keys (devices st)) st = (Ok tt, st')
        /\ forall device_info t,
             dict_get mesh_id (devices st) = Some device_info ->
             last_update device_info = Some t ->
             t < now st - 90000 ->
             dict_get mesh_id (devices st') = Some (set_last_update None device_info)
             /\ EvSubscriber (callback device_info) state_none ∈ trace st').
Proof.
  split; [|split].
  - intros st1 device_info t Hreq Hget Ht Hold.
    assert (Hc : check_device w mesh_id st
                 = (Ok tt,
                    set_devices
                      (dict_update mesh_id (set_last_update None) (devices st1))
                      (log (EvSubscriber (callback device_info) state_none) st1))).
    { unfold check_device, bind. rewrite Hreq.
      now apply disable_if_stale_marks with (t := t). }
    rewrite Hc. split; [reflexivity|]. simpl. split.
    + now apply added_eq.
    + now rewrite dict_get_update_eq, Hget.
  - intros device_info t Hget Ht Hnew.
    unfold check_device, bind, request_if_silent. rewrite Hget, Ht. simpl.
    assert (H60 : (t <? now st - 60000) = false) by (apply Z.ltb_ge; lia).
    rewrite H60. apply disable_if_stale_keeps with (device_info := device_info);
      [exact Hget|].
    rewrite Ht. simpl. apply Z.ltb_ge. lia.
  - intros Hdev Hnow Halive Htrace Htime Hal Hnd.
    destruct (quiet_pass_marks_stale w Hdev Hnow Halive Htrace Htime
                (dict_keys (devices st)) st Hal Hnd)
      as (st' & Hpass & _ & _ & _ & Hids).
    { intros k Hk. now apply dict_get_known. }
    exists st'. split; [exact Hpass|].
    intros device_info t Hget Ht Hold.
    destruct (Hids mesh_id device_info (dict_get_key _ _ _ Hget) Hget) as [H _].
    apply H. rewrite Ht. simpl. now apply Z.ltb_lt.
Qed.

Lemma stale_node_marked_unreachable_witness :
  dict_get 1 (devices (check_device calm_world 1 aging_lights).2)
  = Some {| mac := Some "a4:c1:38:00:00:01"%string; name := "desk"%string;
            callback := 11%nat; last_update := None; rssi := None |}
  /\ check_device calm_world 2 aging_lights = (Ok tt, aging_lights)
  /\ exists st',
       for_each (check_device calm_world) (dict_keys (devices aging_lights))
         aging_lights = (Ok tt, st')
       /\ forall device_info t,
            dict_get 1 (devices aging_lights) = Some device_info ->
            last_update device_info = Some t ->
            t < now aging_lights - 90000 ->
            dict_get 1 (devices st') = Some (set_last_update None device_info)
            /\ EvSubscriber (callback device_info) state_none ∈ trace st'.
Proof.
  split; [|split].
  - destruct (stale_node_marked_unreachable calm_world 1 aging_lights) as [H _].
    destruct (H (request_if_silent calm_world 1 aging_lights).2
                {| mac := Some "a4:c1:38:00:00:01"%string; name := "desk"%string;
                   callback := 11%nat; last_update := Some 909000; rssi := None |}
                909000) as (_ & _ & H1);
      [vm_compute; reflexivity | vm_compute; reflexivity | reflexivity
      | vm_compute; reflexivity |].
    exact H1.
  - destruct (stale_node_marked_unreachable calm_world 2 aging_lights) as (_ & H & _).
    apply (H {| mac := Some "a4:c1:38:00:00:02"%string; name := "hall"%string;
                callback := 12%nat; last_update := Some 970000; rssi := None |}
             970000);
      [vm_compute; reflexivity | reflexivity | vm_compute; discriminate].
  - destruct (stale_node_marked_unreachable calm_world 1 aging_lights) as (_ & _ & H).
    apply H.
    + reflexivity.
    + intros s st'. simpl. lia.
    + reflexivity.
    + intros s st'. exists []. simpl. now rewrite app_nil_r.
    + reflexivity.
    + reflexivity.
    + apply (bool_decide_unpack _). vm_compute. exact I.
Defined.

(** The cycle of the specification's example on [aging_lights]: the light
    heard 91 s ago is reported unreachable, the one heard 30 s ago keeps
    its entry, and the cycle returns the snapshot. *)
Example aging_cycle :
  (_async_update_data calm_world aging_lights).1
  = Ok {| last_rssi_check := Some 1000000; last_connection := Some 999000;
          connected_device := Some "desk"%string |}
  /\ added aging_lights (_async_update_data calm_world aging_lights).2
     = [EvListeners; EvSubscriber 11 state_none]
  /\ last_update
     <$> dict_get 1 (devices (_async_update_data calm_world aging_lights).2)
     = Some None
  /\ last_update
     <$> dict_get 2 (devices (_async_update_data calm_world aging_lights).2)
     = Some (Some 970000).
Proof. repeat split; vm_compute; reflexivity. Qed.

(** A node that answers the targeted request is not marked, however old
    its [last_update] was at its turn: the verdict reads the refreshed
    value. *)
Example answered_request_refreshes :
  (check_device answering_world 1 aging_lights).1 = Ok tt
  /\ added aging_lights (check_device answering_world 1 aging_lights).2
     = [EvSubscriber 11 {| status_mesh_id := Some 1; status_state := Some 1 |}]
  /\ last_update
     <$> dict_get 1 (devices (check_device answering_world 1 aging_lights).2)
     = Some (Some 1000200).
Proof. repeat split; vm_compute; reflexivity. Qed.

(** ** Sorting by signal strength *)

Section SortFacts.
Context {A : Type} (key : A -> Z).

Lemma insert_desc_perm x l : Permutation (insert_desc key x l) (x :: l).
Proof.
  induction l as [|y l IH]; simpl; [reflexivity|].
  destruct (key y <=? key x); [reflexivity|].
  rewrite IH. apply perm_swap.
Qed.

Lemma sorted_reverse_perm l : Permutation (sorted_reverse key l) l.
Proof.
  induction l as [|x l IH]; simpl; [reflexivity|].
  rewrite insert_desc_perm. now apply perm_skip.
Qed.

Lemma insert_desc_hd x y l :
  key x <= key y ->
  HdRel (fun a b => key b <= key a) y l ->
  HdRel (fun a b => key b <= key a) y (insert_desc key x l).
Proof.
  intros Hxy Hl. destruct l as [|z l]; simpl.
  - now constructor.
  - destruct (key z <=? key x); constructor; [exact Hxy|].
    now inversion Hl.
Qed.

Lemma insert_desc_sorted x l :
  Sorted (fun a b => key b <= key a) l ->
  Sorted (fun a b => key b <= key a) (insert_desc key x l).
Proof.
  induction l as [|y l IH]; simpl; intros Hs.
  - repeat constructor.
  - destruct (key y <=? key x) eqn:Hle.
    + constructor; [exact Hs|]. constructor. now apply Z.leb_le.
    + apply Z.leb_gt in Hle. inversion Hs as [|? ? Hs' Hhd]; subst.
      constructor; [now apply IH|]. apply insert_desc_hd; [lia | exact Hhd].
Qed.

Lemma sorted_reverse_sorted l :
  StronglySorted (fun a b => key b <= key a) (sorted_reverse key l).
Proof.
  apply Sorted_StronglySorted.
  - intros a b c Hab Hbc. lia.
  - induction l as [|x l IH]; simpl; [constructor|]. now apply insert_desc_sorted.
Qed.

(** The sort is stable, as Python's is: the entries of any one key come
    out in the order they went in. *)
Lemma insert_desc_stable c x l :
  List.filter (fun y => key y =? c) (insert_desc key x l)
  = List.filter (fun y => key y =? c) (x :: l).
Proof.
  induction l as [|y l IH]; simpl; [reflexivity|].
  destruct (key y <=? key x) eqn:Hle; [reflexivity|].
  apply Z.leb_gt in Hle. simpl in *. rewrite IH.
  destruct (key x =? c) eqn:Hx; [|reflexivity].
  apply Z.eqb_eq in Hx.
  assert (Hy : (key y =? c) = false) by (apply Z.eqb_neq; lia).
  now rewrite Hy.
Qed.

Lemma strongly_sorted_pair l1 a l2 b l3 :
  StronglySorted (fun a b => key b <= key a) (l1 ++ a :: l2 ++ b :: l3) ->
  key b <= key a.
Proof.
  induction l1 as [|x l1 IH]; simpl; intros Hs.
  - apply StronglySorted_inv in Hs as [_ Hall].
    apply Forall_app in Hall as [_ Hall].
    apply Forall_cons in Hall as [Hb _]. exact Hb.
  - apply StronglySorted_inv in Hs as [Hs _]. exact (IH Hs).
Qed.

Lemma sorted_reverse_stable c l :
  List.filter (fun y => key y =? c) (sorted_reverse key l)
  = List.filter (fun y => key y =? c) l.
Proof.
  induction l as [|x l IH]; simpl; [reflexivity|].
  rewrite insert_desc_stable. simpl. now rewrite IH.
Qed.
End SortFacts.

Section ScanFacts.
Variable w : World.

Lemma dict_of_items_from (items acc : list (Z * DeviceInfo)) :
  NoDup (dict_keys (acc ++ items)) ->
  fold_left (fun d item => dict_set item.1 item.2 d) items acc = acc ++ items.
Proof.
  revert acc. induction items as [|[k v] items IH]; intros acc Hnd; simpl.
  - now rewrite app_nil_r.
  - rewrite dict_set_fresh by (eapply NoDup_keys_middle; exact Hnd).
    rewrite IH; rewrite <- app_assoc; [reflexivity | exact Hnd].
Qed.

Lemma dict_of_items_nodup items :
  NoDup (dict_keys items) -> dict_of_items items = items.
Proof. intros Hnd. unfold dict_of_items. now rewrite dict_of_items_from. Qed.

Lemma ranked_entry_key found item : (ranked_entry found item).1 = item.1.
Proof. unfold ranked_entry. destruct (mac item.2); reflexivity. Qed.

Lemma ranked_keys found items :
  dict_keys (map (ranked_entry found) items) = dict_keys items.
Proof.
  unfold dict_keys. induction items as [|item items IH]; simpl; [reflexivity|].
  rewrite ?fmap_cons. simpl. rewrite ranked_entry_key. f_equal. exact IH.
Qed.

Lemma assign_all_from found todo done st :
  devices st = done ++ todo ->
  NoDup (dict_keys (done ++ todo)) ->
  Forall (fun item => mac item.2 <> None) todo ->
  for_each (assign_rssi found) (dict_keys todo) st
  = (Ok tt, set_devices (done ++ map (ranked_entry found) todo) st).
Proof.
  revert done st. induction todo as [|[k d] todo IH]; intros done st Hdev Hnd Hmac.
  - simpl. unfold ret. rewrite <- Hdev, set_devices_same. reflexivity.
  - pose proof (NoDup_keys_middle _ _ _ _ Hnd) as Hk.
    apply Forall_cons in Hmac as [Hd Hmac]. simpl in Hd.
    destruct (mac d) as [mac_|] eqn:Hm; [clear Hd | congruence].
    assert (Hget : dict_get k (devices st) = Some d).
    { rewrite Hdev, dict_get_app_fresh by exact Hk. simpl. case_decide; congruence. }
    change (dict_keys ((k, d) :: todo)) with (k :: dict_keys todo).
    simpl for_each. unfold bind, assign_rssi at 1. rewrite Hget, Hm.
    rewrite (IH (done ++ [(k, set_rssi (Some (scan_rank found mac_)) d)])).
    + simpl. unfold ranked_entry at 2. simpl. rewrite Hm, <- app_assoc. reflexivity.
    + simpl. rewrite Hdev, dict_update_app_fresh by exact Hk. simpl.
      case_decide; [|congruence]. now rewrite <- app_assoc.
    + rewrite <- app_assoc. simpl. unfold dict_keys in *.
      rewrite !fmap_app, !fmap_cons in *. exact Hnd.
    + exact Hmac.
Qed.

Lemma ranked_has_rssi found items :
  Forall (fun item => mac item.2 <> None) items ->
  forallb has_rssi (map (ranked_entry found) items) = true.
Proof.
  induction 1 as [|[k d] items Hd _ IH]; simpl; [reflexivity|].
  rewrite IH, andb_true_r. unfold ranked_entry, has_rssi. simpl in *.
  destruct (mac d); [reflexivity | congruence].
Qed.

Lemma devices_set_devices items st : devices (set_devices items st) = items.
Proof. reflexivity. Qed.

Lemma set_devices_twice items items' st :
  set_devices items' (set_devices items st) = set_devices items' st.
Proof. reflexivity. Qed.

Lemma update_mesh_state_set_devices items st :
  _async_update_mesh_state (set_devices items st)
  = set_devices items (_async_update_mesh_state st).
Proof.
  unfold _async_update_mesh_state, is_connected. simpl.
  destruct (negb _); reflexivity.
Qed.

Lemma async_get_devices_rssi_eq found st :
  find_devices w (trace st) = Ok found ->
  NoDup (dict_keys (devices st)) ->
  Forall (fun item => mac item.2 <> None) (devices st) ->
  _async_get_devices_rssi w st
  = (Ok tt,
     set_devices
       (sorted_reverse rssi_key (map (ranked_entry found) (devices st)))
       (_async_update_mesh_state
          (set_state (set_last_rssi_check (Some (now st)) (state st)) st))).
Proof.
  intros Hfind Hnd Hmac. unfold _async_get_devices_rssi. rewrite Hfind.
  unfold bind at 1.
  rewrite (assign_all_from found (devices st) [] st eq_refl Hnd Hmac).
  unfold bind, modify. cbv beta iota.
  change (set_state
            (set_last_rssi_check
               (Some (now (set_devices ([] ++ map (ranked_entry found) (devices st)) st)))
               (state (set_devices ([] ++ map (ranked_entry found) (devices st)) st)))
            (set_devices ([] ++ map (ranked_entry found) (devices st)) st))
    with (set_devices (map (ranked_entry found) (devices st))
            (set_state (set_last_rssi_check (Some (now st)) (state st)) st)).
  rewrite update_mesh_state_set_devices.
  unfold sort_devices. rewrite devices_set_devices.
  rewrite (ranked_has_rssi found _ Hmac), set_devices_twice.
  rewrite dict_of_items_nodup; [reflexivity|].
  unfold dict_keys. rewrite (sorted_reverse_perm rssi_key).
  fold (dict_keys (map (ranked_entry found) (devices st))).
  now rewrite ranked_keys.
Qed.
End ScanFacts.

(** C6: a scan that returns gives every node its rank: the reading the
    scanner reported for the node's address in upper case, or -99999 when
    the node was seen without a reading, or -999999 when it was not seen;
    and it leaves the registry in descending order of rank, with the same
    nodes.  With readings above -99999, as RSSI values in dBm are, the
    order of the registry is the order of signal strength: of two nodes
    seen with a reading the one that comes first has the reading that is
    at least as high, no node with a reading comes after a node seen
    without one, and after a node that was not seen come only nodes that
    were not seen. *)
Theorem rssi_scan_orders_registry
    (w : World) (st : AwoxMesh) (found : gmap string (option Z)) :
  find_devices w (trace st) = Ok found ->
  NoDup (dict_keys (devices st)) ->
  Forall (fun item => mac item.2 <> None) (devices st) ->
  (forall address value, found !! address = Some (Some value) -> NO_RSSI < value) ->
  exists st',
    _async_get_devices_rssi w st = (Ok tt, st')
    /\ StronglySorted by_rank_desc (devices st')
    /\ Permutation (devices st') (map (ranked_entry found) (devices st))
    /\ (forall mesh_id device_info,
          (mesh_id, device_info) ∈ devices st' ->
          exists mac_,
            mac device_info = Some mac_
            /\ rssi device_info = Some (scan_rank found mac_)
            /\ (forall value,
                  found !! upper mac_ = Some (Some value) ->
                  rssi device_info = Some value)
            /\ (found !! upper mac_ = Some None ->
                rssi device_info = Some (-99999))
            /\ (found !! upper mac_ = None ->
                rssi device_info = Some (-999999)))
    /\ (forall before a between b after address_a address_b,
          devices st' = before ++ a :: between ++ b :: after ->
          mac a.2 = Some address_a ->
          mac b.2 = Some address_b ->
          (forall value_a value_b,
             found !! upper address_a = Some (Some value_a) ->
             found !! upper address_b = Some (Some value_b) ->
             value_b <= value_a)
          /\ (found !! upper address_a = Some None ->
              forall value_b, found !! upper address_b <> Some (Some value_b))
          /\ (found !! upper address_a = None ->
              found !! upper address_b = None))
    /\ (forall seen silent unseen value,
          found !! upper seen = Some (Some value) ->
          found !! upper silent = Some None ->
          found !! upper unseen = None ->
          scan_rank found unseen < scan_rank found silent
          /\ scan_rank found silent < scan_rank found seen)
    /\ last_rssi_check (state st') = Some (now st).
Proof.
  intros Hfind Hnd Hmac Hrange.
  eexists. split; [apply (async_get_devices_rssi_eq w found st Hfind Hnd Hmac)|].
  rewrite devices_set_devices.
  assert (Hentry : forall mesh_id device_info,
            (mesh_id, device_info)
              ∈ sorted_reverse rssi_key (map (ranked_entry found) (devices st)) ->
            exists mac_,
              mac device_info = Some mac_
              /\ rssi device_info = Some (scan_rank found mac_)).
  { intros mesh_id device_info Hin.
    rewrite (sorted_reverse_perm rssi_key) in Hin.
    apply list_elem_of_fmap_1 in Hin as ([k d] & Heq & Hitem).
    rewrite Forall_forall in Hmac. specialize (Hmac (k, d)).
    specialize (Hmac Hitem). simpl in Hmac.
    unfold ranked_entry in Heq. simpl in Heq.
    destruct (mac d) as [mac_|] eqn:Hm; [|congruence].
    injection Heq as -> ->. exists mac_. simpl. auto. }
  split; [apply (sorted_reverse_sorted rssi_key)|].
  split; [apply sorted_reverse_perm|].
  split; [|split; [|split]].
  - intros mesh_id device_info Hin.
    destruct (Hentry mesh_id device_info Hin) as (mac_ & Hm & Hr).
    exists mac_. split; [exact Hm|]. split; [exact Hr|].
    rewrite Hr. unfold scan_rank.
    split; [intros value ->; reflexivity|].
    split; intros ->; reflexivity.
  - intros before a between b after address_a address_b Horder Ha Hb.
    pose proof (sorted_reverse_sorted rssi_key
                  (map (ranked_entry found) (devices st))) as Hsorted.
    assert (Hina : a ∈ sorted_reverse rssi_key
                         (map (ranked_entry found) (devices st)))
      by (rewrite Horder; apply elem_of_app; right; apply elem_of_cons; now left).
    assert (Hinb : b ∈ sorted_reverse rssi_key
                         (map (ranked_entry found) (devices st)))
      by (rewrite Horder; apply elem_of_app; right; apply elem_of_cons; right;
          apply elem_of_app; right; apply elem_of_cons; now left).
    rewrite Horder in Hsorted.
    apply (strongly_sorted_pair rssi_key) in Hsorted.
    destruct a as [ka da], b as [kb db]. cbn [snd] in Ha, Hb.
    destruct (Hentry ka da Hina) as (ma & Hma & Hra).
    destruct (Hentry kb db Hinb) as (mb & Hmb & Hrb).
    assert (ma = address_a) by congruence. assert (mb = address_b) by congruence.
    subst ma mb. unfold rssi_key in Hsorted. cbn [snd] in Hsorted.
    rewrite Hra, Hrb in Hsorted. cbn [default from_option] in Hsorted.
    unfold id, scan_rank, NO_RSSI, NOT_FOUND in *.
    split; [|split].
    + intros va vb Hva Hvb. rewrite Hva, Hvb in Hsorted. exact Hsorted.
    + intros Hsa vb Hvb. rewrite Hsa, Hvb in Hsorted. cbv beta iota in Hsorted.
      specialize (Hrange _ _ Hvb). lia.
    + intros Hna. rewrite Hna in Hsorted.
      destruct (found !! upper address_b) as [[vb|]|] eqn:Hvb;
        cbv beta iota in Hsorted; [| |reflexivity].
      * specialize (Hrange _ _ Hvb). lia.
      * lia.
  - intros seen silent unseen value Hseen Hsilent Hunseen.
    unfold scan_rank. rewrite Hseen, Hsilent, Hunseen.
    specialize (Hrange _ _ Hseen). unfold NOT_FOUND, NO_RSSI in *. lia.
  - unfold _async_update_mesh_state, is_connected. simpl.
    destruct (negb _); reflexivity.
Qed.

Lemma rssi_scan_orders_registry_witness :
  exists st',
    _async_get_devices_rssi abc_world abcd_mesh = (Ok tt, st')
    /\ StronglySorted by_rank_desc (devices st')
    /\ Permutation (devices st') (map (ranked_entry abc_scan) (devices abcd_mesh))
    /\ (forall mesh_id device_info,
          (mesh_id, device_info) ∈ devices st' ->
          exists mac_,
            mac device_info = Some mac_
            /\ rssi device_info = Some (scan_rank abc_scan mac_)
            /\ (forall value,
                  abc_scan !! upper mac_ = Some (Some value) ->
                  rssi device_info = Some value)
            /\ (abc_scan !! upper mac_ = Some None ->
                rssi device_info = Some (-99999))
            /\ (abc_scan !! upper mac_ = None ->
                rssi device_info = Some (-999999)))
    /\ (forall before a between b after address_a address_b,
          devices st' = before ++ a :: between ++ b :: after ->
          mac a.2 = Some address_a ->
          mac b.2 = Some address_b ->
          (forall value_a value_b,
             abc_scan !! upper address_a = Some (Some value_a) ->
             abc_scan !! upper address_b = Some (Some value_b) ->
             value_b <= value_a)
          /\ (abc_scan !! upper address_a = Some None ->
              forall value_b, abc_scan !! upper address_b <> Some (Some value_b))
          /\ (abc_scan !! upper address_a = None ->
              abc_scan !! upper address_b = None))
    /\ (forall seen silent unseen value,
          abc_scan !! upper seen = Some (Some value) ->
          abc_scan !! upper silent = Some None ->
          abc_scan !! upper unseen = None ->
          scan_rank abc_scan unseen < scan_rank abc_scan silent
          /\ scan_rank abc_scan silent < scan_rank abc_scan seen)
    /\ last_rssi_check (state st') = Some (now abcd_mesh).
Proof.
  apply (rssi_scan_orders_registry abc_world abcd_mesh abc_scan).
  - reflexivity.
  - apply (bool_decide_unpack _). vm_compute. exact I.
  - repeat constructor; discriminate.
  - intros address value H. unfold abc_scan in H.
    rewrite lookup_insert in H. case_decide; [injection H as <-; reflexivity|].
    rewrite lookup_insert in H. case_decide; [injection H as <-; reflexivity|].
    rewrite lookup_insert in H. case_decide; [discriminate|].
    rewrite lookup_empty in H. discriminate.
Defined.

(** The scan of the specification: A at -50 dBm, B not seen, C at -70 dBm
    gives the candidate order A, C, B, each node with the rank the scan
    gave it; a node seen without a reading goes between the nodes with a
    reading and the nodes not seen. *)
Example rssi_order_abc :
  map (fun item => (item.1, name item.2, rssi item.2))
    (devices (_async_get_devices_rssi abc_world abc_mesh).2)
  = [(1, "A"%string, Some (-50)); (3, "C"%string, Some (-70));
     (2, "B"%string, Some (-999999))]
  /\ map (fun item => (item.1, name item.2, rssi item.2))
       (devices (_async_get_devices_rssi abc_world abcd_mesh).2)
     = [(1, "A"%string, Some (-50)); (3, "C"%string, Some (-70));
        (4, "D"%string, Some (-99999)); (2, "B"%string, Some (-999999))].
Proof. split; vm_compute; reflexivity. Qed.

(** The order follows the readings, not the order of registration: with
    C at -40 dBm and A at -50 dBm, C comes first. *)
Example rssi_order_by_reading :
  map (fun item => (name item.2, rssi item.2))
    (devices (_async_get_devices_rssi cab_world abc_mesh).2)
  = [("C"%string, Some (-40)); ("A"%string, Some (-50));
     ("B"%string, Some (-999999))].
Proof. vm_compute. reflexivity. Qed.

(** * Further properties of the module *)

(** ** The registry keeps its ids unique *)

Lemma dict_get_none_fresh {V} k (d : list (Z * V)) :
  dict_get k d = None -> k ∉ dict_keys d.
Proof.
  intros Hnone Hin. apply dict_get_known in Hin as [v Hv]. congruence.
Qed.

Lemma dict_keys_set {V} k (v : V) (d : list (Z * V)) :
  dict_keys (dict_set k v d)
  = if dict_get k d is Some _ then dict_keys d else dict_keys d ++ [k].
Proof.
  destruct (dict_get k d) as [old|] eqn:Hget.
  - apply dict_keys_set_present. eauto.
  - rewrite dict_set_fresh by now apply dict_get_none_fresh.
    unfold dict_keys. now rewrite fmap_app.
Qed.

Lemma candidates_app items1 items2 :
  candidates (items1 ++ items2) = candidates items1 ++ candidates items2.
Proof.
  induction items1 as [|[k d] items1 IH]; simpl; [reflexivity|].
  destruct (mac d); simpl; now rewrite IH.
Qed.

(** X1: registration keeps the ids of the registry unique, whatever id is
    registered; a new id is entered after all the others, and the entry
    read back under the id is the one registered. *)
Theorem register_device_keeps_ids_unique (mesh_id : Z) (mac_ : option string)
    (name_ : string) (callback_func : nat) (st : AwoxMesh) :
  NoDup (dict_keys (devices st)) ->
  NoDup (dict_keys (devices (register_device mesh_id mac_ name_ callback_func st)))
  /\ dict_get mesh_id (devices (register_device mesh_id mac_ name_ callback_func st))
     = Some {| mac := mac_; name := name_; callback := callback_func;
               last_update := None; rssi := None |}
  /\ (dict_get mesh_id (devices st) = None ->
      devices (register_device mesh_id mac_ name_ callback_func st)
      = devices st
          ++ [(mesh_id, {| mac := mac_; name := name_; callback := callback_func;
                           last_update := None; rssi := None |})]).
Proof.
  intros Hnd. unfold register_device. simpl.
  split; [|split].
  - rewrite dict_keys_set.
    destruct (dict_get mesh_id (devices st)) as [old|] eqn:Hget; [exact Hnd|].
    apply NoDup_app. split; [exact Hnd|]. split.
    + intros k Hk Hin. apply list_elem_of_singleton in Hin as ->.
      apply dict_get_none_fresh in Hget. contradiction.
    + apply NoDup_singleton.
  - apply dict_get_set_eq.
  - intros Hnone. apply dict_set_fresh. now apply dict_get_none_fresh.
Qed.

Lemma register_device_keeps_ids_unique_witness :
  NoDup (dict_keys (devices two_lights))
  /\ NoDup (dict_keys (devices (register_device 7 None "attic"%string 17%nat
                                  two_lights)))
  /\ dict_keys (devices (register_device 7 None "attic"%string 17%nat two_lights))
     = [1; 2; 7].
Proof.
  assert (Hnd : NoDup (dict_keys (devices two_lights)))
    by (apply (bool_decide_unpack _); vm_compute; exact I).
  split; [exact Hnd|].
  destruct (register_device_keeps_ids_unique 7 None "attic"%string 17%nat
              two_lights Hnd) as (H & _ & _).
  split; [exact H | reflexivity].
Defined.

(** X2: a node registered under a new id is the last candidate of the
    connection routine when it has an address, and no candidate at all
    when it has none; the candidates before it are unchanged. *)
Theorem registered_node_is_last_candidate (mesh_id : Z) (mac_ : option string)
    (name_ : string) (callback_func : nat) (st : AwoxMesh) :
  dict_get mesh_id (devices st) = None ->
  candidates (devices (register_device mesh_id mac_ name_ callback_func st))
  = candidates (devices st)
      ++ match mac_ with
         | Some address => [new_link address mesh_id]
         | None => []
         end.
Proof.
  intros Hnone. unfold register_device. simpl.
  rewrite dict_set_fresh by now apply dict_get_none_fresh.
  rewrite candidates_app. simpl. destruct mac_; reflexivity.
Qed.

Lemma registered_node_is_last_candidate_witness :
  dict_get 7 (devices two_lights) = None
  /\ candidates (devices (register_device 7 (Some "a4:c1:38:00:00:07"%string)
                            "attic"%string 17%nat two_lights))
     = candidates (devices two_lights) ++ [new_link "a4:c1:38:00:00:07" 7].
Proof.
  split; [reflexivity|].
  apply (registered_node_is_last_candidate 7 (Some "a4:c1:38:00:00:07"%string)
           "attic"%string 17%nat two_lights).
  reflexivity.
Defined.

(** ** Status reports *)

(** X3: a status report without [mesh_id], or for an id that is not
    registered, changes nothing and calls nobody.  A report for a
    registered node calls that node's callback once with the report and
    stamps its [last_update] with the current time; the other fields of
    the node, the other nodes and the order of the registry stay as they
    were. *)
Theorem status_report_recorded (status : Status) (st : AwoxMesh) :
  (status_mesh_id status = None -> mesh_status_callback status st = st)
  /\ (forall mesh_id,
        status_mesh_id status = Some mesh_id ->
        dict_get mesh_id (devices st) = None ->
        mesh_status_callback status st = st)
  /\ (forall mesh_id device_info,
        status_mesh_id status = Some mesh_id ->
        dict_get mesh_id (devices st) = Some device_info ->
        added st (mesh_status_callback status st)
        = [EvSubscriber (callback device_info) status]
        /\ dict_get mesh_id (devices (mesh_status_callback status st))
           = Some (set_last_update (Some (now st)) device_info)
        /\ (forall other, other <> mesh_id ->
              dict_get other (devices (mesh_status_callback status st))
              = dict_get other (devices st))
        /\ dict_keys (devices (mesh_status_callback status st))
           = dict_keys (devices st)
        /\ connected_bluetooth_device (mesh_status_callback status st)
           = connected_bluetooth_device st
        /\ state (mesh_status_callback status st) = state st).
Proof.
  unfold mesh_status_callback. split; [|split].
  - intros ->. reflexivity.
  - intros mesh_id -> ->. reflexivity.
  - intros mesh_id device_info Hid Hget. rewrite Hid, Hget.
    split; [apply added_eq; reflexivity|]. simpl.
    split; [now rewrite dict_get_update_eq, Hget|].
    split; [intros other Hne; apply dict_get_update_ne; congruence|].
    split; [apply dict_keys_update|]. split; reflexivity.
Qed.

Lemma status_report_recorded_witness :
  added two_lights
    (mesh_status_callback {| status_mesh_id := Some 2; status_state := Some 1 |}
       two_lights)
  = [EvSubscriber 12 {| status_mesh_id := Some 2; status_state := Some 1 |}]
  /\ mesh_status_callback {| status_mesh_id := Some 9; status_state := Some 1 |}
       two_lights = two_lights.
Proof.
  split.
  - destruct (status_report_recorded
                {| status_mesh_id := Some 2; status_state := Some 1 |} two_lights)
      as (_ & _ & H).
    destruct (H 2 {| mac := Some "a4:c1:38:00:00:02"%string; name := "hall"%string;
                     callback := 12%nat; last_update := None; rssi := None |}
                eq_refl eq_refl) as (H1 & _).
    exact H1.
  - destruct (status_report_recorded
                {| status_mesh_id := Some 9; status_state := Some 1 |} two_lights)
      as (_ & H & _).
    apply (H 9); reflexivity.
Defined.

(** X4: a node that has just reported is left alone by the staleness
    pass: at its turn no request is queued for it and it is not marked,
    whatever the other threads and the link would do. *)
Theorem reported_node_passes_check
    (w : World) (status : Status) (mesh_id : Z) (device_info : DeviceInfo)
    (st : AwoxMesh) :
  status_mesh_id status = Some mesh_id ->
  dict_get mesh_id (devices st) = Some device_info ->
  check_device w mesh_id (mesh_status_callback status st)
  = (Ok tt, mesh_status_callback status st).
Proof.
  intros Hid Hget.
  assert (Hnew : dict_get mesh_id (devices (mesh_status_callback status st))
                 = Some (set_last_update (Some (now st)) device_info)).
  { unfold mesh_status_callback. rewrite Hid, Hget. simpl.
    now rewrite dict_get_update_eq, Hget. }
  assert (Hnow : now (mesh_status_callback status st) = now st).
  { unfold mesh_status_callback. rewrite Hid, Hget. reflexivity. }
  unfold check_device, bind, request_if_silent. rewrite Hnew. simpl.
  assert (H60 : (now st <? now (mesh_status_callback status st) - 60000) = false)
    by (apply Z.ltb_ge; lia).
  rewrite H60. unfold disable_if_stale. rewrite Hnew. simpl.
  assert (H90 : (now st <? now (mesh_status_callback status st) - 90000) = false)
    by (apply Z.ltb_ge; lia).
  now rewrite H90.
Qed.

Lemma reported_node_passes_check_witness :
  check_device deaf_world 1
    (mesh_status_callback {| status_mesh_id := Some 1; status_state := Some 0 |}
       aging_lights)
  = (Ok tt,
     mesh_status_callback {| status_mesh_id := Some 1; status_state := Some 0 |}
       aging_lights).
Proof.
  apply (reported_node_passes_check deaf_world
           {| status_mesh_id := Some 1; status_state := Some 0 |} 1
           {| mac := Some "a4:c1:38:00:00:01"%string; name := "desk"%string;
              callback := 11%nat; last_update := Some 909000; rssi := None |}
           aging_lights); reflexivity.
Defined.

(** ** Marking every node unreachable, again *)

Lemma disabled_entry_idem item : disabled_entry (disabled_entry item) = disabled_entry item.
Proof.
  destruct item as [k d]. unfold disabled_entry, had_update. simpl.
  destruct (last_update d) eqn:Hl; simpl; [reflexivity | now rewrite Hl].
Qed.

Lemma disabled_entry_silent item : had_update (disabled_entry item).2 = false.
Proof.
  destruct item as [k d]. unfold disabled_entry, had_update. simpl.
  destruct (last_update d) eqn:Hl; simpl; [reflexivity | now rewrite Hl].
Qed.

Lemma disabled_keys items : dict_keys (map disabled_entry items) = dict_keys items.
Proof.
  unfold dict_keys. induction items as [|[k d] items IH]; simpl; [reflexivity|].
  rewrite ?fmap_cons. simpl. f_equal; [|exact IH].
  unfold disabled_entry. destruct (had_update _); reflexivity.
Qed.

Lemma unknown_calls_disabled items : unknown_calls (map disabled_entry items) = [].
Proof.
  unfold unknown_calls. induction items as [|item items IH]; simpl; [reflexivity|].
  now rewrite disabled_entry_silent, IH.
Qed.

(** X5: after every node was marked unreachable no node has a
    [last_update]; the order of the registry is the same; and marking
    again changes nothing and calls no callback, so a mesh that stays
    out of reach is reported once, not once per cycle. *)
Theorem disabling_all_is_idempotent (st : AwoxMesh) :
  NoDup (dict_keys (devices st)) ->
  Forall (fun item => last_update item.2 = None)
    (devices (update_status_of_all_devices_to_disabled st))
  /\ dict_keys (devices (update_status_of_all_devices_to_disabled st))
     = dict_keys (devices st)
  /\ update_status_of_all_devices_to_disabled
       (update_status_of_all_devices_to_disabled st)
     = update_status_of_all_devices_to_disabled st.
Proof.
  intros Hnd. rewrite (update_status_of_all_devices_to_disabled_eq st Hnd).
  rewrite devices_set_devices. split; [|split].
  - apply Forall_forall. intros item Hin.
    apply list_elem_of_fmap_1 in Hin as (item0 & -> & _).
    pose proof (disabled_entry_silent item0) as Hs. unfold had_update in Hs.
    destruct (last_update (disabled_entry item0).2); [discriminate | reflexivity].
  - apply disabled_keys.
  - rewrite update_status_of_all_devices_to_disabled_eq
      by (rewrite devices_set_devices, disabled_keys; exact Hnd).
    rewrite devices_set_devices, unknown_calls_disabled. simpl.
    rewrite set_devices_twice. f_equal.
    rewrite map_map. apply map_ext. intros item. apply disabled_entry_idem.
Qed.

Lemma disabling_all_is_idempotent_witness :
  NoDup (dict_keys (devices stale_lights))
  /\ update_status_of_all_devices_to_disabled
       (update_status_of_all_devices_to_disabled stale_lights)
     = update_status_of_all_devices_to_disabled stale_lights.
Proof.
  assert (Hnd : NoDup (dict_keys (devices stale_lights)))
    by (apply (bool_decide_unpack _); vm_compute; exact I).
  split; [exact Hnd|].
  destruct (disabling_all_is_idempotent stale_lights Hnd) as (_ & _ & H).
  exact H.
Defined.

(** ** Falling back to the next candidate *)

Section FirstSuccess.
Variable w : World.
Hypothesis lets_go : forall tr l, link_disconnect w tr l = None.

Lemma connect_candidates_cons_refused mesh_id device_info address items st :
  mac device_info = Some address ->
  (forall tr, link_connect w tr (new_link address mesh_id) <> ConnectReturns true) ->
  connect_candidates w ((mesh_id, device_info) :: items) st
  = connect_candidates w items
      (logs (attempt_events (new_link address mesh_id)) st).
Proof.
  intros Hmac Hno. simpl. rewrite Hmac.
  unfold bind, try_except, connect, candidate_disconnect, ret.
  pose proof (Hno (trace st)) as Hn.
  destruct (link_connect w (trace st) (new_link address mesh_id)) as [[|]|e];
    [congruence| |]; simpl; rewrite lets_go; reflexivity.
Qed.

Lemma connect_candidates_cons_accepted mesh_id device_info address items st :
  mac device_info = Some address ->
  link_connect w (trace st) (new_link address mesh_id) = ConnectReturns true ->
  connect_candidates w ((mesh_id, device_info) :: items) st
  = (Ok tt,
     adopt (new_link address mesh_id) device_info
       (log (EvLinkConnect (new_link address mesh_id)) st)).
Proof.
  intros Hmac Hyes. simpl. rewrite Hmac.
  unfold bind, try_except, connect, modify, ret. now rewrite Hyes.
Qed.

Lemma connect_candidates_first_success before mesh_id device_info address after st :
  mac device_info = Some address ->
  (forall l, l ∈ candidates before ->
             forall tr, link_connect w tr l <> ConnectReturns true) ->
  (forall tr, link_connect w tr (new_link address mesh_id) = ConnectReturns true) ->
  connect_candidates w (before ++ (mesh_id, device_info) :: after) st
  = (Ok tt,
     adopt (new_link address mesh_id) device_info
       (log (EvLinkConnect (new_link address mesh_id))
          (logs (flat_map attempt_events (candidates before)) st))).
Proof.
  intros Hmac Hno Hyes. revert st Hno.
  induction before as [|[k d] before IH]; intros st Hno.
  - simpl. now apply connect_candidates_cons_accepted.
  - rewrite <- app_comm_cons. destruct (mac d) as [a|] eqn:Hd.
    + rewrite (connect_candidates_cons_refused k d a) by
        (try exact Hd; apply Hno; simpl; rewrite Hd; apply elem_of_cons; now left).
      rewrite IH.
      * simpl candidates. rewrite Hd. reflexivity.
      * intros l Hl. apply Hno. simpl. rewrite Hd. apply elem_of_cons. now right.
    + simpl connect_candidates at 1. rewrite Hd.
      rewrite IH.
      * simpl candidates. rewrite Hd. reflexivity.
      * intros l Hl. apply Hno. simpl. now rewrite Hd.
Qed.
End FirstSuccess.

(** X6: the connection routine adopts the first candidate, in registry
    order, whose [connect] returns true.  The candidates before it were
    each tried and let go, the ones after it are not contacted; the
    adopted link is owned, connected and wired to the status callback,
    the snapshot names its node and records the time, and the listeners
    are notified once. *)
Theorem first_willing_candidate_is_adopted
    (w : World) (before after : list (Z * DeviceInfo)) (mesh_id : Z)
    (device_info : DeviceInfo) (address : string) (st : AwoxMesh) :
  is_connected st = false ->
  devices st = before ++ (mesh_id, device_info) :: after ->
  mac device_info = Some address ->
  (forall l, l ∈ candidates before ->
             forall tr, link_connect w tr l <> ConnectReturns true) ->
  (forall tr, link_connect w tr (new_link address mesh_id) = ConnectReturns true) ->
  (forall tr l, link_disconnect w tr l = None) ->
  (_async_connect_device w st).1 = Ok tt
  /\ connected_bluetooth_device (_async_connect_device w st).2
     = Some {| link_mac := address; link_mesh_id := mesh_id;
               link_is_connected := true; status_callback := true |}
  /\ is_connected (_async_connect_device w st).2 = true
  /\ connected_device (state (_async_connect_device w st).2)
     = Some (name device_info)
  /\ last_connection (state (_async_connect_device w st).2) = Some (now st)
  /\ added st (_async_connect_device w st).2
     = flat_map attempt_events (candidates before)
         ++ [EvLinkConnect (new_link address mesh_id); EvListeners]
  /\ devices (_async_connect_device w st).2 = devices st.
Proof.
  intros Hn Hdev Hmac Hno Hyes Hlets.
  unfold _async_connect_device. rewrite Hn, Hdev. unfold bind, modify.
  rewrite (connect_candidates_first_success w Hlets _ _ _ _ _ _ Hmac Hno Hyes).
  set (st0 := logs (flat_map attempt_events (candidates before)) st).
  unfold wire_status_callback, adopt, _async_update_mesh_state, is_connected. simpl.
  split; [reflexivity|]. split; [reflexivity|]. split; [reflexivity|].
  split; [reflexivity|]. subst st0.
  split; [|split].
  - f_equal. clear. generalize (flat_map attempt_events (candidates before)).
    intros evs. revert st. induction evs as [|e evs IH]; intros st; simpl;
      [reflexivity | rewrite IH; reflexivity].
  - apply added_eq. simpl. rewrite logs_trace, <- !app_assoc. reflexivity.
  - simpl. now rewrite logs_devices.
Qed.

Lemma first_willing_candidate_is_adopted_witness :
  connected_device
    (state (_async_connect_device
              (still_world
                 (fun _ l => ConnectReturns (link_mesh_id l =? 2)) always_answers)
              two_lights).2)
  = Some "hall"%string
  /\ added two_lights
       (_async_connect_device
          (still_world
             (fun _ l => ConnectReturns (link_mesh_id l =? 2)) always_answers)
          two_lights).2
     = [EvLinkConnect (new_link "a4:c1:38:00:00:01" 1);
        EvCandidateDisconnect (new_link "a4:c1:38:00:00:01" 1);
        EvLinkConnect (new_link "a4:c1:38:00:00:02" 2);
        EvListeners].
Proof.
  destruct (first_willing_candidate_is_adopted
              (still_world
                 (fun _ l => ConnectReturns (link_mesh_id l =? 2)) always_answers)
              [(1, {| mac := Some "a4:c1:38:00:00:01"%string; name := "desk"%string;
                      callback := 11%nat; last_update := None; rssi := None |})]
              [] 2
              {| mac := Some "a4:c1:38:00:00:02"%string; name := "hall"%string;
                 callback := 12%nat; last_update := None; rssi := None |}
              "a4:c1:38:00:00:02"%string two_lights)
    as (_ & _ & _ & Hname & _ & Hadded & _).
  - reflexivity.
  - reflexivity.
  - reflexivity.
  - intros l Hl tr. simpl in Hl. apply list_elem_of_singleton in Hl as ->.
    simpl. discriminate.
  - intros tr. reflexivity.
  - intros tr l. reflexivity.
  - split; [exact Hname | exact Hadded].
Defined.

(** ** What a call leaves behind *)

(** X7: a call of [_call_command] that reports failure leaves the mesh
    not connected, so the retry starts with the connection routine; a
    call that reports success for a command that is not allowed to fail
    leaves the link it used connected, for the next command. *)
Theorem failed_call_leaves_disconnected (w : World) (cmd : Command) (st : AwoxMesh) :
  ((_call_command w cmd st).1 = Ok false ->
   is_connected (_call_command w cmd st).2 = false)
  /\ ((_call_command w cmd st).1 = Ok true ->
      allow_to_fail cmd = false ->
      is_connected (_call_command w cmd st).2 = true).
Proof.
  pose proof (call_command_outcome w cmd st) as H.
  destruct (_call_command w cmd st) as [r st'] eqn:Ecall. simpl in *.
  inversion H as [e st1 E|st1 E Hn|st1 device result E Hd Hl Hr Hf
                 |st1 device E Hd Hl Hr]; subst.
  - split; discriminate.
  - split; [intros _; exact Hn | discriminate].
  - split; [discriminate|]. intros _ _. unfold is_connected. simpl. now rewrite Hd.
  - split; [intros _; reflexivity|]. intros Hr' Ha. congruence.
Qed.

Lemma failed_call_leaves_disconnected_witness :
  (_call_command deaf_world cmd_on linked_mesh).1 = Ok false
  /\ is_connected (_call_command deaf_world cmd_on linked_mesh).2 = false
  /\ (_call_command calm_world cmd_on linked_mesh).1 = Ok true
  /\ is_connected (_call_command calm_world cmd_on linked_mesh).2 = true.
Proof.
  split; [vm_compute; reflexivity|]. split.
  - destruct (failed_call_leaves_disconnected deaf_world cmd_on linked_mesh) as [H _].
    apply H. vm_compute. reflexivity.
  - split; [vm_compute; reflexivity|].
    destruct (failed_call_leaves_disconnected calm_world cmd_on linked_mesh) as [_ H].
    apply H; [vm_compute; reflexivity | reflexivity].
Defined.

(** ** What the worker never touches *)

Section WorkerFrame.
Variable w : World.

Lemma attempt_event_quiet e : attempt_event e = true -> negb (is_subscriber e) = true.
Proof. destruct e; simpl; congruence. Qed.

Lemma worker_at_get_frame pending st :
  devices (worker_at_get w pending st) = devices st
  /\ shutdown (worker_at_get w pending st) = shutdown st
  /\ last_update_success (worker_at_get w pending st) = last_update_success st
  /\ issued (worker_at_get w pending st) = issued st
  /\ now (worker_at_get w pending st) = now st
  /\ exists evs,
       trace (worker_at_get w pending st) = trace st ++ evs
       /\ forallb (fun e => negb (is_subscriber e)) evs = true.
Proof.
  revert st. induction pending as [|cmd rest IH]; intros st.
  - do 5 (split; [reflexivity|]). exists []. now rewrite app_nil_r.
  - rewrite worker_at_get_cons, process_command_eq. cbn [snd].
    destruct (after_attempts_step w cmd (set_queue rest st))
      as (D & _ & S & _ & L & I & N & evs1 & T1 & F1).
    simpl in D, S, L, I, N, T1.
    assert (F1' : forallb (fun e => negb (is_subscriber e))
                    (evs1 ++ [EvCommandExecuted (cmd_callback cmd); EvTaskDone])
                  = true).
    { rewrite forallb_app. simpl. rewrite andb_true_r.
      apply forallb_forall. intros e He. apply attempt_event_quiet.
      rewrite forallb_forall in F1. now apply F1. }
    set (st1 := log EvTaskDone
                  (log (EvCommandExecuted (cmd_callback cmd))
                     (after_attempts w cmd (set_queue rest st)))).
    assert (T1' : trace st1
                  = trace st
                    ++ evs1 ++ [EvCommandExecuted (cmd_callback cmd); EvTaskDone])
      by (unfold st1; simpl; rewrite T1, <- !app_assoc; reflexivity).
    assert (D1 : devices st1 = devices st) by exact D.
    assert (S1 : shutdown st1 = shutdown st) by exact S.
    assert (L1 : last_update_success st1 = last_update_success st) by exact L.
    assert (I1 : issued st1 = issued st) by exact I.
    assert (N1 : now st1 = now st) by exact N.
    clearbody st1.
    destruct (shutdown st).
    + do 5 (split; [assumption|]). eauto.
    + destruct (IH st1) as (D2 & S2 & L2 & I2 & N2 & evs2 & T2 & F2).
      split; [congruence|]. split; [congruence|]. split; [congruence|].
      split; [congruence|]. split; [congruence|].
      exists ((evs1 ++ [EvCommandExecuted (cmd_callback cmd); EvTaskDone]) ++ evs2).
      split; [rewrite T2, T1', <- !app_assoc; reflexivity|].
      now rewrite forallb_app, F1', F2.
Qed.

Lemma process_commands_frame pending st :
  devices (process_commands w pending st) = devices st
  /\ shutdown (process_commands w pending st) = shutdown st
  /\ last_update_success (process_commands w pending st) = last_update_success st
  /\ issued (process_commands w pending st) = issued st
  /\ now (process_commands w pending st) = now st
  /\ exists evs,
       trace (process_commands w pending st) = trace st ++ evs
       /\ forallb (fun e => negb (is_subscriber e)) evs = true.
Proof.
  unfold process_commands. destruct (shutdown st) eqn:Hs.
  - do 5 (split; [first [reflexivity | exact Hs]|]).
    exists []. now rewrite app_nil_r.
  - destruct (worker_at_get_frame pending st) as (D & S & L & I & N & E).
    rewrite Hs in S. do 5 (split; [assumption|]). exact E.
Qed.
End WorkerFrame.

(** X8: the command thread works on the link only: whatever the link
    does, processing the queue leaves the registry (order, addresses,
    [last_update] of every node), the clock and the coordinator's flags
    as they were, and calls no subscriber callback. *)
Theorem worker_leaves_registry_alone (w : World) (st : AwoxMesh) :
  devices (_process_command_queue w st) = devices st
  /\ shutdown (_process_command_queue w st) = shutdown st
  /\ last_update_success (_process_command_queue w st) = last_update_success st
  /\ now (_process_command_queue w st) = now st
  /\ count_events is_subscriber (added st (_process_command_queue w st)) = 0%nat.
Proof.
  unfold _process_command_queue.
  destruct (process_commands_frame w (queue st) st)
    as (D & S & L & _ & N & evs & T & F).
  do 4 (split; [assumption|]).
  rewrite (added_eq _ _ _ T).
  apply (count_events_none (fun e => negb (is_subscriber e))); [|exact F].
  intros e. destruct (is_subscriber e); [discriminate | reflexivity].
Qed.

(** ** Enqueue and wait *)

Section Waiting.
Variable w : World.

Lemma done_flag_added n st st' :
  done_flag n (length (trace st)) st' = true <-> n ∈ executed (added st st').
Proof.
  unfold done_flag, added. rewrite existsb_exists. split.
  - intros (m & Hin & Heq). apply Nat.eqb_eq in Heq. subst m.
    now apply list_elem_of_In.
  - intros Hin. exists n. split; [now apply list_elem_of_In | apply Nat.eqb_refl].
Qed.

(** The loop returns only in a state in which the flag is set. *)
Lemma wait_until_done_sound rounds n base st st' :
  wait_until_done w rounds n base st = Some st' -> done_flag n base st' = true.
Proof.
  revert st. induction rounds as [|rounds IH]; intros st; cbn [wait_until_done];
    destruct (done_flag n base st) eqn:Hd; try discriminate.
  - intros [= <-]. exact Hd.
  - intros [= <-]. exact Hd.
  - apply IH.
Qed.

(** While no callback runs the loop goes on. *)
Lemma wait_until_done_starves rounds n base st :
  no_callbacks w ->
  done_flag n base st = false ->
  wait_until_done w rounds n base st = None.
Proof.
  intros Hquiet. revert st. induction rounds as [|rounds IH]; intros st Hd;
    cbn [wait_until_done]; rewrite Hd; [reflexivity|].
  apply IH. destruct (Hquiet (Sleep 10) st) as (evs & T & E).
  unfold done_flag in *. rewrite T.
  destruct (decide (base <= length (trace st))%nat) as [Hle|Hgt].
  - rewrite drop_app_le by exact Hle.
    rewrite executed_app, E, app_nil_r. exact Hd.
  - rewrite drop_app_ge by lia.
    assert (Hnone : executed (drop (base - length (trace st)) evs) = []).
    { clear -E. revert evs E. generalize (base - length (trace st))%nat as k.
      induction k as [|k IH]; intros evs E; [exact E|].
      destruct evs as [|e evs]; [reflexivity|]. cbn [drop]. apply IH.
      destruct e; simpl in E; first [discriminate | exact E]. }
    now rewrite Hnone.
Qed.
End Waiting.

(** X9: the caller of [_async_add_command_to_queue], with its wait
    spelled out as the polling loop of the code.  Whatever the world
    does, the call returns normally only once the completion callback of
    its own command has run.  Where the command thread serves the queue
    during the caller's sleep, the thread being alive and not shut down,
    one round of the loop is enough: the callbacks of the commands
    queued before it and then its own have run, in queue order, the
    queue is empty, and the state is the one the definition with the
    single suspension gives, 10 ms later.  Where no other thread calls a
    completion callback, no number of rounds lets the call return. *)
Theorem enqueue_awaits_completion
    (w : World) (command_ : string) (params_ : Params) (allow_to_fail_ : bool)
    (st : AwoxMesh) :
  command_tread_alive st = true ->
  (forall rounds st',
     enqueue_and_wait w rounds command_ params_ allow_to_fail_ st
     = Some (Ok tt, st') ->
     issued st ∈ executed (added st st'))
  /\ (shutdown st = false ->
      forall rounds,
        exists st',
          enqueue_and_wait (threaded w) (S rounds) command_ params_ allow_to_fail_ st
          = Some (Ok tt, set_now (now st' + 10) st')
          /\ _async_add_command_to_queue (threaded w) command_ params_
               allow_to_fail_ st = (Ok tt, st')
          /\ executed (added st st') = map cmd_callback (queue st) ++ [issued st]
          /\ queue st' = []
          /\ issued st' = S (issued st))
  /\ (no_callbacks w ->
      forall rounds,
        enqueue_and_wait w rounds command_ params_ allow_to_fail_ st = None).
Proof.
  intros Halive.
  set (cmd := {| command := command_; params := params_;
                 cmd_callback := issued st; allow_to_fail := allow_to_fail_ |}).
  set (st1 := set_queue (queue st ++ [cmd]) (set_issued (S (issued st)) st)).
  assert (Hstart : done_flag (issued st) (length (trace st)) st1 = false).
  { unfold done_flag. change (trace st1) with (trace st).
    now rewrite drop_all. }
  split; [|split].
  - intros rounds st'. unfold enqueue_and_wait. rewrite Halive. cbn [negb].
    fold cmd. fold st1.
    destruct (wait_until_done w rounds (issued st) (length (trace st)) st1)
      as [st2|] eqn:Hw; [|discriminate].
    intros [= <-]. apply done_flag_added.
    exact (wait_until_done_sound w _ _ _ _ _ Hw).
  - intros Hrun rounds.
    exists (worker_at_get w (queue st ++ [cmd]) st1).
    destruct (worker_at_get_executed w (queue st ++ [cmd]) st1 Hrun)
      as (evs & T & E & _).
    assert (Hadd : added st (worker_at_get w (queue st ++ [cmd]) st1) = evs)
      by (apply added_eq; exact T).
    assert (Hexec : executed evs = map cmd_callback (queue st) ++ [issued st])
      by (rewrite E, map_app; reflexivity).
    split; [|split; [|split; [|split]]].
    + unfold enqueue_and_wait. rewrite Halive. cbn [negb]. fold cmd. fold st1.
      cbn [wait_until_done]. rewrite Hstart.
      cbn [concurrent threaded]. unfold worker_runs.
      change (command_tread_alive st1) with (command_tread_alive st).
      rewrite Halive. change (queue st1) with (queue st ++ [cmd]).
      assert (Hdone : done_flag (issued st) (length (trace st))
                        (set_now (now (worker_at_get w (queue st ++ [cmd]) st1) + 10)
                           (worker_at_get w (queue st ++ [cmd]) st1)) = true).
      { unfold done_flag. cbn [trace set_now].
        fold (added st (worker_at_get w (queue st ++ [cmd]) st1)).
        rewrite Hadd, Hexec, existsb_app. cbn [existsb].
        now rewrite Nat.eqb_refl, orb_true_r. }
      destruct rounds; cbn [wait_until_done]; now rewrite Hdone.
    + unfold _async_add_command_to_queue. rewrite Halive. cbn [negb].
      fold cmd. fold st1. cbn [concurrent threaded]. unfold worker_runs.
      change (command_tread_alive st1) with (command_tread_alive st).
      now rewrite Halive.
    + now rewrite Hadd.
    + now apply worker_at_get_queue.
    + destruct (worker_at_get_frame w (queue st ++ [cmd]) st1)
        as (_ & _ & _ & I & _).
      exact I.
  - intros Hquiet rounds. unfold enqueue_and_wait. rewrite Halive. cbn [negb].
    fold cmd. fold st1.
    now rewrite (wait_until_done_starves w rounds _ _ st1 Hquiet Hstart).
Qed.

Lemma enqueue_awaits_completion_witness :
  command_tread_alive waiting_mesh = true
  /\ (exists st',
        enqueue_and_wait (threaded calm_world) 1 "on" (Keywords [("dest"%string, 1)])
          false waiting_mesh
        = Some (Ok tt, set_now (now st' + 10) st')
        /\ executed (added waiting_mesh st') = [0; 1; 2; 3]%nat)
  /\ enqueue_and_wait calm_world 5 "on" (Keywords [("dest"%string, 1)]) false
       waiting_mesh = None.
Proof.
  split; [reflexivity|].
  destruct (enqueue_awaits_completion calm_world "on" (Keywords [("dest"%string, 1)])
              false waiting_mesh eq_refl) as (_ & H2 & H3).
  split.
  - destruct (H2 eq_refl 0%nat) as (st' & E & _ & X & _).
    exists st'. split; [exact E | exact X].
  - apply H3. intros s st. exists []. split; [now rewrite app_nil_r | reflexivity].
Defined.

(** ** One connection for a whole queue *)

Section Reuse.
Variable w : World.
Hypothesis Hhealthy : healthy w.

Lemma first_candidate_split items :
  candidates items <> [] ->
  exists before mesh_id device_info address after,
    items = before ++ (mesh_id, device_info) :: after
    /\ mac device_info = Some address
    /\ candidates before = [].
Proof.
  induction items as [|[k d] items IH]; simpl; [congruence|].
  destruct (mac d) as [a|] eqn:Hd.
  - intros _. exists [], k, d, a, items. auto.
  - intros Hne. destruct (IH Hne) as (before & id & di & a & after & -> & Hm & Hc).
    exists ((k, d) :: before), id, di, a, after. simpl. rewrite Hd. auto.
Qed.

Lemma healthy_connect st :
  is_connected st = false ->
  candidates (devices st) <> [] ->
  exists device,
    _async_connect_device w st = (Ok tt, (_async_connect_device w st).2)
    /\ is_connected (_async_connect_device w st).2 = true
    /\ trace (_async_connect_device w st).2
       = trace st ++ [EvLinkConnect device; EvListeners]
    /\ shutdown (_async_connect_device w st).2 = shutdown st.
Proof.
  intros Hn Hc. destruct Hhealthy as [Hconn _].
  destruct (first_candidate_split _ Hc)
    as (before & id & d & a & after & Hdev & Hm & Hb).
  exists (new_link a id).
  unfold _async_connect_device. rewrite Hn, Hdev. unfold bind, modify.
  assert (Hgo : forall s, connect_candidates w (before ++ (id, d) :: after) s
                = (Ok tt, adopt (new_link a id) d (log (EvLinkConnect (new_link a id)) s))).
  { clear Hdev Hc Hn. induction before as [|[k dk] before IH]; intros s.
    - simpl. rewrite Hm. unfold bind, try_except, connect, modify, ret.
      now rewrite Hconn.
    - simpl in Hb. destruct (mac dk) eqn:Hk; [discriminate|].
      simpl. rewrite Hk. now apply IH. }
  rewrite Hgo. simpl.
  unfold wire_status_callback, adopt, _async_update_mesh_state, is_connected. simpl.
  split; [reflexivity|]. split; [reflexivity|].
  split; [now rewrite <- app_assoc | reflexivity].
Qed.

Lemma healthy_call cmd st :
  is_connected st = true \/ candidates (devices st) <> [] ->
  exists evs,
    (_call_command w cmd st).1 = Ok true
    /\ is_connected (_call_command w cmd st).2 = true
    /\ shutdown (_call_command w cmd st).2 = shutdown st
    /\ devices (_call_command w cmd st).2 = devices st
    /\ trace (_call_command w cmd st).2 = trace st ++ evs
    /\ count_events is_connect evs
       = (if is_connected st then 0 else 1)%nat
    /\ count_events is_dispatch evs = 1%nat
    /\ count_events is_owned_disconnect evs = 0%nat
    /\ count_events is_candidate_disconnect evs = 0%nat.
Proof.
  intros Hready. destruct Hhealthy as [_ Hdisp].
  rewrite call_command_eq.
  destruct (is_connected st) eqn:Hc.
  - unfold _async_connect_device.
    assert (Hc' : is_connected (log (EvCallCommand cmd) st) = true) by exact Hc.
    rewrite Hc'. unfold is_connected in Hc. simpl.
    destruct (connected_bluetooth_device st) as [device|] eqn:Hd; [|discriminate].
    rewrite Hc.
    destruct (Hdisp (trace st ++ [EvCallCommand cmd]) device cmd) as [v Hv].
    rewrite Hv. simpl.
    exists [EvCallCommand cmd; EvDispatch device cmd]. simpl.
    unfold is_connected. simpl. rewrite Hd, Hc.
    repeat split; try reflexivity. now rewrite <- app_assoc.
  - destruct Hready as [Hr|Hr]; [discriminate|].
    destruct (healthy_connect (log (EvCallCommand cmd) st) Hc Hr)
      as (l & Heq & Hconn & Htr & Hsh).
    pose proof (async_connect_device_step w (log (EvCallCommand cmd) st))
      as (Hdv & _).
    rewrite Heq.
    set (st1 := (_async_connect_device w (log (EvCallCommand cmd) st)).2) in *.
    unfold is_connected in Hconn.
    destruct (connected_bluetooth_device st1) as [device|] eqn:Hd; [|discriminate].
    rewrite Hconn.
    destruct (Hdisp (trace st1) device cmd) as [v Hv]. rewrite Hv. simpl.
    exists [EvCallCommand cmd; EvLinkConnect l; EvListeners; EvDispatch device cmd].
    unfold is_connected. simpl. rewrite Hd, Hconn.
    split; [reflexivity|]. split; [reflexivity|]. split; [exact Hsh|].
    split; [exact Hdv|]. split; [|repeat split; reflexivity].
    rewrite Htr. simpl. rewrite <- !app_assoc. reflexivity.
Qed.

Lemma healthy_turn cmd st :
  is_connected st = true \/ candidates (devices st) <> [] ->
  exists evs,
    is_connected (process_command w cmd st).2 = true
    /\ shutdown (process_command w cmd st).2 = shutdown st
    /\ devices (process_command w cmd st).2 = devices st
    /\ trace (process_command w cmd st).2 = trace st ++ evs
    /\ count_events is_connect evs = (if is_connected st then 0 else 1)%nat
    /\ count_events is_dispatch evs = 1%nat
    /\ count_events is_owned_disconnect evs = 0%nat
    /\ count_events is_candidate_disconnect evs = 0%nat
    /\ count_events is_retry evs = 0%nat.
Proof.
  intros Hready.
  destruct (healthy_call cmd st Hready)
    as (evs & Hr & Hc & Hs & Hd & Ht & N1 & N2 & N3 & N4).
  pose proof (call_command_counts w cmd st) as (_ & Hretry & _).
  rewrite (added_eq _ _ _ Ht) in Hretry.
  rewrite process_command_eq. unfold after_attempts.
  destruct (_call_command w cmd st) as [r st1] eqn:E.
  cbn [fst snd] in Hr, Hc, Hs, Hd, Ht. subst r.
  rewrite (retry_loop_last w 3 0 _ _ _ _ E) by now left.
  exists (evs ++ [EvCommandExecuted (cmd_callback cmd); EvTaskDone]). simpl.
  split; [exact Hc|]. split; [exact Hs|]. split; [exact Hd|].
  split; [rewrite Ht, <- !app_assoc; reflexivity|].
  rewrite !count_events_app. simpl. repeat split; lia.
Qed.

Lemma healthy_queue pending st :
  shutdown st = false ->
  is_connected st = true ->
  exists evs,
    trace (worker_at_get w pending st) = trace st ++ evs
    /\ is_connected (worker_at_get w pending st) = true
    /\ count_events is_connect evs = 0%nat
    /\ count_events is_dispatch evs = length pending
    /\ count_events is_owned_disconnect evs = 0%nat
    /\ count_events is_candidate_disconnect evs = 0%nat
    /\ count_events is_retry evs = 0%nat.
Proof.
  revert st. induction pending as [|cmd rest IH]; intros st Hs Hc.
  - exists []. rewrite app_nil_r. repeat split; try reflexivity. exact Hc.
  - rewrite worker_at_get_cons, Hs.
    destruct (healthy_turn cmd (set_queue rest st) (or_introl Hc))
      as (evs1 & C1 & S1 & _ & T1 & N1 & N2 & N3 & N4 & N5).
    assert (Hq : is_connected (set_queue rest st) = true) by exact Hc.
    rewrite Hq in N1. cbn [shutdown set_queue trace] in S1, T1.
    destruct (IH (process_command w cmd (set_queue rest st)).2
                ltac:(congruence) C1)
      as (evs2 & T2 & C2 & M1 & M2 & M3 & M4 & M5).
    exists (evs1 ++ evs2).
    split; [rewrite T2, T1, <- app_assoc; reflexivity|].
    split; [exact C2|].
    rewrite !count_events_app. cbn [length]. repeat split; lia.
Qed.
End Reuse.

(** X10: with a link that accepts connections and answers every
    command, the worker serves a whole queue over one connection: from a
    disconnected mesh with at least one addressed node it connects once,
    for the first command, dispatches every command exactly once, never
    retries and never disconnects, and ends connected. *)
Theorem queue_served_over_one_connection (w : World) (st : AwoxMesh) :
  healthy w ->
  shutdown st = false ->
  is_connected st = false ->
  candidates (devices st) <> [] ->
  queue st <> [] ->
  count_events is_connect (added st (_process_command_queue w st)) = 1%nat
  /\ count_events is_dispatch (added st (_process_command_queue w st))
     = length (queue st)
  /\ count_events is_retry (added st (_process_command_queue w st)) = 0%nat
  /\ count_events is_owned_disconnect (added st (_process_command_queue w st))
     = 0%nat
  /\ count_events is_candidate_disconnect (added st (_process_command_queue w st))
     = 0%nat
  /\ is_connected (_process_command_queue w st) = true.
Proof.
  intros Hh Hs Hn Hc Hq. unfold _process_command_queue.
  rewrite (process_commands_running w _ _ Hs).
  destruct (queue st) as [|cmd rest]; [congruence|]. clear Hq.
  rewrite worker_at_get_cons, Hs.
  destruct (healthy_turn w Hh cmd (set_queue rest st) (or_intror Hc))
    as (evs1 & C1 & S1 & _ & T1 & N1 & N2 & N3 & N4 & N5).
  assert (Hq : is_connected (set_queue rest st) = false) by exact Hn.
  rewrite Hq in N1. cbn [shutdown set_queue trace] in S1, T1.
  destruct (healthy_queue w Hh rest (process_command w cmd (set_queue rest st)).2
              ltac:(congruence) C1)
    as (evs2 & T2 & C2 & M1 & M2 & M3 & M4 & M5).
  rewrite (added_eq st _ (evs1 ++ evs2))
    by (rewrite T2, T1, <- app_assoc; reflexivity).
  rewrite !count_events_app. cbn [length]. repeat split; try lia. exact C2.
Qed.

Lemma queue_served_over_one_connection_witness :
  count_events is_connect (added busy_mesh (_process_command_queue calm_world busy_mesh))
  = 1%nat
  /\ count_events is_dispatch
       (added busy_mesh (_process_command_queue calm_world busy_mesh)) = 3%nat
  /\ is_connected (_process_command_queue calm_world busy_mesh) = true.
Proof.
  destruct (queue_served_over_one_connection calm_world busy_mesh)
    as (H1 & H2 & _ & _ & _ & H6).
  - split; [intros tr l; reflexivity | intros tr l cmd; exists 1; reflexivity].
  - reflexivity.
  - reflexivity.
  - vm_compute. discriminate.
  - vm_compute. discriminate.
  - split; [exact H1|]. split; [exact H2 | exact H6].
Defined.

(** ** A node without an address stops the scan *)

Section ScanAbort.
Variable found : gmap string (option Z).

Lemma without_rssi_update k x d :
  map without_rssi (dict_update k (set_rssi x) d) = map without_rssi d.
Proof.
  induction d as [|[k' v] d IH]; simpl; [reflexivity|].
  case_decide; simpl; [reflexivity | now rewrite IH].
Qed.

Lemma without_rssi_get k d d' :
  map without_rssi d' = map without_rssi d ->
  option_map (set_rssi None) (dict_get k d')
  = option_map (set_rssi None) (dict_get k d).
Proof.
  revert d'. induction d as [|[k1 v1] d IH]; intros [|[k2 v2] d'] H;
    try discriminate; [reflexivity|].
  cbn [map] in H.
  pose proof (f_equal (fun l => head l) H) as Hh.
  pose proof (f_equal (fun l => tail l) H) as Hd.
  cbn [head tail] in Hh, Hd. unfold without_rssi in Hh. cbn [fst snd] in Hh.
  assert (Hk : k2 = k1) by congruence.
  assert (Hv : set_rssi None v2 = set_rssi None v1) by congruence.
  subst k2. cbn [dict_get]. case_decide; cbn [option_map];
    [now rewrite Hv | now apply IH].
Qed.

Lemma assign_rssi_frame mesh_id st :
  map without_rssi (devices (assign_rssi found mesh_id st).2)
  = map without_rssi (devices st)
  /\ set_devices (devices st) (assign_rssi found mesh_id st).2 = st.
Proof.
  unfold assign_rssi.
  destruct (dict_get mesh_id (devices st)) as [d|];
    [|split; [reflexivity | apply set_devices_same]].
  destruct (mac d);
    [|split; [reflexivity | apply set_devices_same]].
  split; [apply without_rssi_update | destruct st; reflexivity].
Qed.

Lemma assign_all_aborts ids mesh_id device_info st0 st :
  map without_rssi (devices st) = map without_rssi (devices st0) ->
  set_devices (devices st0) st = st0 ->
  (forall k, k ∈ ids -> k ∈ dict_keys (devices st0)) ->
  mesh_id ∈ ids ->
  dict_get mesh_id (devices st0) = Some device_info ->
  mac device_info = None ->
  (for_each (assign_rssi found) ids st).1 = Raised AttributeError
  /\ map without_rssi (devices (for_each (assign_rssi found) ids st).2)
     = map without_rssi (devices st0)
  /\ set_devices (devices st0) (for_each (assign_rssi found) ids st).2 = st0.
Proof.
  intros Hshape Hrest Hids Hin Hget Hmac.
  revert st Hshape Hrest Hin. induction ids as [|k ids IH]; intros st Hshape Hrest Hin.
  - apply elem_of_nil in Hin. contradiction.
  - cbn [for_each]. unfold bind.
    assert (Hk : is_Some (dict_get k (devices st0)))
      by (apply dict_get_known, Hids, elem_of_cons; now left).
    destruct Hk as [dk Hk].
    pose proof (without_rssi_get k _ _ Hshape) as Hsame. rewrite Hk in Hsame.
    destruct (dict_get k (devices st)) as [d|] eqn:Hgk; [|discriminate].
    cbn [option_map] in Hsame.
    assert (Hmd : mac d = mac dk)
      by (change (mac (set_rssi None d) = mac (set_rssi None dk)); congruence).
    pose proof (assign_rssi_frame k st) as [Hs1 Hr1].
    destruct (assign_rssi found k st) as [r st1] eqn:E. cbn [fst snd] in Hs1, Hr1.
    assert (Hr0 : set_devices (devices st0) st1 = st0)
      by (rewrite <- (set_devices_twice (devices st) (devices st0) st1), Hr1;
          exact Hrest).
    unfold assign_rssi in E. rewrite Hgk in E.
    destruct (mac d) as [address|] eqn:Hm; injection E as <- E1.
    + apply elem_of_cons in Hin as [->|Hin]; [congruence|].
      apply IH.
      * intros k' Hk'. apply Hids, elem_of_cons. now right.
      * now rewrite Hs1.
      * exact Hr0.
      * exact Hin.
    + cbn [fst snd]. split; [reflexivity|]. split; [now rewrite Hs1 | exact Hr0].
Qed.
End ScanAbort.

(** X11: a scan over a registry that holds a node without an address
    fails with [AttributeError] when it reaches that node, whatever the
    scanner found: the time of the last scan is not set, so the next
    update scans again; no node is added, dropped or moved, and nothing
    but signal readings changes.  In [_async_update_data] the failure is
    swallowed. *)
Theorem addressless_node_aborts_scan
    (w : World) (st : AwoxMesh) (found : gmap string (option Z))
    (mesh_id : Z) (device_info : DeviceInfo) :
  find_devices w (trace st) = Ok found ->
  dict_get mesh_id (devices st) = Some device_info ->
  mac device_info = None ->
  exists st',
    _async_get_devices_rssi w st = (Raised AttributeError, st')
    /\ try_except (_async_get_devices_rssi w) (fun _ => ret tt) st = (Ok tt, st')
    /\ map without_rssi (devices st') = map without_rssi (devices st)
    /\ dict_keys (devices st') = dict_keys (devices st)
    /\ set_devices (devices st) st' = st
    /\ last_rssi_check (state st') = last_rssi_check (state st).
Proof.
  intros Hfind Hget Hmac.
  destruct (assign_all_aborts found (dict_keys (devices st)) mesh_id device_info
              st st eq_refl (set_devices_same st) (fun _ H => H)
              (dict_get_key _ _ _ Hget) Hget Hmac) as (Hr & Hshape & Hrest).
  assert (Heq : exists st', _async_get_devices_rssi w st = (Raised AttributeError, st')
                  /\ map without_rssi (devices st') = map without_rssi (devices st)
                  /\ set_devices (devices st) st' = st).
  { unfold _async_get_devices_rssi. rewrite Hfind. unfold bind at 1.
    destruct (for_each (assign_rssi found) (dict_keys (devices st)) st) as [r st'].
    cbn [fst snd] in Hr, Hshape, Hrest. subst r. exists st'. auto. }
  clear Hr Hshape Hrest. destruct Heq as (st' & Heq & Hshape & Hrest).
  exists st'. split; [exact Heq|].
  split; [unfold try_except; rewrite Heq; reflexivity|]. split; [exact Hshape|].
  split; [|split; [exact Hrest | now rewrite <- Hrest]].
  transitivity (map fst (map without_rssi (devices st')));
    [now rewrite map_map | now rewrite Hshape, map_map].
Qed.

Lemma addressless_node_aborts_scan_witness :
  exists st',
    _async_get_devices_rssi abc_world lights_and_ghost = (Raised AttributeError, st')
    /\ try_except (_async_get_devices_rssi abc_world) (fun _ => ret tt)
         lights_and_ghost = (Ok tt, st')
    /\ map without_rssi (devices st') = map without_rssi (devices lights_and_ghost)
    /\ dict_keys (devices st') = dict_keys (devices lights_and_ghost)
    /\ set_devices (devices lights_and_ghost) st' = lights_and_ghost
    /\ last_rssi_check (state st') = last_rssi_check (state lights_and_ghost).
Proof.
  apply (addressless_node_aborts_scan abc_world lights_and_ghost abc_scan 3
           {| mac := None; name := "ghost"%string; callback := 13%nat;
              last_update := None; rssi := None |}); reflexivity.
Defined.

(** ** Which entries of a scan result count *)

Lemma upper_ascii_idem c : upper_ascii (upper_ascii c) = upper_ascii c.
Proof. destruct c as [[] [] [] [] [] [] [] []]; reflexivity. Qed.

Lemma upper_idem s : upper (upper s) = upper s.
Proof.
  induction s as [|c s IH]; simpl; [reflexivity|].
  now rewrite upper_ascii_idem, IH.
Qed.

(** X12: a node is looked up in the scan result under its address in
    upper case only (addresses in ASCII).  So an entry of the scan result
    whose key is not in upper case is never used: putting it in or
    changing it changes no node's rank; and the rank does not depend on
    the letter case in which the node's address was registered. *)
Theorem scan_entry_must_be_upper_case
    (found : gmap string (option Z)) (key : string) (value : option Z) :
  upper key <> key ->
  (forall address,
     scan_rank (<[key := value]> found) address = scan_rank found address)
  /\ (forall items,
        map (ranked_entry (<[key := value]> found)) items
        = map (ranked_entry found) items)
  /\ (forall address, scan_rank found (upper address) = scan_rank found address).
Proof.
  intros Hkey.
  assert (Hrank : forall address,
            scan_rank (<[key := value]> found) address = scan_rank found address).
  { intros address. unfold scan_rank.
    rewrite lookup_insert_ne; [reflexivity|].
    intros ->. apply Hkey. apply upper_idem. }
  split; [exact Hrank|]. split.
  - intros items. apply map_ext. intros [k d]. unfold ranked_entry. simpl.
    destruct (mac d); [now rewrite Hrank | reflexivity].
  - intros address. unfold scan_rank. now rewrite upper_idem.
Qed.

Lemma scan_entry_must_be_upper_case_witness :
  scan_rank (<["aa:00:00:00:00:0b"%string := Some (-40)]> abc_scan)
    "aa:00:00:00:00:0b"
  = NOT_FOUND.
Proof.
  destruct (scan_entry_must_be_upper_case abc_scan "aa:00:00:00:00:0b"
              (Some (-40))) as (H & _).
  - vm_compute. discriminate.
  - rewrite H. reflexivity.
Defined.

(** ** Nodes of equal rank keep their order *)

Section SortedAlready.
Context {A : Type} (key : A -> Z).

Lemma sorted_reverse_id l :
  StronglySorted (fun a b => key b <= key a) l -> sorted_reverse key l = l.
Proof.
  induction 1 as [|x l Hs IH Hx]; simpl; [reflexivity|].
  rewrite IH. destruct l as [|y l]; simpl; [reflexivity|].
  apply Forall_cons in Hx as [Hy _]. apply Z.leb_le in Hy. now rewrite Hy.
Qed.

Lemma constant_key_sorted l c :
  Forall (fun x => key x = c) l -> StronglySorted (fun a b => key b <= key a) l.
Proof.
  induction 1 as [|x l Hx Hl IH]; constructor; [exact IH|]. clear IH.
  induction Hl as [|y l Hy _ IH]; constructor; [lia | exact IH].
Qed.
End SortedAlready.

(** X13: the scan reorders the registry no more than the ranks demand:
    the nodes of any one rank come out in the order in which they were
    registered, and a registry whose ranks are already in descending
    order is left in its order.  In particular a scan that sees none of
    the nodes keeps the order of the candidates. *)
Theorem equal_ranks_keep_registry_order
    (w : World) (st : AwoxMesh) (found : gmap string (option Z)) :
  find_devices w (trace st) = Ok found ->
  NoDup (dict_keys (devices st)) ->
  Forall (fun item => mac item.2 <> None) (devices st) ->
  (forall rank,
     List.filter (fun item => rssi_key item =? rank)
       (devices (_async_get_devices_rssi w st).2)
     = List.filter (fun item => rssi_key item =? rank)
         (map (ranked_entry found) (devices st)))
  /\ (StronglySorted by_rank_desc (map (ranked_entry found) (devices st)) ->
      devices (_async_get_devices_rssi w st).2
      = map (ranked_entry found) (devices st))
  /\ ((forall address, found !! upper address = None) ->
      dict_keys (devices (_async_get_devices_rssi w st).2)
      = dict_keys (devices st)).
Proof.
  intros Hfind Hnd Hmac.
  rewrite (async_get_devices_rssi_eq w found st Hfind Hnd Hmac).
  cbn [snd]. rewrite devices_set_devices.
  split; [intros rank; apply sorted_reverse_stable|].
  split; [apply sorted_reverse_id|].
  intros Hunseen. rewrite sorted_reverse_id; [apply ranked_keys|].
  apply (constant_key_sorted rssi_key _ NOT_FOUND).
  clear Hfind Hnd. induction Hmac as [|[k d] items Hd _ IH]; simpl;
    constructor; [|exact IH].
  unfold rssi_key, ranked_entry. simpl in *.
  destruct (mac d) as [a|]; [|congruence].
  simpl. unfold scan_rank. now rewrite Hunseen.
Qed.

Lemma equal_ranks_keep_registry_order_witness :
  (forall rank,
     List.filter (fun item => rssi_key item =? rank)
       (devices (_async_get_devices_rssi abc_world abcd_mesh).2)
     = List.filter (fun item => rssi_key item =? rank)
         (map (ranked_entry abc_scan) (devices abcd_mesh)))
  /\ (StronglySorted by_rank_desc (map (ranked_entry abc_scan) (devices abcd_mesh)) ->
      devices (_async_get_devices_rssi abc_world abcd_mesh).2
      = map (ranked_entry abc_scan) (devices abcd_mesh))
  /\ ((forall address, abc_scan !! upper address = None) ->
      dict_keys (devices (_async_get_devices_rssi abc_world abcd_mesh).2)
      = dict_keys (devices abcd_mesh)).
Proof.
  apply (equal_ranks_keep_registry_order abc_world abcd_mesh abc_scan).
  - reflexivity.
  - apply (bool_decide_unpack _). vm_compute. exact I.
  - repeat constructor; discriminate.
Defined.

(** ** The two-hour renewal of the connection *)

Section Renewal.
Variable w : World.
Hypothesis Hhealthy : healthy w.

Lemma healthy_connected_call cmd st device :
  connected_bluetooth_device st = Some device ->
  link_is_connected device = true ->
  _call_command w cmd st
  = (Ok true, log (EvDispatch device cmd) (log (EvCallCommand cmd) st)).
Proof.
  intros Hd Hl. destruct Hhealthy as [_ Hdisp].
  rewrite call_command_eq. unfold _async_connect_device, is_connected.
  change (connected_bluetooth_device (log (EvCallCommand cmd) st))
    with (connected_bluetooth_device st).
  rewrite Hd, Hl. cbv beta iota.
  change (connected_bluetooth_device (log (EvCallCommand cmd) st))
    with (connected_bluetooth_device st).
  rewrite Hd, Hl.
  match goal with
  | |- context [link_dispatch w ?tr ?l cmd] =>
      destruct (Hdisp tr l cmd) as [v Hv]; rewrite Hv
  end.
  reflexivity.
Qed.

Lemma healthy_candidates before mesh_id device_info address after st :
  candidates before = [] ->
  mac device_info = Some address ->
  connect_candidates w (before ++ (mesh_id, device_info) :: after) st
  = (Ok tt, adopt (new_link address mesh_id) device_info
              (log (EvLinkConnect (new_link address mesh_id)) st)).
Proof.
  intros Hb Hm. destruct Hhealthy as [Hconn _].
  induction before as [|[k dk] before IH].
  - simpl. rewrite Hm. unfold bind, try_except, connect, modify, ret.
    now rewrite Hconn.
  - simpl in Hb. destruct (mac dk) eqn:Hk; [discriminate|].
    simpl. rewrite Hk. now apply IH.
Qed.

Lemma healthy_first_call cmd st before mesh_id device_info address after :
  is_connected st = false ->
  devices st = before ++ (mesh_id, device_info) :: after ->
  candidates before = [] ->
  mac device_info = Some address ->
  _call_command w cmd st
  = (Ok true,
     log (EvDispatch
            (set_status_callback true
               (set_link_is_connected true (new_link address mesh_id))) cmd)
       (wire_status_callback
          (adopt (new_link address mesh_id) device_info
             (log (EvLinkConnect (new_link address mesh_id))
                (log (EvCallCommand cmd) st))))).
Proof.
  intros Hn Hdev Hb Hm. destruct Hhealthy as [_ Hdisp].
  rewrite call_command_eq. unfold _async_connect_device.
  change (is_connected (log (EvCallCommand cmd) st)) with (is_connected st).
  change (devices (log (EvCallCommand cmd) st)) with (devices st).
  rewrite Hn, Hdev. unfold bind, modify.
  rewrite (healthy_candidates before mesh_id device_info address after _ Hb Hm).
  cbv beta iota.
  set (st1 := log (EvLinkConnect (new_link address mesh_id))
                (log (EvCallCommand cmd) st)).
  assert (Hlink : connected_bluetooth_device
                    (wire_status_callback
                       (adopt (new_link address mesh_id) device_info st1))
                  = Some (set_status_callback true
                            (set_link_is_connected true (new_link address mesh_id))))
    by reflexivity.
  rewrite Hlink. cbn [link_is_connected set_status_callback set_link_is_connected].
  match goal with
  | |- context [link_dispatch w ?tr ?l cmd] =>
      destruct (Hdisp tr l cmd) as [v Hv]; rewrite Hv
  end.
  reflexivity.
Qed.

Lemma answered_turn cmd st st1 :
  _call_command w cmd st = (Ok true, st1) ->
  process_command w cmd st
  = (Ok tt, log EvTaskDone (log (EvCommandExecuted (cmd_callback cmd)) st1)).
Proof.
  intros E. rewrite process_command_eq. unfold after_attempts.
  rewrite (retry_loop_last w 3 0 _ _ _ _ E) by now left. reflexivity.
Qed.

Lemma single_turn cmd st st1 :
  command_tread_alive st = true ->
  shutdown st = false ->
  queue st = [cmd] ->
  process_command w cmd (set_queue [] st) = (Ok tt, st1) ->
  worker_runs w st = st1.
Proof.
  intros Ha Hs Hq E. unfold worker_runs. rewrite Ha, Hq, worker_at_get_cons, Hs, E.
  reflexivity.
Qed.

Lemma threaded_request dest allow_to_fail_ st :
  command_tread_alive st = true ->
  request_status (threaded w) dest allow_to_fail_ st
  = (Ok tt,
     worker_runs w
       (set_queue
          (queue st
           ++ [{| command := "requestStatus";
                  params := Keywords [("dest"%string, dest);
                                      ("withResponse"%string, 1)];
                  cmd_callback := issued st; allow_to_fail := allow_to_fail_ |}])
          (set_issued (S (issued st)) st))).
Proof.
  intros Ha. unfold request_status, with_timeout, _async_add_command_to_queue.
  rewrite Ha. reflexivity.
Qed.
End Renewal.

(** X14: with a link that accepts connections and answers, the worker
    thread serving the queue while the caller waits and no bound
    expiring, the first part of an update renews a connection
    that was made more than two hours ago: it disconnects the owned
    link first, and the broadcast status request that follows connects
    anew, so that [last_connection] becomes the current time.  A
    connection made two hours ago or less is kept: the request goes out
    on the link at hand. *)
Theorem old_connection_is_renewed
    (w : World) (st : AwoxMesh) (device : Link) (since : Z) :
  healthy w ->
  command_tread_alive st = true ->
  shutdown st = false ->
  queue st = [] ->
  connected_bluetooth_device st = Some device ->
  link_is_connected device = true ->
  last_connection (state st) = Some since ->
  last_rssi_check (state st) <> None ->
  candidates (devices st) <> [] ->
  exists st',
    update_prefix (threaded w) st = (Ok tt, st')
    /\ count_events is_dispatch (added st st') = 1%nat
    /\ is_connected st' = true
    /\ (since < now st - 7200000 ->
        head (added st st') = Some (EvLinkDisconnect device None)
        /\ count_events is_owned_disconnect (added st st') = 1%nat
        /\ count_events is_connect (added st st') = 1%nat
        /\ last_connection (state st') = Some (now st))
    /\ (now st - 7200000 <= since ->
        count_events is_owned_disconnect (added st st') = 0%nat
        /\ count_events is_connect (added st st') = 0%nat
        /\ connected_bluetooth_device st' = Some device
        /\ state st' = state st).
Proof.
  intros Hh Ha Hs Hq Hd Hl Hlc Hscan Hc.
  destruct (last_rssi_check (state st)) as [scanned|] eqn:Hsc; [clear Hscan|congruence].
  unfold update_prefix, bind, gets, ret. rewrite Ha. cbn [negb].
  rewrite Hlc. cbn [is_before].
  destruct (since <? now st - 7200000) eqn:Hold.
  - apply Z.ltb_lt in Hold.
    unfold force_disconnect. rewrite Hd. cbn [timeout_expires threaded].
    rewrite disconnect_current_device_eq, Hd.
    set (st1 := _async_update_mesh_state
                  (log (EvLinkDisconnect device None)
                     (set_connected_bluetooth_device None st))).
    assert (H1 : last_rssi_check (state st1) = Some scanned) by exact Hsc.
    rewrite H1. cbn [is_none].
    rewrite threaded_request by exact Ha.
    destruct (first_candidate_split _ Hc)
      as (before & id & d & a & after & Hdev & Hm & Hb).
    set (cmd := {| command := "requestStatus";
                   params := Keywords [("dest"%string, 65535);
                                       ("withResponse"%string, 1)];
                   cmd_callback := issued st1; allow_to_fail := false |}).
    set (st2 := set_queue (queue st1 ++ [cmd]) (set_issued (S (issued st1)) st1)).
    pose proof (healthy_first_call w Hh cmd (set_queue [] st2) before id d a after
                  eq_refl Hdev Hb Hm) as Hcall.
    apply answered_turn in Hcall.
    assert (Hq2 : queue st2 = [cmd])
      by (unfold st2, st1; simpl; now rewrite Hq).
    rewrite (single_turn w cmd st2 _ Ha Hs Hq2 Hcall).
    eexists. split; [reflexivity|].
    rewrite (added_eq st _
               [EvLinkDisconnect device None; EvListeners; EvCallCommand cmd;
                EvLinkConnect (new_link a id); EvListeners;
                EvDispatch (set_status_callback true
                              (set_link_is_connected true (new_link a id))) cmd;
                EvCommandExecuted (cmd_callback cmd); EvTaskDone])
      by (simpl; rewrite <- !app_assoc; reflexivity).
    split; [reflexivity|]. split; [reflexivity|]. split; [|intros; lia].
    intros _. repeat split; reflexivity.
  - apply Z.ltb_ge in Hold.
    rewrite Hsc. cbn [is_none].
    rewrite threaded_request by exact Ha.
    set (cmd := {| command := "requestStatus";
                   params := Keywords [("dest"%string, 65535);
                                       ("withResponse"%string, 1)];
                   cmd_callback := issued st; allow_to_fail := false |}).
    set (st2 := set_queue (queue st ++ [cmd]) (set_issued (S (issued st)) st)).
    pose proof (healthy_connected_call w Hh cmd (set_queue [] st2) device Hd Hl)
      as Hcall.
    apply answered_turn in Hcall.
    assert (Hq2 : queue st2 = [cmd]) by (unfold st2; simpl; now rewrite Hq).
    rewrite (single_turn w cmd st2 _ Ha Hs Hq2 Hcall).
    eexists. split; [reflexivity|].
    rewrite (added_eq st _
               [EvCallCommand cmd; EvDispatch device cmd;
                EvCommandExecuted (cmd_callback cmd); EvTaskDone])
      by (simpl; rewrite <- !app_assoc; reflexivity).
    split; [reflexivity|].
    split; [unfold is_connected; simpl; now rewrite Hd|].
    split; [intros; lia|].
    intros _. repeat split; try reflexivity. exact Hd.
Qed.

Lemma old_connection_is_renewed_witness :
  exists st',
    update_prefix (threaded calm_world) (scanned_mesh 1000) = (Ok tt, st')
    /\ head (added (scanned_mesh 1000) st') = Some (EvLinkDisconnect desk_link None)
    /\ last_connection (state st') = Some 10000000.
Proof.
  destruct (old_connection_is_renewed calm_world (scanned_mesh 1000) desk_link 1000)
    as (st' & H1 & _ & _ & H2 & _).
  - split; [intros tr l; reflexivity | intros tr l cmd; exists 1; reflexivity].
  - reflexivity.
  - reflexivity.
  - reflexivity.
  - reflexivity.
  - reflexivity.
  - reflexivity.
  - discriminate.
  - vm_compute. discriminate.
  - exists st'. split; [exact H1|].
    destruct H2 as (H3 & _ & _ & H4); [vm_compute; reflexivity|]. auto.
Defined.

(** ** An update that finds every node fresh *)

Section FreshPass.
Variable w : World.

Lemma fresh_node_passes mesh_id device_info st :
  dict_get mesh_id (devices st) = Some device_info ->
  (is_none (last_update device_info)
   || is_before (last_update device_info) (now st - 60000))%bool = false ->
  check_device w mesh_id st = (Ok tt, st).
Proof.
  intros Hget Hfresh. unfold check_device, bind, request_if_silent.
  rewrite Hget, Hfresh. unfold disable_if_stale. rewrite Hget.
  apply orb_false_elim in Hfresh as [_ Hb]. unfold is_before in *.
  destruct (last_update device_info) as [t|]; [|reflexivity].
  apply Z.ltb_ge in Hb.
  assert (H90 : (t <? now st - 90000) = false) by (apply Z.ltb_ge; lia).
  now rewrite H90.
Qed.

Lemma fresh_nodes_pass (items : list (Z * DeviceInfo)) st :
  (forall item, item ∈ items ->
     exists device_info,
       dict_get item.1 (devices st) = Some device_info
       /\ (is_none (last_update device_info)
           || is_before (last_update device_info) (now st - 60000))%bool = false) ->
  for_each (check_device w) (dict_keys items) st = (Ok tt, st).
Proof.
  induction items as [|[k d] items IH]; intros Hall; [reflexivity|].
  change (dict_keys ((k, d) :: items)) with (k :: dict_keys items).
  cbn [for_each]. unfold bind.
  destruct (Hall (k, d)) as (dk & Hget & Hfresh); [apply elem_of_cons; now left|].
  rewrite (fresh_node_passes k dk st Hget Hfresh).
  apply IH. intros item Hin. apply Hall, elem_of_cons. now right.
Qed.
End FreshPass.

Lemma all_fresh_lookup st item :
  all_fresh st = true ->
  item ∈ devices st ->
  exists device_info,
    dict_get item.1 (devices st) = Some device_info
    /\ (is_none (last_update device_info)
        || is_before (last_update device_info) (now st - 60000))%bool = false.
Proof.
  unfold all_fresh. generalize (now st - 60000). intros limit.
  induction (devices st) as [|[k d] items IH]; intros Hall Hin.
  - apply elem_of_nil in Hin. contradiction.
  - cbn [forallb] in Hall. apply andb_prop in Hall as [Hd Hall].
    cbn [dict_get]. destruct item as [k' d'].
    destruct (decide (k = k')) as [->|Hne].
    + exists d. cbn [fst]. case_decide; [|congruence].
      split; [reflexivity|]. now apply negb_true_iff in Hd.
    + apply elem_of_cons in Hin as [Heq|Hin]; [congruence|].
      cbn [fst]. case_decide; [congruence|]. exact (IH Hall Hin).
Qed.

(** X15: whatever the links, the other threads and the clock do: when
    the broadcast status request of an update has come back with the
    mesh connected, and after the half second the update then sleeps
    every node has a [last_update] within the last 60 s, the staleness
    pass asks no node and marks no node, and the update returns the mesh
    state as it is after that sleep. *)
Theorem fresh_registry_is_not_probed (w : World) (st st0 : AwoxMesh) :
  update_prefix w st = (Ok tt, st0) ->
  is_connected st0 = true ->
  all_fresh (concurrent w (Sleep 500) st0) = true ->
  _async_update_data w st
  = (Ok (state (concurrent w (Sleep 500) st0)), concurrent w (Sleep 500) st0).
Proof.
  intros Hprefix Hc Hfresh.
  unfold _async_update_data, bind. rewrite Hprefix.
  unfold update_suffix, bind, gets. rewrite Hc. cbn [negb].
  unfold sleep, modify.
  rewrite (fresh_nodes_pass w (devices (concurrent w (Sleep 500) st0))
             (concurrent w (Sleep 500) st0)); [reflexivity|].
  intros item Hin. exact (all_fresh_lookup _ item Hfresh Hin).
Qed.

Lemma fresh_registry_is_not_probed_witness :
  _async_update_data (threaded calm_world) lively_mesh
  = (Ok (state (concurrent (threaded calm_world) (Sleep 500)
                  (update_prefix (threaded calm_world) lively_mesh).2)),
     concurrent (threaded calm_world) (Sleep 500)
       (update_prefix (threaded calm_world) lively_mesh).2).
Proof.
  apply (fresh_registry_is_not_probed (threaded calm_world) lively_mesh
           (update_prefix (threaded calm_world) lively_mesh).2).
  - vm_compute. reflexivity.
  - vm_compute. reflexivity.
  - vm_compute. reflexivity.
Defined.

(** The run of the example: both lights were heard some seconds ago, the
    link to the desk light is open; the update sends the broadcast
    request on it, sleeps half a second and returns. *)
Example fresh_update_run :
  added lively_mesh (_async_update_data (threaded calm_world) lively_mesh).2
  = [EvCallCommand (status_request 65535 false 0);
     EvDispatch desk_link (status_request 65535 false 0);
     EvCommandExecuted 0; EvTaskDone]
  /\ now (_async_update_data (threaded calm_world) lively_mesh).2
     = now lively_mesh + 500
  /\ devices (_async_update_data (threaded calm_world) lively_mesh).2
     = devices lively_mesh.
Proof. repeat split; vm_compute; reflexivity. Qed.

(** The scan of [calm_world] sees nobody: the four lights keep their
    order of registration. *)
Example unseen_scan_keeps_order :
  dict_keys (devices (_async_get_devices_rssi calm_world abcd_mesh).2) = [1; 2; 4; 3]
  /\ dict_keys (devices abcd_mesh) = [1; 2; 4; 3].
Proof. split; vm_compute; reflexivity. Qed.

(** ** The worker loop as a whole *)

Section WorkerTurns.
Variable w : World.

Lemma turn_event_attempt cmd e : turn_event cmd e = true -> attempt_event e = true.
Proof. destruct e; simpl; congruence. Qed.

Lemma call_command_turn cmd st : step (turn_event cmd) st (_call_command w cmd st).2.
Proof.
  pose proof (call_command_outcome w cmd st) as H.
  pose proof (async_connect_device_step w (log (EvCallCommand cmd) st)) as Hc.
  assert (Hcmd : bool_decide (cmd = cmd) = true) by now apply bool_decide_eq_true.
  assert (H0 : step (turn_event cmd) st (log (EvCallCommand cmd) st))
    by (apply step_log; exact Hcmd).
  assert (Hw : forall e, connect_event e = true -> turn_event cmd e = true)
    by (intros []; simpl; congruence).
  inversion H as [e st1 E|st1 E Hn|st1 device result E Hd Hl Hr Hf
                 |st1 device E Hd Hl Hr]; rewrite E in Hc; simpl in Hc.
  - eapply step_trans; [exact H0 | eapply step_weaken; eauto].
  - eapply step_trans; [exact H0 | eapply step_weaken; eauto].
  - eapply step_trans; [exact H0|].
    eapply step_trans; [eapply step_weaken; eauto|]. apply step_log. exact Hcmd.
  - eapply step_trans; [exact H0|].
    eapply step_trans; [eapply step_weaken; eauto|].
    eapply step_trans; [apply (step_log _ (EvDispatch device cmd)); exact Hcmd|].
    eapply step_trans; [apply step_set_link|].
    eapply step_trans;
      [apply (step_log _ (EvLinkDisconnect device None)); reflexivity|].
    now apply step_update_mesh_state.
Qed.

Lemma retry_loop_turn fuel tries cmd st :
  step (turn_event cmd) st (retry_loop w fuel tries cmd st).2.
Proof.
  revert tries st. induction fuel as [|fuel IH]; intros tries st.
  - apply step_refl.
  - rewrite retry_loop_unfold.
    pose proof (call_command_turn cmd st) as Hc.
    destruct (_call_command w cmd st) as [[ok|e] st1]; simpl in Hc; [|exact Hc].
    destruct (negb ok && (tries <? 3)%nat)%bool; [|exact Hc].
    eapply step_trans; [exact Hc|].
    eapply step_trans; [apply (step_log _ (EvRetry (S tries))); reflexivity|].
    apply IH.
Qed.

Lemma disconnect_turn cmd st :
  step (turn_event cmd) st (_disconnect_current_device w st).2.
Proof.
  rewrite disconnect_current_device_eq. simpl.
  destruct (connected_bluetooth_device st) as [device|]; [|apply step_refl].
  eapply step_trans; [apply step_set_link|].
  eapply step_trans;
    [apply (step_log _ (EvLinkDisconnect device None)); reflexivity|].
  now apply step_update_mesh_state.
Qed.

Lemma after_attempts_turn cmd st : step (turn_event cmd) st (after_attempts w cmd st).
Proof.
  unfold after_attempts.
  pose proof (retry_loop_turn 4 0 cmd st) as Hr.
  destruct (retry_loop w 4 0 cmd st) as [[[]|e] st1]; simpl in Hr; [exact Hr|].
  eapply step_trans; [exact Hr | apply disconnect_turn].
Qed.

Lemma turn_trace cmd st :
  turn_of cmd (added st (process_command w cmd st).2)
  /\ trace (process_command w cmd st).2
     = trace st ++ added st (process_command w cmd st).2.
Proof.
  destruct (process_command_trace w cmd st) as (evs & T & F).
  pose proof (process_command_added w cmd st) as Hadd.
  rewrite (added_eq _ _ _ T) in *.
  split; [|exact T].
  apply app_inv_tail in Hadd.
  exists evs. split; [reflexivity|]. split.
  - rewrite Hadd. exact (proj2 (step_added _ _ _ (after_attempts_turn cmd st))).
  - rewrite Hadd.
    destruct (after_attempts_counts w cmd st) as [-> _].
    destruct (retry_loop_counts w 4 0 cmd st ltac:(lia)) as (H1 & _ & _ & H4).
    cbv zeta in H1, H4. lia.
Qed.

Lemma worker_at_get_turns pending st :
  shutdown st = false ->
  exists turns,
    Forall2 turn_of pending turns
    /\ trace (worker_at_get w pending st) = trace st ++ concat turns.
Proof.
  revert st. induction pending as [|cmd rest IH]; intros st Hs.
  - exists []. split; [constructor | now rewrite app_nil_r].
  - rewrite worker_at_get_cons, Hs.
    destruct (turn_trace cmd (set_queue rest st)) as [Hturn T1].
    destruct (process_command_flags w cmd (set_queue rest st)) as (S1 & _ & _).
    cbn [shutdown set_queue trace] in S1, T1.
    destruct (IH (process_command w cmd (set_queue rest st)).2 ltac:(congruence))
      as (turns & Hturns & T2).
    exists (added (set_queue rest st) (process_command w cmd (set_queue rest st)).2
            :: turns).
    split; [now constructor|].
    rewrite T2, T1. cbn [concat]. now rewrite <- app_assoc.
Qed.
End WorkerTurns.

(** X16: the worker thread, idle in [queue.get()], is handed its queue.
    When [_shutdown] is not set it serves the queue in order and to the
    end, whatever the links do: each command has its turn, with at least
    one and at most four calls of [_call_command], then its completion
    callback, once, then [task_done]; the queue ends empty and the
    thread is as alive as before.  When [_shutdown] was set while the
    thread was idle, it still serves the one command that [get] hands
    out, in the same way, and then ends: the commands behind it stay
    queued and are never completed.  Entering the loop with [_shutdown]
    set ends the thread at once. *)
Theorem worker_drains_queue_in_order (w : World) (st : AwoxMesh) :
  (shutdown st = false ->
   _process_command_queue w st = worker_at_get w (queue st) st
   /\ exists turns,
        Forall2 turn_of (queue st) turns
        /\ added st (worker_at_get w (queue st) st) = concat turns
        /\ executed (added st (worker_at_get w (queue st) st))
           = map cmd_callback (queue st)
        /\ queue (worker_at_get w (queue st) st) = []
        /\ command_tread_alive (worker_at_get w (queue st) st)
           = command_tread_alive st)
  /\ (shutdown st = true ->
      _process_command_queue w st = thread_ended st
      /\ forall cmd rest,
           queue st = cmd :: rest ->
           turn_of cmd (added st (worker_at_get w (queue st) st))
           /\ executed (added st (worker_at_get w (queue st) st))
              = [cmd_callback cmd]
           /\ queue (worker_at_get w (queue st) st) = rest
           /\ command_tread_alive (worker_at_get w (queue st) st) = false).
Proof.
  split; intros Hs.
  - split; [apply process_commands_running; exact Hs|].
    destruct (worker_at_get_turns w (queue st) st Hs) as (turns & Hturns & T).
    destruct (worker_at_get_executed w (queue st) st Hs) as (evs & T' & E & A).
    exists turns. split; [exact Hturns|].
    split; [apply added_eq; exact T|].
    rewrite (added_eq _ _ _ T').
    split; [exact E|]. split; [now apply worker_at_get_queue | exact A].
  - split; [unfold _process_command_queue, process_commands; now rewrite Hs|].
    intros cmd rest Hq. rewrite Hq, worker_at_get_cons, Hs.
    destruct (turn_trace w cmd (set_queue rest st)) as [Hturn T].
    destruct (process_command_flags w cmd (set_queue rest st)) as (_ & _ & Q).
    assert (Hadd : added st (thread_ended (process_command w cmd (set_queue rest st)).2)
                   = added (set_queue rest st)
                       (process_command w cmd (set_queue rest st)).2)
      by (apply added_eq; exact T).
    rewrite Hadd. split; [exact Hturn|].
    split; [|split; [exact Q | reflexivity]].
    destruct Hturn as (attempts & -> & F & _).
    rewrite executed_app, (executed_none attempts); [reflexivity|].
    apply forallb_forall. intros e He. apply (turn_event_attempt cmd).
    rewrite forallb_forall in F. now apply F.
Qed.

Lemma worker_drains_queue_in_order_witness :
  executed (added busy_mesh (worker_at_get deaf_world (queue busy_mesh) busy_mesh))
  = [0; 1; 2]%nat
  /\ executed
       (added (set_shutdown true busy_mesh)
          (worker_at_get deaf_world (queue (set_shutdown true busy_mesh))
             (set_shutdown true busy_mesh)))
     = [0]%nat
  /\ queue (worker_at_get deaf_world (queue (set_shutdown true busy_mesh))
              (set_shutdown true busy_mesh))
     = [cmd_status; cmd_off].
Proof.
  split.
  - destruct (worker_drains_queue_in_order deaf_world busy_mesh) as (H & _).
    destruct (H eq_refl) as (_ & turns & _ & _ & H1 & _). exact H1.
  - destruct (worker_drains_queue_in_order deaf_world (set_shutdown true busy_mesh))
      as (_ & H).
    destruct (H eq_refl) as (_ & H1).
    destruct (H1 cmd_on [cmd_status; cmd_off] eq_refl) as (_ & H2 & H3 & _).
    split; [exact H2 | exact H3].
Defined.

(** ** The first update connects to the best signal *)

Lemma ranked_keeps_address found items :
  Forall (fun item => mac item.2 <> None) items ->
  Forall (fun item => mac item.2 <> None) (map (ranked_entry found) items).
Proof.
  induction 1 as [|[k d] items Hd _ IH]; simpl; constructor; [|exact IH].
  unfold ranked_entry. simpl in *. destruct (mac d) eqn:Hm; simpl; congruence.
Qed.

Lemma update_mesh_state_unlinked st :
  connected_bluetooth_device st = None ->
  _async_update_mesh_state st
  = log EvListeners (set_state (set_connected_device None (state st)) st).
Proof.
  intros H. unfold _async_update_mesh_state, is_connected. now rewrite H.
Qed.

(** X17: the first update of a mesh that was never scanned and is not
    connected scans first and then connects for its broadcast status
    request; with links that accept and answer, the scan returning, the
    worker serving the queue and no bound expiring, it connects to the
    node of the best rank: the registry comes out in descending order of
    rank, its first node is the one connected to and named in the mesh
    state, and no other node is contacted. *)
Theorem first_update_connects_to_best_signal
    (w : World) (st : AwoxMesh) (found : gmap string (option Z)) :
  healthy w ->
  find_devices w (trace st) = Ok found ->
  command_tread_alive st = true ->
  shutdown st = false ->
  queue st = [] ->
  connected_bluetooth_device st = None ->
  last_rssi_check (state st) = None ->
  NoDup (dict_keys (devices st)) ->
  Forall (fun item => mac item.2 <> None) (devices st) ->
  devices st <> [] ->
  exists st' mesh_id device_info address,
    update_prefix (threaded w) st = (Ok tt, st')
    /\ Permutation (devices st') (map (ranked_entry found) (devices st))
    /\ head (devices st') = Some (mesh_id, device_info)
    /\ mac device_info = Some address
    /\ Forall (fun item => rssi_key item <= rssi_key (mesh_id, device_info))
         (devices st')
    /\ connected_bluetooth_device st'
       = Some {| link_mac := address; link_mesh_id := mesh_id;
                 link_is_connected := true; status_callback := true |}
    /\ connected_device (state st') = Some (name device_info)
    /\ last_rssi_check (state st') = Some (now st)
    /\ last_connection (state st') = Some (now st)
    /\ count_events is_connect (added st st') = 1%nat
    /\ count_events is_candidate_disconnect (added st st') = 0%nat.
Proof.
  intros Hh Hfind Ha Hs Hq Hnone Hsc Hnd Hmac Hne.
  assert (Hforce : forall stale : bool,
            (if stale then force_disconnect (threaded w) else ret tt) st = (Ok tt, st)).
  { intros [|]; [|reflexivity]. unfold force_disconnect. now rewrite Hnone. }
  unfold update_prefix, bind, gets, ret. rewrite Ha. cbn [negb].
  rewrite Hforce, Hsc. cbn [is_none]. unfold try_except.
  rewrite (async_get_devices_rssi_eq (threaded w) found st Hfind Hnd Hmac).
  pose proof (sorted_reverse_perm rssi_key (map (ranked_entry found) (devices st)))
    as Hperm.
  pose proof (sorted_reverse_sorted rssi_key (map (ranked_entry found) (devices st)))
    as Hsorted.
  pose proof (ranked_keeps_address found _ Hmac) as Haddr.
  rewrite <- Hperm in Haddr.
  remember (sorted_reverse rssi_key (map (ranked_entry found) (devices st)))
    as order eqn:Eorder.
  destruct order as [|[mesh_id device_info] rest].
  { exfalso. apply Permutation_nil in Hperm.
    destruct (devices st); [congruence | discriminate]. }
  apply Forall_cons in Haddr as [Hm _]. cbn [snd] in Hm.
  destruct (mac device_info) as [address|] eqn:Hmd; [clear Hm | congruence].
  rewrite (update_mesh_state_unlinked
             (set_state (set_last_rssi_check (Some (now st)) (state st)) st) Hnone).
  set (st1 := set_devices ((mesh_id, device_info) :: rest)
                (log EvListeners
                   (set_state
                      (set_connected_device None
                         (state (set_state
                                   (set_last_rssi_check (Some (now st)) (state st)) st)))
                      (set_state (set_last_rssi_check (Some (now st)) (state st)) st)))).
  rewrite threaded_request by exact Ha.
  fold (status_request 65535 false (issued st1)).
  set (cmd := status_request 65535 false (issued st1)).
  set (st2 := set_queue (queue st1 ++ [cmd]) (set_issued (S (issued st1)) st1)).
  assert (Hn2 : is_connected (set_queue [] st2) = false)
    by (unfold is_connected; simpl; now rewrite Hnone).
  pose proof (healthy_first_call w Hh cmd (set_queue [] st2) [] mesh_id device_info
                address rest Hn2 eq_refl eq_refl Hmd) as Hcall.
  apply answered_turn in Hcall.
  assert (Hq2 : queue st2 = [cmd]) by (unfold st2, st1; simpl; now rewrite Hq).
  rewrite (single_turn w cmd st2 _ Ha Hs Hq2 Hcall).
  eexists. exists mesh_id, device_info, address.
  split; [reflexivity|].
  split; [exact Hperm|]. split; [reflexivity|]. split; [exact Hmd|].
  split.
  { apply StronglySorted_inv in Hsorted as [_ Hrest].
    constructor; [lia|]. exact Hrest. }
  split; [reflexivity|]. split; [reflexivity|].
  split; [reflexivity|].
  split; [reflexivity|].
  rewrite (added_eq st _
             [EvListeners; EvCallCommand cmd; EvLinkConnect (new_link address mesh_id);
              EvListeners;
              EvDispatch (set_status_callback true
                            (set_link_is_connected true (new_link address mesh_id)))
                cmd;
              EvCommandExecuted (cmd_callback cmd); EvTaskDone]).
  - split; reflexivity.
  - simpl. rewrite <- !app_assoc. reflexivity.
Qed.

Lemma first_update_connects_to_best_signal_witness :
  exists st' mesh_id device_info,
    update_prefix (threaded abc_calm_world) bca_mesh = (Ok tt, st')
    /\ head (devices st') = Some (mesh_id, device_info)
    /\ connected_device (state st') = Some (name device_info)
    /\ count_events is_connect (added bca_mesh st') = 1%nat.
Proof.
  destruct (first_update_connects_to_best_signal abc_calm_world bca_mesh abc_scan)
    as (st' & mesh_id & device_info & address & H1 & _ & H3 & _ & _ & _ & H7 & _ & _
        & H10 & _).
  - split; [intros tr l; reflexivity | intros tr l cmd; exists 1; reflexivity].
  - reflexivity.
  - reflexivity.
  - reflexivity.
  - reflexivity.
  - reflexivity.
  - reflexivity.
  - apply (bool_decide_unpack _). vm_compute. exact I.
  - repeat constructor; discriminate.
  - vm_compute. discriminate.
  - exists st', mesh_id, device_info. auto.
Defined.

(** Lights B, C and A registered in this order: the first update scans
    (A at -50 dBm, C at -70 dBm, B not seen) and connects to A. *)
Example first_update_picks_a :
  connected_device (state (update_prefix (threaded abc_calm_world) bca_mesh).2)
  = Some "A"%string
  /\ dict_keys (devices (update_prefix (threaded abc_calm_world) bca_mesh).2)
     = [1; 3; 2]
  /\ dict_keys (devices bca_mesh) = [2; 3; 1].
Proof. repeat split; vm_compute; reflexivity. Qed.

(** ** A candidate that cannot be let go *)

Section Snag.
Variable w : World.

Lemma connect_candidates_snag before mesh_id device_info address after e st :
  candidates before = [] ->
  mac device_info = Some address ->
  (forall tr, link_connect w tr (new_link address mesh_id) <> ConnectReturns true) ->
  (forall tr, link_disconnect w tr (new_link address mesh_id) = Some e) ->
  connect_candidates w (before ++ (mesh_id, device_info) :: after) st
  = (Raised e,
     logs [EvLinkConnect (new_link address mesh_id);
           EvCandidateDisconnect (new_link address mesh_id)] st).
Proof.
  intros Hb Hm Hno Hsnag. induction before as [|[k dk] before IH].
  - simpl. rewrite Hm.
    unfold bind, try_except, connect, candidate_disconnect, ret.
    pose proof (Hno (trace st)) as Hn.
    destruct (link_connect w (trace st) (new_link address mesh_id)) as [[|]|e'];
      [congruence| |]; simpl; rewrite Hsnag; reflexivity.
  - simpl in Hb. destruct (mac dk) eqn:Hk; [discriminate|].
    simpl. rewrite Hk. now apply IH.
Qed.
End Snag.

(** X18: when the first addressed node refuses the connection and its
    [disconnect] raises, the connection routine stops there: the nodes
    after it are not tried, [_call_command] raises, and the worker skips
    the command after this one call, without retry and without
    dispatch; the completion callback still fires. *)
Theorem snagged_candidate_skips_command
    (w : World) (cmd : Command) (st : AwoxMesh)
    (before after : list (Z * DeviceInfo)) (mesh_id : Z)
    (device_info : DeviceInfo) (address : string) (e : Exn) :
  connected_bluetooth_device st = None ->
  devices st = before ++ (mesh_id, device_info) :: after ->
  candidates before = [] ->
  mac device_info = Some address ->
  (forall tr, link_connect w tr (new_link address mesh_id) <> ConnectReturns true) ->
  (forall tr, link_disconnect w tr (new_link address mesh_id) = Some e) ->
  (_call_command w cmd st).1 = Raised e
  /\ process_command w cmd st
     = (Ok tt,
        logs [EvCallCommand cmd;
              EvLinkConnect (new_link address mesh_id);
              EvCandidateDisconnect (new_link address mesh_id);
              EvCommandExecuted (cmd_callback cmd); EvTaskDone] st).
Proof.
  intros Hnone Hdev Hb Hm Hno Hsnag.
  assert (Hcall : _call_command w cmd st
                  = (Raised e,
                     logs [EvCallCommand cmd;
                           EvLinkConnect (new_link address mesh_id);
                           EvCandidateDisconnect (new_link address mesh_id)] st)).
  { rewrite call_command_eq. unfold _async_connect_device, is_connected.
    change (connected_bluetooth_device (log (EvCallCommand cmd) st))
      with (connected_bluetooth_device st).
    change (devices (log (EvCallCommand cmd) st)) with (devices st).
    rewrite Hnone, Hdev. unfold bind.
    rewrite (connect_candidates_snag w before mesh_id device_info address after e
               _ Hb Hm Hno Hsnag).
    reflexivity. }
  split; [now rewrite Hcall|].
  unfold process_command, bind, try_except, modify.
  rewrite retry_loop_unfold, Hcall.
  rewrite disconnect_current_device_eq.
  change (connected_bluetooth_device
            (logs [EvCallCommand cmd; EvLinkConnect (new_link address mesh_id);
                   EvCandidateDisconnect (new_link address mesh_id)] st))
    with (connected_bluetooth_device st).
  rewrite Hnone. reflexivity.
Qed.

Lemma snagged_candidate_skips_command_witness :
  process_command snagging_world cmd_on two_lights
  = (Ok tt,
     logs [EvCallCommand cmd_on;
           EvLinkConnect (new_link "a4:c1:38:00:00:01" 1);
           EvCandidateDisconnect (new_link "a4:c1:38:00:00:01" 1);
           EvCommandExecuted (cmd_callback cmd_on); EvTaskDone] two_lights).
Proof.
  destruct (snagged_candidate_skips_command snagging_world cmd_on two_lights []
              [(2, {| mac := Some "a4:c1:38:00:00:02"%string; name := "hall"%string;
                      callback := 12%nat; last_update := None; rssi := None |})]
              1 {| mac := Some "a4:c1:38:00:00:01"%string; name := "desk"%string;
                   callback := 11%nat; last_update := None; rssi := None |}
              "a4:c1:38:00:00:01" LinkError) as (_ & H).
  - reflexivity.
  - reflexivity.
  - reflexivity.
  - reflexivity.
  - intros tr. discriminate.
  - intros tr. reflexivity.
  - exact H.
Defined.
